(** * A shallow embedding of the block store of [src/index.ts]

    The class [Blockchain] keeps headers, bodies and total difficulties in
    a key-value store, selects the canonical chain by total difficulty and
    maintains named iterator heads.  The mutable fields of the class become
    one record that every operation takes and returns; the asynchronous
    callbacks become results ([Ok] for [cb()], [Err] for [cb(err)]), and
    the recursive walks take a bound on their number of calls. *)

From stdpp Require Import gmap strings list fin_maps.

#[local] Open Scope Z_scope.

(** ** Data *)

(** A hash is a 32-byte digest, read as a number. *)
Abbreviation Hash := positive.

(** The fields of a header the store looks at, and the opaque remainder. *)
Record Header := mkHeader {
  parentHash : Hash;
  number : Z;
  difficulty : Z;
  extraData : Z
}.

(** [header.hash()] is computed outside this file (the digest of the encoded
    header).  It is modelled by an injective encoding of the fields, so that
    a hash identifies its header. *)
Definition hash (hd : Header) : Hash :=
  encode (parentHash hd, number hd, difficulty hd, extraData hd).

Record Block := mkBlock {
  header : Header;
  transactions : list Z;
  uncleHeaders : list Header
}.

(** What [_putBlockOrHeader] receives: a block or a standalone header, each
    with the chain id of its own [_common]. *)
Inductive Item :=
| ItemBlock (chain : Z) (b : Block)
| ItemHeader (chain : Z) (hd : Header).

#[global] Instance Header_eq_dec : EqDecision Header.
Proof. solve_decision. Defined.

#[global] Instance Block_eq_dec : EqDecision Block.
Proof. solve_decision. Defined.

(** ** Keys and values of the store

    The byte keys of [util.ts] are a family tag, the 8-byte number, the
    32-byte hash and a suffix; keys of different families or of different
    arguments are different byte strings, which the constructors keep.

    The store is shared: the constructor hands [this.db] to [new Ethash]
    as well, and the proof-of-work verifier keeps the cache of an epoch in
    it under the number of the epoch, a key of no family of [util.ts]
    ([epochKey]). *)
Inductive Key :=
| headerKey (n : Z) (h : Hash)
| bodyKey (n : Z) (h : Hash)
| tdKey (n : Z) (h : Hash)
| numberToHashKey (n : Z)
| hashToNumberKey (h : Hash)
| headsKey
| headHeaderKey
| headBlockKey
| epochKey (epoch : Z).

#[global] Instance Key_eq_dec : EqDecision Key.
Proof. solve_decision. Defined.

Definition Key_to_sum (k : Key)
    : (Z * Hash) + (Z * Hash) + (Z * Hash) + Z + Hash + nat + Z :=
  match k with
  | headerKey n h => inl (inl (inl (inl (inl (inl (n, h))))))
  | bodyKey n h => inl (inl (inl (inl (inl (inr (n, h))))))
  | tdKey n h => inl (inl (inl (inl (inr (n, h)))))
  | numberToHashKey n => inl (inl (inl (inr n)))
  | hashToNumberKey h => inl (inl (inr h))
  | headsKey => inl (inr 0%nat)
  | headHeaderKey => inl (inr 1%nat)
  | headBlockKey => inl (inr 2%nat)
  | epochKey e => inr e
  end.

Definition Key_of_sum (s : (Z * Hash) + (Z * Hash) + (Z * Hash) + Z + Hash + nat + Z)
    : Key :=
  match s with
  | inl (inl (inl (inl (inl (inl (n, h)))))) => headerKey n h
  | inl (inl (inl (inl (inl (inr (n, h)))))) => bodyKey n h
  | inl (inl (inl (inl (inr (n, h))))) => tdKey n h
  | inl (inl (inl (inr n))) => numberToHashKey n
  | inl (inl (inr h)) => hashToNumberKey h
  | inl (inr 0%nat) => headsKey
  | inl (inr 1%nat) => headHeaderKey
  | inl (inr _) => headBlockKey
  | inr e => epochKey e
  end.

#[global] Instance Key_countable : Countable Key.
Proof.
  refine (inj_countable' Key_to_sum Key_of_sum _).
  intros []; reflexivity.
Defined.

(** The values, decoded: the encodings (RLP, JSON) are outside this file.
    [VEpoch] is the cache of an epoch as the verifier stores it, opaque
    here. *)
Inductive Value :=
| VHeader (hd : Header)
| VBody (txs : list Z) (uncles : list Header)
| VTd (td : Z)
| VHash (h : Hash)
| VNumber (n : Z)
| VHeads (hs : gmap string Hash)
| VHead (h : option Hash)
| VEpoch (data : Z).

(** One operation of a batch ([type: 'put'] or [type: 'del']). *)
Inductive Op :=
| OpPut (k : Key) (v : Value)
| OpDel (k : Key).

(** ** The write caches

    Modelled from the spec: the cache class of [dbManager.ts] is missing.
    A cache is a bounded mapping with LRU eviction: the list holds the
    entries from the most recently written to the least, [set] puts the
    entry in front and drops what exceeds the capacity, [del] removes the
    key, and a read consults the list without changing it. *)
Abbreviation Lru := (list (Key * Value)).

Definition key_is (k : Key) (p : Key * Value) : bool := bool_decide (p.1 = k).

Definition lru_del (k : Key) (c : Lru) : Lru :=
  List.filter (fun p => negb (key_is k p)) c.

Definition lru_set (max : nat) (k : Key) (v : Value) (c : Lru) : Lru :=
  take max ((k, v) :: lru_del k c).

Fixpoint lru_get (k : Key) (c : Lru) : option Value :=
  match c with
  | [] => None
  | p :: c' => if key_is k p then Some p.2 else lru_get k c'
  end.

(** [dbManager._cache]: one cache per key family. *)
Record Cache := mkCache {
  c_td : Lru;
  c_header : Lru;
  c_body : Lru;
  c_numberToHash : Lru;
  c_hashToNumber : Lru
}.

Inductive Family := FTd | FHeader | FBody | FNumberToHash | FHashToNumber.

#[global] Instance Family_eq_dec : EqDecision Family.
Proof. solve_decision. Defined.

Definition cache_of (f : Family) (c : Cache) : Lru :=
  match f with
  | FTd => c_td c
  | FHeader => c_header c
  | FBody => c_body c
  | FNumberToHash => c_numberToHash c
  | FHashToNumber => c_hashToNumber c
  end.

Definition cache_with (f : Family) (l : Lru) (c : Cache) : Cache :=
  match f with
  | FTd => mkCache l (c_header c) (c_body c) (c_numberToHash c) (c_hashToNumber c)
  | FHeader => mkCache (c_td c) l (c_body c) (c_numberToHash c) (c_hashToNumber c)
  | FBody => mkCache (c_td c) (c_header c) l (c_numberToHash c) (c_hashToNumber c)
  | FNumberToHash => mkCache (c_td c) (c_header c) (c_body c) l (c_hashToNumber c)
  | FHashToNumber => mkCache (c_td c) (c_header c) (c_body c) (c_numberToHash c) l
  end.

(** The family of a key; the three fixed keys and the keys of the
    verifier are not cached. *)
Definition family (k : Key) : option Family :=
  match k with
  | tdKey _ _ => Some FTd
  | headerKey _ _ => Some FHeader
  | bodyKey _ _ => Some FBody
  | numberToHashKey _ => Some FNumberToHash
  | hashToNumberKey _ => Some FHashToNumber
  | _ => None
  end.

(** ** The state of a [Blockchain] object *)
Record Blockchain := mkBlockchain {
  db : gmap Key Value;
  cache : Cache;
  cacheMax : nat;
  _heads : gmap string Hash;
  _genesis : option Hash;
  _headHeader : option Hash;
  _headBlock : option Hash;
  _staleHeads : option (list string);
  _staleHeadBlock : bool
}.

Definition with_cache (c : Cache) (bc : Blockchain) : Blockchain :=
  mkBlockchain (db bc) c (cacheMax bc) (_heads bc) (_genesis bc) (_headHeader bc)
    (_headBlock bc) (_staleHeads bc) (_staleHeadBlock bc).

Definition with_db (d : gmap Key Value) (bc : Blockchain) : Blockchain :=
  mkBlockchain d (cache bc) (cacheMax bc) (_heads bc) (_genesis bc) (_headHeader bc)
    (_headBlock bc) (_staleHeads bc) (_staleHeadBlock bc).

Definition with_heads (hs : gmap string Hash) (bc : Blockchain) : Blockchain :=
  mkBlockchain (db bc) (cache bc) (cacheMax bc) hs (_genesis bc) (_headHeader bc)
    (_headBlock bc) (_staleHeads bc) (_staleHeadBlock bc).

Definition with_genesis (g : option Hash) (bc : Blockchain) : Blockchain :=
  mkBlockchain (db bc) (cache bc) (cacheMax bc) (_heads bc) g (_headHeader bc)
    (_headBlock bc) (_staleHeads bc) (_staleHeadBlock bc).

Definition with_headHeader (h : option Hash) (bc : Blockchain) : Blockchain :=
  mkBlockchain (db bc) (cache bc) (cacheMax bc) (_heads bc) (_genesis bc) h
    (_headBlock bc) (_staleHeads bc) (_staleHeadBlock bc).

Definition with_headBlock (h : option Hash) (bc : Blockchain) : Blockchain :=
  mkBlockchain (db bc) (cache bc) (cacheMax bc) (_heads bc) (_genesis bc) (_headHeader bc)
    h (_staleHeads bc) (_staleHeadBlock bc).

Definition with_staleHeads (s : option (list string)) (bc : Blockchain) : Blockchain :=
  mkBlockchain (db bc) (cache bc) (cacheMax bc) (_heads bc) (_genesis bc) (_headHeader bc)
    (_headBlock bc) s (_staleHeadBlock bc).

Definition with_staleHeadBlock (b : bool) (bc : Blockchain) : Blockchain :=
  mkBlockchain (db bc) (cache bc) (cacheMax bc) (_heads bc) (_genesis bc) (_headHeader bc)
    (_headBlock bc) (_staleHeads bc) b.

(** [dbManager._cache.<family>.set(key, value)] and [.del(key)]. *)
Definition cache_set (k : Key) (v : Value) (bc : Blockchain) : Blockchain :=
  match family k with
  | Some f => with_cache (cache_with f (lru_set (cacheMax bc) k v (cache_of f (cache bc))) (cache bc)) bc
  | None => bc
  end.

Definition cache_del (k : Key) (bc : Blockchain) : Blockchain :=
  match family k with
  | Some f => with_cache (cache_with f (lru_del k (cache_of f (cache bc))) (cache bc)) bc
  | None => bc
  end.

(** ** Errors and results *)
Inductive Error :=
| ChainMismatch
| AlreadyHaveGenesis
| InvalidBlock
| InvalidPOW
| NotFoundError
| BodyMissing
| NoHeadFound
| TypeError
| CallbackError.

#[global] Instance Error_eq_dec : EqDecision Error.
Proof. solve_decision. Defined.

(** The outcome of an operation on the object: [cb(null, a)] with the
    state it leaves, [cb(err)] with the state it leaves (the fields and the
    caches written before the failure stay written), or the bound on the
    number of calls was too small. *)
Inductive Res (A : Type) :=
| Ok (a : A) (bc : Blockchain)
| Err (e : Error) (bc : Blockchain)
| OutOfFuel.
Arguments Ok {A} a bc.
Arguments Err {A} e bc.
Arguments OutOfFuel {A}.

(** ** DBManager

    Modelled from the spec: [dbManager.ts] is missing.  A read consults
    the cache of the key's family and falls through to the store on a
    miss; [batch] writes a sequence of operations to the store. *)
Definition cache_get (k : Key) (bc : Blockchain) : option Value :=
  match family k with
  | Some f => lru_get k (cache_of f (cache bc))
  | None => None
  end.

Definition db_get (k : Key) (bc : Blockchain) : option Value :=
  match cache_get k bc with
  | Some v => Some v
  | None => db bc !! k
  end.

Definition apply_op (d : gmap Key Value) (o : Op) : gmap Key Value :=
  match o with
  | OpPut k v => <[k := v]> d
  | OpDel k => delete k d
  end.

Definition batch (ops : list Op) (d : gmap Key Value) : gmap Key Value :=
  foldl apply_op d ops.

Definition dbm_hashToNumber (h : Hash) (bc : Blockchain) : option Z :=
  match db_get (hashToNumberKey h) bc with
  | Some (VNumber n) => Some n
  | _ => None
  end.

Definition dbm_numberToHash (n : Z) (bc : Blockchain) : option Hash :=
  match db_get (numberToHashKey n) bc with
  | Some (VHash h) => Some h
  | _ => None
  end.

Definition dbm_getHeader (h : Hash) (n : Z) (bc : Blockchain) : option Header :=
  match db_get (headerKey n h) bc with
  | Some (VHeader hd) => Some hd
  | _ => None
  end.

Definition dbm_getTd (h : Hash) (n : Z) (bc : Blockchain) : option Z :=
  match db_get (tdKey n h) bc with
  | Some (VTd t) => Some t
  | _ => None
  end.

Definition dbm_getBody (h : Hash) (n : Z) (bc : Blockchain) : option (list Z * list Header) :=
  match db_get (bodyKey n h) bc with
  | Some (VBody txs us) => Some (txs, us)
  | _ => None
  end.

(** A block tag is a hash or a number. *)
Inductive Tag :=
| TagHash (h : Hash)
| TagNumber (n : Z).

(** [getBlock(tag)]: resolve the other half of the pair, then compose the
    header and the body; a missing body is an error unless the block is the
    genesis block. *)
Definition dbm_getBlock (t : Tag) (bc : Blockchain) : Error + Block :=
  let resolved :=
    match t with
    | TagHash h => match dbm_hashToNumber h bc with Some n => Some (h, n) | None => None end
    | TagNumber n => match dbm_numberToHash n bc with Some h => Some (h, n) | None => None end
    end in
  match resolved with
  | None => inl NotFoundError
  | Some (h, n) =>
      match dbm_getHeader h n bc with
      | None => inl NotFoundError
      | Some hd =>
          match dbm_getBody h n bc with
          | Some (txs, us) => inr (mkBlock hd txs us)
          | None => if n =? 0 then inr (mkBlock hd [] []) else inl BodyMissing
          end
      end
  end.

(** ** Lookups of [index.ts] *)

(** [_lookupByHashNumber]: when the number is omitted it is resolved
    through [hashToNumber]. *)
Definition _lookupByHashNumber (h : Hash) (n : option Z) (bc : Blockchain) : option Z :=
  match n with
  | Some n => Some n
  | None => dbm_hashToNumber h bc
  end.

Definition _getHeader (h : Hash) (n : option Z) (bc : Blockchain) : option Header :=
  match _lookupByHashNumber h n bc with
  | Some n => dbm_getHeader h n bc
  | None => None
  end.

Definition _getTd (h : Hash) (n : option Z) (bc : Blockchain) : option Z :=
  match _lookupByHashNumber h n bc with
  | Some n => dbm_getTd h n bc
  | None => None
  end.

Definition _getCanonicalHeader (n : Z) (bc : Blockchain) : option Header :=
  match dbm_numberToHash n bc with
  | Some h => _getHeader h (Some n) bc
  | None => None
  end.

(** [_saveHeadOps]. *)
Definition _saveHeadOps (bc : Blockchain) : list Op :=
  [ OpPut headsKey (VHeads (_heads bc));
    OpPut headHeaderKey (VHead (_headHeader bc));
    OpPut headBlockKey (VHead (_headBlock bc)) ].

(** [_batchDbOps]. *)
Definition _batchDbOps (ops : list Op) (bc : Blockchain) : Blockchain :=
  with_db (batch ops (db bc)) bc.

(** ** The put path *)

(** The loop over [Object.keys(this._heads)] of [_deleteStaleAssignments]:
    every head equal to the stale hash becomes [headHash]. *)
Definition reset_heads (stale headHash : Hash) (hs : gmap string Hash) : gmap string Hash :=
  (fun v => if decide (v = stale) then headHash else v) <$> hs.

(** [_deleteStaleAssignments]; [this._headBlock.equals] on a null head
    block throws. *)
Fixpoint _deleteStaleAssignments (fuel : nat) (num : Z) (headHash : Hash)
    (ops : list Op) (bc : Blockchain) : Res (list Op) :=
  match fuel with
  | O => OutOfFuel
  | S fuel' =>
      match dbm_numberToHash num bc with
      | None => Ok ops bc
      | Some stale =>
          let ops := ops ++ [OpDel (numberToHashKey num)] in
          let bc := cache_del (numberToHashKey num) bc in
          let bc := with_heads (reset_heads stale headHash (_heads bc)) bc in
          match _headBlock bc with
          | None => Err TypeError bc
          | Some hb =>
              let bc := if decide (hb = stale) then with_headBlock (Some headHash) bc else bc in
              _deleteStaleAssignments fuel' (num + 1) headHash ops bc
          end
      end
  end.

(** [saveLookups] of [_rebuildCanonical]. *)
Definition saveLookups (h : Hash) (num : Z) (ops : list Op) (bc : Blockchain)
    : list Op * Blockchain :=
  let ops := ops ++ [OpPut (numberToHashKey num) (VHash h)] in
  let bc := cache_set (numberToHashKey num) (VHash h) bc in
  let ops := ops ++ [OpPut (hashToNumberKey h) (VNumber num)] in
  let bc := cache_set (hashToNumberKey h) (VNumber num) bc in
  (ops, bc).

(** The names of the heads that point at the stale hash. *)
Definition stale_names (stale : Hash) (hs : gmap string Hash) : list string :=
  (List.filter (fun p => bool_decide (p.2 = stale)) (map_to_list hs)).*1.

(** The flagging loop: [_staleHeads] is created only when a name is pushed. *)
Definition flag_stale_heads (stale : option Hash) (bc : Blockchain) : Blockchain :=
  match stale with
  | None => bc
  | Some s =>
      match stale_names s (_heads bc) with
      | [] => bc
      | names => with_staleHeads (Some (default [] (_staleHeads bc) ++ names)) bc
      end
  end.

(** The loop over [_staleHeads] of the final branch. *)
Definition set_heads (names : list string) (h : Hash) (hs : gmap string Hash)
    : gmap string Hash :=
  foldl (fun m name => <[name := h]> m) hs names.

(** The final branch of [_rebuildCanonical]: the stale heads and the stale
    head block are set to the hash the walk stopped at, and the flags are
    deleted. *)
Definition reset_stale (h : Hash) (bc : Blockchain) : Blockchain :=
  let bc := with_heads (set_heads (default [] (_staleHeads bc)) h (_heads bc)) bc in
  let bc := with_staleHeads None bc in
  if _staleHeadBlock bc
  then with_staleHeadBlock false (with_headBlock (Some h) bc)
  else bc.

(** The flagging of the head block; [this._headBlock.equals] on a null head
    block throws. *)
Definition flag_stale_headBlock (stale : option Hash) (bc : Blockchain)
    : option Blockchain :=
  match stale with
  | None => Some bc
  | Some s =>
      match _headBlock bc with
      | None => None
      | Some hb => Some (if decide (hb = s) then with_staleHeadBlock true bc else bc)
      end
  end.

(** [_rebuildCanonical]. *)
Fixpoint _rebuildCanonical (fuel : nat) (hd : Header) (ops : list Op)
    (bc : Blockchain) : Res (list Op) :=
  match fuel with
  | O => OutOfFuel
  | S fuel' =>
      let h := hash hd in
      let num := number hd in
      if num =? 0 then
        let '(ops, bc) := saveLookups h num ops bc in Ok ops bc
      else
        let staleHash := dbm_numberToHash num bc in
        if bool_decide (staleHash = Some h) then Ok ops (reset_stale h bc)
        else
          let '(ops, bc) := saveLookups h num ops bc in
          let bc := flag_stale_heads staleHash bc in
          match flag_stale_headBlock staleHash bc with
          | None => Err TypeError bc
          | Some bc =>
              match _getHeader (parentHash hd) (Some (num - 1)) bc with
              | None => Err NotFoundError (with_staleHeads None bc)
              | Some parent => _rebuildCanonical fuel' parent ops bc
              end
          end
  end.

(** The configuration of the object and its two external collaborators.
    [block.validate] reads the chain through the object.
    [ethash.verifyPOW] belongs to the [Ethash] object that the constructor
    builds over the same store ([new Ethash(this.db)]): it tells whether the
    proof of work of the block is valid and, on the way, it may store the
    cache of epochs; it is given the store and returns its verdict with the
    epoch entries it writes (epoch, cache). *)
Record Config := mkConfig {
  chainId : Z;
  validate : bool;
  block_validate : Blockchain -> Block -> bool;
  ethash_verifyPOW : gmap Key Value -> Block -> bool * list (Z * Z)
}.

(** The writes of the verifier: straight to the store, outside every
    batch and every cache of the DBManager. *)
Definition ethash_writes (epochs : list (Z * Z)) (d : gmap Key Value) : gmap Key Value :=
  foldl (fun d w => <[epochKey w.1 := VEpoch w.2]> d) d epochs.

Definition item_block (item : Item) : Block :=
  match item with
  | ItemBlock _ b => b
  | ItemHeader _ hd => mkBlock hd [] []
  end.

Definition item_chain (item : Item) : Z :=
  match item with
  | ItemBlock c _ => c
  | ItemHeader c _ => c
  end.

Definition item_isHeader (item : Item) : bool :=
  match item with
  | ItemBlock _ _ => false
  | ItemHeader _ _ => true
  end.

(** [block.isGenesis()]: the number is zero. *)
Definition block_isGenesis (b : Block) : bool := number (header b) =? 0.

(** The tasks of [_putBlockOrHeader], in the order of [async.series]. *)
Definition verify (cfg : Config) (isGenesis : bool) (block : Block) (bc : Blockchain)
    : option Error :=
  if negb (validate cfg) then None
  else if negb isGenesis && block_isGenesis block then Some AlreadyHaveGenesis
  else if block_validate cfg bc block then None else Some InvalidBlock.

(** [verifyPOW]: the error, if any, and the object with what the verifier
    wrote to the store. *)
Definition verifyPOW (cfg : Config) (block : Block) (bc : Blockchain)
    : option Error * Blockchain :=
  if negb (validate cfg) then (None, bc)
  else
    let '(valid, epochs) := ethash_verifyPOW cfg (db bc) block in
    (if valid then None else Some InvalidPOW,
     with_db (ethash_writes epochs (db bc)) bc).

Definition getCurrentTd (isGenesis : bool) (bc : Blockchain) : option (Z * Z) :=
  if isGenesis then Some (0, 0)
  else
    match _headHeader bc, _headBlock bc with
    | Some hh, Some hb =>
        match _getTd hh None bc, _getTd hb None bc with
        | Some th, Some tb => Some (th, tb)
        | _, _ => None
        end
    | _, _ => None
    end.

Definition getBlockTd (isGenesis : bool) (hd : Header) (bc : Blockchain) : option Z :=
  if isGenesis then Some (difficulty hd)
  else
    match _getTd (parentHash hd) (Some (number hd - 1)) bc with
    | Some parentTd => Some (difficulty hd + parentTd)
    | None => None
    end.

Definition has_body (isGenesis : bool) (block : Block) : bool :=
  isGenesis || negb (bool_decide (transactions block = []))
            || negb (bool_decide (uncleHeaders block = [])).

(** The first half of [rebuildInfo]: the total difficulty, the header and
    the body go to the batch and to the caches. *)
Definition save_block (isGenesis : bool) (block : Block) (td : Z) (bc : Blockchain)
    : list Op * Blockchain :=
  let hd := header block in
  let h := hash hd in
  let num := number hd in
  let ops := [OpPut (tdKey num h) (VTd td)] in
  let bc := cache_set (tdKey num h) (VTd td) bc in
  let ops := ops ++ [OpPut (headerKey num h) (VHeader hd)] in
  let bc := cache_set (headerKey num h) (VHeader hd) bc in
  if has_body isGenesis block then
    let v := VBody (transactions block) (uncleHeaders block) in
    (ops ++ [OpPut (bodyKey num h) v], cache_set (bodyKey num h) v bc)
  else (ops, bc).

(** The test of [rebuildInfo] that makes the item the canonical head. *)
Definition winsHeader (block : Block) (td currentTdHeader : Z) : bool :=
  block_isGenesis block || (td >? currentTdHeader).

(** [rebuildInfo].  The two tasks of its [async.parallel] work on
    different numbers (above the item's number and from it downwards) and
    run here one after the other. *)
Definition rebuildInfo (fuel : nat) (isGenesis isHeader : bool) (block : Block)
    (td : Z) (currentTd : Z * Z) (bc : Blockchain) : Res (list Op) :=
  let hd := header block in
  let h := hash hd in
  let num := number hd in
  let '(ops, bc) := save_block isGenesis block td bc in
  if winsHeader block td currentTd.1 then
    let bc := with_headHeader (Some h) bc in
    let bc := if isHeader then bc else with_headBlock (Some h) bc in
    let bc := if block_isGenesis block then with_genesis (Some h) bc else bc in
    match _deleteStaleAssignments fuel (num + 1) h ops bc with
    | Ok ops bc => _rebuildCanonical fuel hd ops bc
    | other => other
    end
  else
    let bc := if (td >? currentTd.2) && negb isHeader
              then with_headBlock (Some h) bc else bc in
    let ops := ops ++ [OpPut (hashToNumberKey h) (VNumber num)] in
    let bc := cache_set (hashToNumberKey h) (VNumber num) bc in
    Ok ops bc.

(** The tasks of [_putBlockOrHeader] after the two verifications:
    [getCurrentTd], [getBlockTd], [rebuildInfo] and the commit of the batch
    with the heads. *)
Definition put_tasks (fuel : nat) (isGenesis isHeader : bool) (block : Block)
    (bc : Blockchain) : Res unit :=
  match getCurrentTd isGenesis bc with
  | None => Err NotFoundError bc
  | Some currentTd =>
      match getBlockTd isGenesis (header block) bc with
      | None => Err NotFoundError bc
      | Some td =>
          match rebuildInfo fuel isGenesis isHeader block td currentTd bc with
          | Ok ops bc => Ok tt (_batchDbOps (ops ++ _saveHeadOps bc) bc)
          | Err e bc => Err e bc
          | OutOfFuel => OutOfFuel
          end
      end
  end.

(** [_putBlockOrHeader]. *)
Definition _putBlockOrHeader (fuel : nat) (cfg : Config) (item : Item)
    (isGenesis : bool) (bc : Blockchain) : Res unit :=
  let isHeader := item_isHeader item in
  let block := item_block item in
  if negb (item_chain item =? chainId cfg) then Err ChainMismatch bc
  else
    match verify cfg isGenesis block bc with
    | Some e => Err e bc
    | None =>
        let '(e, bc) := verifyPOW cfg block bc in
        match e with
        | Some e => Err e bc
        | None => put_tasks fuel isGenesis isHeader block bc
        end
    end.

(** [putBlock], [putHeader] and [putGenesis], once the initialisation is
    done and the semaphore is taken. *)
Definition putBlock (fuel : nat) (cfg : Config) (chain : Z) (b : Block)
    (isGenesis : bool) (bc : Blockchain) : Res unit :=
  _putBlockOrHeader fuel cfg (ItemBlock chain b) isGenesis bc.

Definition putHeader (fuel : nat) (cfg : Config) (chain : Z) (hd : Header)
    (bc : Blockchain) : Res unit :=
  _putBlockOrHeader fuel cfg (ItemHeader chain hd) false bc.

Definition putGenesis (fuel : nat) (cfg : Config) (chain : Z) (b : Block)
    (bc : Blockchain) : Res unit :=
  putBlock fuel cfg chain b true bc.

(** ** Construction and initialisation *)

Definition empty_cache : Cache := mkCache [] [] [] [] [].

(** The fields as the constructor leaves them, over a given store. *)
Definition new_Blockchain (d : gmap Key Value) (max : nat) : Blockchain :=
  mkBlockchain d empty_cache max ∅ None None None None false.

(** [getHeads] of [_init]: the three head records, each with its fallback. *)
Definition load_heads (genesisHash : Hash) (bc : Blockchain) : Blockchain :=
  let bc := with_genesis (Some genesisHash) bc in
  let bc := with_heads (match db_get headsKey bc with
                        | Some (VHeads hs) => hs
                        | _ => ∅
                        end) bc in
  let bc := with_headHeader (match db_get headHeaderKey bc with
                             | Some (VHead (Some h)) => Some h
                             | _ => Some genesisHash
                             end) bc in
  with_headBlock (match db_get headBlockKey bc with
                  | Some (VHead (Some h)) => Some h
                  | _ => Some genesisHash
                  end) bc.

(** [_init]; the genesis block of the chain is built outside this file. *)
Definition _init (fuel : nat) (cfg : Config) (genesisBlock : Block)
    (bc : Blockchain) : Res unit :=
  match dbm_numberToHash 0 bc with
  | Some g => Ok tt (load_heads g bc)
  | None =>
      match _putBlockOrHeader fuel cfg (ItemBlock (chainId cfg) genesisBlock) true bc with
      | Ok _ bc =>
          Ok tt (with_headBlock (_genesis bc)
                  (with_headHeader (_genesis bc) (with_heads ∅ bc)))
      | other => other
      end
  end.

(** ** The delete path *)

Definition del_keys (h : Hash) (num : Z) : list Key :=
  [headerKey num h; bodyKey num h; hashToNumberKey h; tdKey num h].

(** [_delChild]; [hash.equals] of a null head throws. *)
Fixpoint _delChild (fuel : nat) (h : Hash) (num : Z) (headHash : option Hash)
    (ops : list Op) (bc : Blockchain) : Res (list Op) :=
  match fuel with
  | O => OutOfFuel
  | S fuel' =>
      let ops := ops ++ map OpDel (del_keys h num) in
      let bc := foldl (fun b k => cache_del k b) bc (del_keys h num) in
      match headHash with
      | None => Ok ops bc
      | Some hh =>
          match _headHeader bc, _headBlock bc with
          | Some cur, Some curb =>
              let bc := if decide (h = cur) then with_headHeader (Some hh) bc else bc in
              let bc := if decide (h = curb) then with_headBlock (Some hh) bc else bc in
              match _getCanonicalHeader (num + 1) bc with
              | None => Ok ops bc
              | Some child => _delChild fuel' (hash child) (number child) headHash ops bc
              end
          | None, _ => Err TypeError bc
          | Some cur, None =>
              Err TypeError (if decide (h = cur) then with_headHeader (Some hh) bc else bc)
          end
      end
  end.

(** [_delBlock]. *)
Definition _delBlock (fuel : nat) (blockHash : Hash) (bc : Blockchain) : Res unit :=
  match _getHeader blockHash None bc with
  | None => Err NotFoundError bc
  | Some blockHeader =>
      let blockNumber := number blockHeader in
      let parent := parentHash blockHeader in
      let inCanonical := bool_decide (dbm_numberToHash blockNumber bc = Some blockHash) in
      match _delChild fuel blockHash blockNumber
              (if inCanonical then Some parent else None) [] bc with
      | Ok ops bc =>
          let r := if inCanonical
                   then _deleteStaleAssignments fuel blockNumber parent ops bc
                   else Ok ops bc in
          match r with
          | Ok ops bc => Ok tt (_batchDbOps ops bc)
          | Err e bc => Err e bc
          | OutOfFuel => OutOfFuel
          end
      | Err e bc => Err e bc
      | OutOfFuel => OutOfFuel
      end
  end.

Definition delBlock := _delBlock.

(** ** Heads and the iterator *)

(** [_heads] is a plain object: [this._heads[name]] finds the entries of
    the object itself and, for a name without entry, what every object
    inherits from [Object.prototype], which is neither a hash nor falsy. *)
Definition object_prototype_names : list string :=
  [ "constructor"; "__defineGetter__"; "__defineSetter__"; "hasOwnProperty";
    "__lookupGetter__"; "__lookupSetter__"; "isPrototypeOf";
    "propertyIsEnumerable"; "toString"; "valueOf"; "__proto__";
    "toLocaleString" ]%string.

Inductive Member :=
| OwnHash (h : Hash)
| Inherited
| Absent.

Definition heads_member (name : string) (hs : gmap string Hash) : Member :=
  match hs !! name with
  | Some h => OwnHash h
  | None => if bool_decide (name ∈ object_prototype_names) then Inherited else Absent
  end.

(** [getHead(name)].  Modelled from the spec: [getBlock] takes a hash or a
    number ([dbManager.ts] is missing); given an inherited member, which is
    neither, it fails, and not with 'No head found.'. *)
Definition getHead (name : string) (bc : Blockchain) : Error + Block :=
  match heads_member name (_heads bc) with
  | OwnHash h => dbm_getBlock (TagHash h) bc
  | Inherited => inl TypeError
  | Absent =>
      match _headBlock bc with
      | None => inl NoHeadFound
      | Some h => dbm_getBlock (TagHash h) bc
      end
  end.

Definition getLatestBlock (bc : Blockchain) : Error + Block :=
  match _headBlock bc with
  | Some h => dbm_getBlock (TagHash h) bc
  | None => inl NotFoundError
  end.

Definition getLatestHeader (bc : Blockchain) : Error + Header :=
  match _headHeader bc with
  | Some h => match dbm_getBlock (TagHash h) bc with
              | inr b => inr (header b)
              | inl e => inl e
              end
  | None => inl NotFoundError
  end.

(** The flag [runFunc] hands to the callback. *)
Definition reorg_flag (lastBlock : option Block) (block : Block) : bool :=
  match lastBlock with
  | Some lb => bool_decide (hash (header lb) = parentHash (header block))
  | None => false
  end.

(** The end of a round of [run]: an error whose type is [NotFoundError],
    from [getBlock] or from the callback alike, ends the loop without
    error and the heads are saved; any other error is handed on. *)
Definition run_error (e : Error) (bc : Blockchain) : Res unit :=
  if decide (e = NotFoundError)
  then Ok tt (_batchDbOps (_saveHeadOps bc) bc)
  else Err e bc.

(** The loop of [_iterator]: [func block reorg] is the user's callback,
    [None] when it calls back without error and [Some e] when it calls back
    with the error [e].  The result lists the calls of the callback in
    order, with the outcome of the iterator. *)
Fixpoint iterator_run (fuel : nat) (name : string)
    (func : Block -> bool -> option Error)
    (blockNumber : Z) (lastBlock : option Block) (bc : Blockchain)
    : list (Block * bool) * Res unit :=
  match fuel with
  | O => ([], OutOfFuel)
  | S fuel' =>
      match dbm_getBlock (TagNumber blockNumber) bc with
      | inl e => ([], run_error e bc)
      | inr block =>
          let bc := with_heads (<[name := hash (header block)]> (_heads bc)) bc in
          let reorg := reorg_flag lastBlock block in
          match func block reorg with
          | None =>
              let '(calls, r) :=
                iterator_run fuel' name func (blockNumber + 1) (Some block) bc in
              ((block, reorg) :: calls, r)
          | Some e => ([(block, reorg)], run_error e bc)
          end
      end
  end.

(** [_iterator].  Modelled from the spec: [hashToNumber] takes a hash
    ([dbManager.ts] is missing); given an inherited member it fails, with
    an error that is not of type [NotFoundError]. *)
Definition _iterator (fuel : nat) (name : string)
    (func : Block -> bool -> option Error)
    (bc : Blockchain) : list (Block * bool) * Res unit :=
  let blockHash := match heads_member name (_heads bc) with
                   | OwnHash h => inr (Some h)
                   | Inherited => inl TypeError
                   | Absent => inr (_genesis bc)
                   end in
  match blockHash with
  | inl e => ([], Err e bc)
  | inr None => ([], Ok tt bc)
  | inr (Some h) =>
      match dbm_hashToNumber h bc with
      | None => ([], Err NotFoundError bc)
      | Some n => iterator_run fuel name func (n + 1) None bc
      end
  end.

Definition iterator := _iterator.

(** The helpers stay folded when a walk is unfolded. *)
#[global] Arguments saveLookups : simpl never.
#[global] Arguments cache_set : simpl never.
#[global] Arguments cache_del : simpl never.
#[global] Arguments flag_stale_heads : simpl never.
#[global] Arguments set_heads : simpl never.
#[global] Arguments reset_heads : simpl never.
#[global] Arguments save_block : simpl never.
#[global] Arguments reset_stale : simpl never.
#[global] Arguments flag_stale_headBlock : simpl never.
#[global] Arguments hash : simpl never.

(** ** Vocabulary of the properties *)

(** The fields outside the caches. *)
Definition same_fields (a b : Blockchain) : Prop :=
  db a = db b /\ cacheMax a = cacheMax b /\ _heads a = _heads b
  /\ _genesis a = _genesis b /\ _headHeader a = _headHeader b
  /\ _headBlock a = _headBlock b /\ _staleHeads a = _staleHeads b
  /\ _staleHeadBlock a = _staleHeadBlock b.

(** The keys of the families of [util.ts], as opposed to the keys of the
    verifier. *)
Definition chain_key (k : Key) : Prop := forall e, k <> epochKey e.

(** The object after the verifier wrote the given epoch entries. *)
Definition after_verifier (epochs : list (Z * Z)) (bc : Blockchain) : Blockchain :=
  with_db (ethash_writes epochs (db bc)) bc.

(** The key an operation of a batch writes. *)
Definition op_key (o : Op) : Key :=
  match o with
  | OpPut k _ => k
  | OpDel k => k
  end.

(** The operations on the two lookup families. *)
Definition index_op (o : Op) : Prop :=
  match op_key o with
  | numberToHashKey _ | hashToNumberKey _ => True
  | _ => False
  end.

(** The fields that only [rebuildInfo], [_delChild] and the commit of a
    batch write. *)
Definition same_store (a b : Blockchain) : Prop :=
  db a = db b /\ cacheMax a = cacheMax b /\ _genesis a = _genesis b
  /\ _headHeader a = _headHeader b.

(** The flags of a list of calls of the callback follow [reorg_flag]: each
    block is compared with the block yielded before it. *)
Fixpoint flags_follow (lastBlock : option Block) (calls : list (Block * bool)) : Prop :=
  match calls with
  | [] => True
  | (block, reorg) :: rest =>
      reorg = reorg_flag lastBlock block /\ flags_follow (Some block) rest
  end.

(** ** Sequences of puts and the invariant of the store *)

(** [putBlocks] and [putHeaders] ([async.eachSeries]): the items are put
    one after the other, and the first failure ends the series. *)
Fixpoint put_all (fuel : nat) (cfg : Config) (items : list Item) (bc : Blockchain)
    : option Blockchain :=
  match items with
  | [] => Some bc
  | item :: rest =>
      match _putBlockOrHeader fuel cfg item false bc with
      | Ok _ bc' => put_all fuel cfg rest bc'
      | _ => None
      end
  end.

(** Head consistency: the total difficulty found for [_headHeader] bounds
    the one found for every persisted header and the one of [_headBlock]. *)
Definition head_consistent (bc : Blockchain) : Prop :=
  exists hh hb th tb,
    _headHeader bc = Some hh /\ _headBlock bc = Some hb
    /\ _getTd hh None bc = Some th /\ _getTd hb None bc = Some tb
    /\ tb <= th
    /\ forall n h x, db bc !! headerKey n h = Some (VHeader x) ->
                     exists t, _getTd h None bc = Some t /\ t <= th.

(** The caches agree with the store. *)
Definition coherent (bc : Blockchain) : Prop :=
  forall k v, cache_get k bc = Some v -> db bc !! k = Some v.

(** The records of the store fit together: a header is stored under its own
    number and hash, with its hashToNumber entry and a total difficulty;
    total difficulties belong to stored headers and add up along the parent
    link; a canonical assignment names a stored header. *)
Record WfDb (d : gmap Key Value) : Prop := mkWfDb {
  wf_header : forall n h v, d !! headerKey n h = Some v ->
    exists x, v = VHeader x /\ hash x = h /\ number x = n
              /\ d !! hashToNumberKey h = Some (VNumber n)
              /\ exists t, d !! tdKey n h = Some (VTd t);
  wf_td : forall n h v, d !! tdKey n h = Some v -> is_Some (d !! headerKey n h);
  wf_sum : forall n h x, d !! headerKey n h = Some (VHeader x) -> n <> 0 ->
    exists tp, d !! tdKey (n - 1) (parentHash x) = Some (VTd tp)
               /\ d !! tdKey n h = Some (VTd (difficulty x + tp));
  wf_canonical : forall n v, d !! numberToHashKey n = Some v ->
    exists x, v = VHash (hash x) /\ d !! headerKey n (hash x) = Some (VHeader x)
}.

(** [T] is the total difficulty of [_headHeader], no stored total
    difficulty exceeds it, and [_headBlock] is a stored header. *)
Definition heads_ok (bc : Blockchain) (T : Z) : Prop :=
  (forall n h t, db bc !! tdKey n h = Some (VTd t) -> t <= T)
  /\ (exists hh nh, _headHeader bc = Some hh
                    /\ is_Some (db bc !! headerKey nh hh)
                    /\ db bc !! tdKey nh hh = Some (VTd T))
  /\ (exists hb nb, _headBlock bc = Some hb /\ is_Some (db bc !! headerKey nb hb)).

Definition Inv (bc : Blockchain) : Prop :=
  coherent bc /\ WfDb (db bc) /\ exists T, heads_ok bc T.

(** During a put of the header [hd] with total difficulty [t] over the
    store [d]: the headers the walk can meet, the operations it may append,
    and the caches following the batch. *)
Definition known (d : gmap Key Value) (hd x : Header) : Prop :=
  x = hd \/ d !! headerKey (number x) (hash x) = Some (VHeader x).

Definition good_op (d : gmap Key Value) (hd : Header) (t : Z) (o : Op) : Prop :=
  match o with
  | OpPut (tdKey n h) v => n = number hd /\ h = hash hd /\ v = VTd t
  | OpPut (headerKey n h) v => n = number hd /\ h = hash hd /\ v = VHeader hd
  | OpPut (bodyKey n h) v => True
  | OpPut (numberToHashKey n) v =>
      exists x, v = VHash (hash x) /\ number x = n /\ known d hd x
  | OpPut (hashToNumberKey h) v => exists x, h = hash x /\ v = VNumber (number x)
  | OpDel (numberToHashKey n) => True
  | _ => False
  end.

Definition lockstep (d : gmap Key Value) (ops : list Op) (bc : Blockchain) : Prop :=
  db bc = d /\ forall k v, cache_get k bc = Some v -> batch ops d !! k = Some v.

Definition is_n2h_del (o : Op) : Prop := exists n, o = OpDel (numberToHashKey n).

(** ** Concrete chains

    A genesis header, two siblings at number 1 and their children, used to
    run the operations above. *)
Module Scenario.

Definition cfg : Config := mkConfig 1 false (fun _ _ => true) (fun _ _ => (true, [])).

(** The same object with validation on, and a verifier that stores the
    cache of epoch 0 and refuses every block. *)
Definition cfg_strict : Config :=
  mkConfig 1 true (fun _ _ => true) (fun _ _ => (false, [(0, 1)])).

Definition G : Header := mkHeader 1 0 10 0.
Definition A1 : Header := mkHeader (hash G) 1 5 0.
Definition A2 : Header := mkHeader (hash A1) 2 5 0.
Definition B1 : Header := mkHeader (hash G) 1 7 0.
Definition C2 : Header := mkHeader (hash B1) 2 3 0.

(** A full block: one transaction, no uncles. *)
Definition full (hd : Header) : Block := mkBlock hd [1] [].

Definition state_of (r : Res unit) : Blockchain :=
  match r with
  | Ok _ bc => bc
  | Err _ bc => bc
  | OutOfFuel => new_Blockchain ∅ 0
  end.

Definition succeeded {A} (r : Res A) : bool :=
  match r with
  | Ok _ _ => true
  | _ => false
  end.

(** A fresh object over an empty store. *)
Definition fresh : Blockchain :=
  state_of (_init 8 cfg (mkBlock G [] []) (new_Blockchain ∅ 4)).

(** Linear growth: the blocks A1 and A2 on top of the genesis block. *)
Definition linear1 : Blockchain := state_of (putBlock 8 cfg 1 (full A1) false fresh).
Definition linear2 : Blockchain := state_of (putBlock 8 cfg 1 (full A2) false linear1).

(** The header B1 overtakes the block A1. *)
Definition header_first : Blockchain := state_of (putHeader 8 cfg 1 B1 linear1).

(** The block C2 on top of the header B1, put once and put twice. *)
Definition put_once : Blockchain := state_of (putBlock 8 cfg 1 (full C2) false header_first).
Definition put_twice : Blockchain := state_of (putBlock 8 cfg 1 (full C2) false put_once).

(** The iterator "vm" consumes the linear chain up to A2, then the block D2,
    a heavier child of A1, replaces A2. *)
Definition D2 : Header := mkHeader (hash A1) 2 9 0.

Definition iterated : Blockchain :=
  state_of (_iterator 8 "vm" (fun _ _ => None) linear2).2.


(** The genesis block put again on top of the chain genesis, A1. *)
Definition regenesis : Blockchain :=
  state_of (putGenesis 8 cfg 1 (mkBlock G [] []) linear1).

End Scenario.

(** ** Reading ranges of blocks *)

(** The loop [nextBlock] of [getBlocks].  [i] is the counter after its
    increment, [blocks] the blocks pushed so far.  A block that is not
    found ends the loop with the blocks gathered; another error is
    returned. *)
Fixpoint getBlocks_nextBlock (fuel : nat) (blockId : Tag) (maxBlocks skip : nat)
    (reverse : bool) (i : nat) (blocks : list Block) (bc : Blockchain)
    : Res (list Block) :=
  match fuel with
  | O => OutOfFuel
  | S fuel' =>
      match dbm_getBlock blockId bc with
      | inl e => if decide (e = NotFoundError) then Ok blocks bc else Err e bc
      | inr block =>
          let nextBlockNumber :=
            TagNumber (number (header block) + (if reverse then -1 else 1)) in
          if negb (i =? 0)%nat && negb (skip =? 0)%nat
             && negb (i mod (skip + 1) =? 0)%nat
          then getBlocks_nextBlock fuel' nextBlockNumber maxBlocks skip reverse
                 (S i) blocks bc
          else
            let blocks := blocks ++ [block] in
            if (length blocks =? maxBlocks)%nat then Ok blocks bc
            else getBlocks_nextBlock fuel' nextBlockNumber maxBlocks skip reverse
                   (S i) blocks bc
      end
  end.

(** [getBlocks]. *)
Definition getBlocks (fuel : nat) (blockId : Tag) (maxBlocks skip : nat)
    (reverse : bool) (bc : Blockchain) : Res (list Block) :=
  getBlocks_nextBlock fuel blockId maxBlocks skip reverse 0 [] bc.

(** ** Selecting the hashes that are not stored yet *)

(** [hashes[mid]]: undefined outside the array. *)
Definition hash_at (hashes : list Hash) (mid : Z) : option Hash :=
  if mid <? 0 then None else hashes !! Z.to_nat mid.

(** The test of [iterate]: [_hashToNumber] finds a number for the hash. *)
Definition hash_known (hashes : list Hash) (mid : Z) (bc : Blockchain) : bool :=
  match hash_at hashes mid with
  | Some h => bool_decide (is_Some (dbm_hashToNumber h bc))
  | None => false
  end.

(** The loop [async.whilst] of [selectNeededHashes]; it returns the final
    [min]. *)
Fixpoint selectNeededHashes_loop (fuel : nat) (hashes : list Hash) (min mid max : Z)
    (bc : Blockchain) : option Z :=
  match fuel with
  | O => None
  | S fuel' =>
      if max >=? min then
        let min' := if hash_known hashes mid bc then mid + 1 else min in
        let max' := if hash_known hashes mid bc then max else mid - 1 in
        selectNeededHashes_loop fuel' hashes min' ((min' + max') / 2) max' bc
      else Some min
  end.

(** [selectNeededHashes]: [max = hashes.length - 1], [mid = min = 0], and
    the result is [hashes.slice(min)]. *)
Definition selectNeededHashes (fuel : nat) (hashes : list Hash) (bc : Blockchain)
    : Res (list Hash) :=
  match selectNeededHashes_loop fuel hashes 0 0 (Z.of_nat (length hashes) - 1) bc with
  | Some min => Ok (drop (Z.to_nat min) hashes) bc
  | None => OutOfFuel
  end.

(** ** States reached from a fresh store *)

(** An object initialised over an empty store with a genesis block of
    number 0, after a series of successful puts of blocks and headers of
    number 1 or more. *)
Definition reachable (bc : Blockchain) : Prop :=
  exists fuel cfg g max items bc0,
    number (header g) = 0
    /\ _init fuel cfg g (new_Blockchain ∅ max) = Ok tt bc0
    /\ Forall (fun item => 1 <= number (header (item_block item))) items
    /\ put_all fuel cfg items bc0 = Some bc.

(** The blocks of a list follow each other at the distance [d] of their
    numbers, each after the first being the block [getBlock] finds at its
    number. *)
Definition spaced (d : Z) (bc : Blockchain) (blocks : list Block) : Prop :=
  forall j b1 b2, blocks !! j = Some b1 -> blocks !! S j = Some b2 ->
    number (header b2) = number (header b1) + d
    /\ dbm_getBlock (TagNumber (number (header b2))) bc = inr b2.

(** A block found by its number carries that number. *)
Definition numbers_match (bc : Blockchain) : Prop :=
  forall n b, dbm_getBlock (TagNumber n) bc = inr b -> number (header b) = n.

(** A deletion of a key of one of the five cached families. *)
Definition is_del (o : Op) : Prop := exists k, o = OpDel k /\ family k <> None.

(** A callback that accepts the block A1 only. *)
Definition only_A1 (b : Block) (reorg : bool) : option Error :=
  if bool_decide (b = Scenario.full Scenario.A1) then None else Some CallbackError.

(** A callback that reports the block A2 as not found. *)
Definition lost_A2 (b : Block) (reorg : bool) : option Error :=
  if bool_decide (b = Scenario.full Scenario.A2) then Some NotFoundError else None.

(** The linear chain genesis, A1, A2 after [delBlock] of A1. *)
Definition linear2_without_A1 : Blockchain :=
  Scenario.state_of (_delBlock 8 (hash Scenario.A1) Scenario.linear2).

(** ** The canonical chain *)

(** The numbers 0 to [top] are assigned and no other; each assignment
    names a stored header, whose parent is the assignment of the number
    below; [_headHeader] is the assignment of [top]. *)
Definition canonical_chain (bc : Blockchain) : Prop :=
  exists top hh,
    0 <= top /\ _headHeader bc = Some hh
    /\ db bc !! numberToHashKey top = Some (VHash hh)
    /\ (forall n, n < 0 \/ top < n -> db bc !! numberToHashKey n = None)
    /\ (forall n, 0 <= n <= top ->
          exists x, db bc !! numberToHashKey n = Some (VHash (hash x))
                    /\ db bc !! headerKey n (hash x) = Some (VHeader x)
                    /\ (1 <= n ->
                        db bc !! numberToHashKey (n - 1) = Some (VHash (parentHash x)))).

(** During a put over the store [d]: in the pending store [D] the number
    [j] is assigned to a header the walk knows, linked to the assignment
    below. *)
Definition linked (D d : gmap Key Value) (hd : Header) (j : Z) : Prop :=
  exists x, D !! numberToHashKey j = Some (VHash (hash x))
            /\ number x = j /\ known d hd x
            /\ (1 <= j -> D !! numberToHashKey (j - 1) = Some (VHash (parentHash x))).

(** The operations of a batch on canonical assignments are above [m]. *)
Definition assignments_above (m : Z) (ops : list Op) : Prop :=
  Forall (fun o => forall j, op_key o = numberToHashKey j -> m < j) ops.

(** The deletion of one of the four records of a block of number [n] or
    more. *)
Definition block_del_from (n : Z) (o : Op) : Prop :=
  exists h j k, n <= j /\ k ∈ del_keys h j /\ o = OpDel k.

(** The three head records of the store are the heads of the object. *)
Definition heads_saved (bc : Blockchain) : Prop :=
  db bc !! headsKey = Some (VHeads (_heads bc))
  /\ db bc !! headHeaderKey = Some (VHead (_headHeader bc))
  /\ db bc !! headBlockKey = Some (VHead (_headBlock bc)).

(** ** More concrete chains *)

(** A header of number 1 heavier than the whole chain genesis, A1, A2, and
    the chain after it was put. *)
Definition E1 : Header := mkHeader (hash Scenario.G) 1 20 0.

Definition shortened : Blockchain :=
  Scenario.state_of (putHeader 8 Scenario.cfg 1 E1 Scenario.linear2).

(** A sibling of A1 of the same difficulty, and the chain genesis, A1 after
    it was put. *)
Definition A1_twin : Header := mkHeader (hash Scenario.G) 1 5 1.

Definition tied : Blockchain :=
  Scenario.state_of (putHeader 8 Scenario.cfg 1 A1_twin Scenario.linear1).




(** * Properties *)

(** ** Hashes *)

(** A hash identifies its header. *)
Lemma hash_inj (a b : Header) : hash a = hash b -> a = b.
Proof.
  unfold hash. intros H. apply (inj encode) in H.
  destruct a, b. simpl in H. congruence.
Qed.

(** ** The writes of the verifier

    The verifier writes epoch entries only; no read of the DBManager, no
    cache and no field of the object sees them. *)

Lemma ethash_writes_lookup epochs d k :
  chain_key k -> ethash_writes epochs d !! k = d !! k.
Proof.
  intros Hk. unfold ethash_writes. revert d.
  induction epochs as [|w epochs IH]; intros d; [reflexivity|].
  simpl. rewrite IH. apply lookup_insert_ne. intros <-. exact (Hk _ eq_refl).
Qed.

Lemma family_chain_key k : family k <> None -> chain_key k.
Proof. intros Hf e ->. apply Hf. reflexivity. Qed.

Lemma with_db_same bc : with_db (db bc) bc = bc.
Proof. destruct bc. reflexivity. Qed.

Lemma after_verifier_nil bc : after_verifier [] bc = bc.
Proof. apply with_db_same. Qed.

Lemma after_verifier_db epochs bc k :
  chain_key k -> db (after_verifier epochs bc) !! k = db bc !! k.
Proof. apply ethash_writes_lookup. Qed.

Lemma after_verifier_fields epochs bc :
  cache (after_verifier epochs bc) = cache bc
  /\ cacheMax (after_verifier epochs bc) = cacheMax bc
  /\ _heads (after_verifier epochs bc) = _heads bc
  /\ _genesis (after_verifier epochs bc) = _genesis bc
  /\ _headHeader (after_verifier epochs bc) = _headHeader bc
  /\ _headBlock (after_verifier epochs bc) = _headBlock bc
  /\ _staleHeads (after_verifier epochs bc) = _staleHeads bc
  /\ _staleHeadBlock (after_verifier epochs bc) = _staleHeadBlock bc.
Proof. repeat split; reflexivity. Qed.

Lemma after_verifier_get epochs bc k :
  chain_key k -> db_get k (after_verifier epochs bc) = db_get k bc.
Proof.
  intros Hk. unfold db_get.
  change (cache_get k (after_verifier epochs bc)) with (cache_get k bc).
  rewrite after_verifier_db by assumption. reflexivity.
Qed.

Lemma after_verifier_hashToNumber epochs bc h :
  dbm_hashToNumber h (after_verifier epochs bc) = dbm_hashToNumber h bc.
Proof. unfold dbm_hashToNumber. rewrite after_verifier_get; [reflexivity|discriminate]. Qed.

Lemma after_verifier_numberToHash epochs bc n :
  dbm_numberToHash n (after_verifier epochs bc) = dbm_numberToHash n bc.
Proof. unfold dbm_numberToHash. rewrite after_verifier_get; [reflexivity|discriminate]. Qed.

Lemma after_verifier_getHeader epochs bc h n :
  dbm_getHeader h n (after_verifier epochs bc) = dbm_getHeader h n bc.
Proof. unfold dbm_getHeader. rewrite after_verifier_get; [reflexivity|discriminate]. Qed.

Lemma after_verifier_getTd epochs bc h n :
  dbm_getTd h n (after_verifier epochs bc) = dbm_getTd h n bc.
Proof. unfold dbm_getTd. rewrite after_verifier_get; [reflexivity|discriminate]. Qed.

Lemma after_verifier__getTd epochs bc h n :
  _getTd h n (after_verifier epochs bc) = _getTd h n bc.
Proof.
  unfold _getTd, _lookupByHashNumber. destruct n as [n|].
  - apply after_verifier_getTd.
  - rewrite after_verifier_hashToNumber.
    destruct (dbm_hashToNumber h bc); [apply after_verifier_getTd|reflexivity].
Qed.

Lemma after_verifier__getHeader epochs bc h n :
  _getHeader h n (after_verifier epochs bc) = _getHeader h n bc.
Proof.
  unfold _getHeader, _lookupByHashNumber. destruct n as [n|].
  - apply after_verifier_getHeader.
  - rewrite after_verifier_hashToNumber.
    destruct (dbm_hashToNumber h bc); [apply after_verifier_getHeader|reflexivity].
Qed.

Lemma after_verifier_getCurrentTd epochs bc isGenesis :
  getCurrentTd isGenesis (after_verifier epochs bc) = getCurrentTd isGenesis bc.
Proof.
  unfold getCurrentTd.
  change (_headHeader (after_verifier epochs bc)) with (_headHeader bc).
  change (_headBlock (after_verifier epochs bc)) with (_headBlock bc).
  destruct isGenesis; [reflexivity|].
  destruct (_headHeader bc); [|reflexivity]. destruct (_headBlock bc); [|reflexivity].
  rewrite !after_verifier__getTd. reflexivity.
Qed.

Lemma after_verifier_getBlockTd epochs bc isGenesis hd :
  getBlockTd isGenesis hd (after_verifier epochs bc) = getBlockTd isGenesis hd bc.
Proof. unfold getBlockTd. rewrite after_verifier__getTd. reflexivity. Qed.

Lemma coherent_after_verifier epochs bc :
  coherent bc -> coherent (after_verifier epochs bc).
Proof.
  intros Hc k v Hg. change (cache_get k bc = Some v) in Hg.
  rewrite after_verifier_db; [apply Hc; assumption|].
  apply family_chain_key. unfold cache_get in Hg. destruct (family k); discriminate.
Qed.

Lemma WfDb_after_verifier epochs d : WfDb d -> WfDb (ethash_writes epochs d).
Proof.
  intros Hwf.
  assert (E : forall k, chain_key k -> ethash_writes epochs d !! k = d !! k)
    by (intros k; apply ethash_writes_lookup).
  constructor.
  - intros n h v. rewrite (E (headerKey n h)) by discriminate.
    intros Hv. destruct (wf_header d Hwf _ _ _ Hv) as (x & ? & ? & ? & ? & t & ?).
    exists x. rewrite (E (hashToNumberKey h)) by discriminate.
    repeat split; try assumption.
    exists t. rewrite (E (tdKey n h)) by discriminate. assumption.
  - intros n h v. rewrite (E (tdKey n h)), (E (headerKey n h)) by discriminate.
    apply (wf_td d Hwf).
  - intros n h x. rewrite (E (headerKey n h)) by discriminate.
    intros Hx Hn. destruct (wf_sum d Hwf _ _ _ Hx Hn) as (tp & ? & ?).
    exists tp. rewrite (E (tdKey (n - 1) (parentHash x))), (E (tdKey n h)) by discriminate.
    auto.
  - intros n v. rewrite (E (numberToHashKey n)) by discriminate.
    intros Hv. destruct (wf_canonical d Hwf _ _ Hv) as (x & ? & ?).
    exists x. rewrite (E (headerKey n (hash x))) by discriminate. auto.
Qed.

Lemma Inv_after_verifier epochs bc : Inv bc -> Inv (after_verifier epochs bc).
Proof.
  intros (Hc & Hwf & T & Hbnd & (hh & nh & Hhh & Hhdr & HT) & (hb & nb & Hhb & Hbdr)).
  assert (E : forall k, chain_key k -> db (after_verifier epochs bc) !! k = db bc !! k)
    by (intros k; apply after_verifier_db).
  split; [apply coherent_after_verifier; assumption|].
  split; [apply WfDb_after_verifier; assumption|].
  exists T. split; [|split].
  - intros n h t. rewrite (E (tdKey n h)) by discriminate. apply Hbnd.
  - exists hh, nh. rewrite (E (headerKey nh hh)), (E (tdKey nh hh)) by discriminate. auto.
  - exists hb, nb. rewrite (E (headerKey nb hb)) by discriminate. auto.
Qed.

(** What [verifyPOW] returns: the object with the epoch entries of the
    verifier, or the object itself when validation is off. *)
Lemma verifyPOW_inv cfg block bc e bc1 :
  verifyPOW cfg block bc = (e, bc1) ->
  (exists epochs, bc1 = after_verifier epochs bc)
  /\ (validate cfg = false -> e = None /\ bc1 = bc).
Proof.
  unfold verifyPOW. destruct (validate cfg); simpl.
  - destruct (ethash_verifyPOW cfg (db bc) block) as [valid epochs].
    intros [= <- <-]. split; [exists epochs; reflexivity|discriminate].
  - intros [= <- <-]. split; [|auto]. exists []. symmetry. apply after_verifier_nil.
Qed.

(** A put that succeeds ran its last tasks on the object the verifier
    left. *)
Lemma put_pow_inv fuel cfg item isGenesis bc bc' :
  _putBlockOrHeader fuel cfg item isGenesis bc = Ok tt bc' ->
  exists epochs,
    put_tasks fuel isGenesis (item_isHeader item) (item_block item)
      (after_verifier epochs bc) = Ok tt bc'.
Proof.
  unfold _putBlockOrHeader.
  destruct (negb _); [discriminate|].
  destruct (verify _ _ _ _); [discriminate|].
  destruct (verifyPOW cfg (item_block item) bc) as [e bc1] eqn:Hpow.
  apply verifyPOW_inv in Hpow as [[epochs ->] _].
  destruct e; [discriminate|]. eauto.
Qed.

(** ** Running the concrete chains *)

(** An operation that succeeded returned the state [state_of] reads. *)
Lemma ok_state_of (r : Res unit) :
  Scenario.succeeded r = true -> r = Ok tt (Scenario.state_of r).
Proof. destruct r as [[] bc|e bc|]; simpl; [reflexivity|discriminate|discriminate]. Qed.

Lemma put_all_cons_ok fuel cfg item rest bc bc1 :
  _putBlockOrHeader fuel cfg item false bc = Ok tt bc1 ->
  put_all fuel cfg (item :: rest) bc = put_all fuel cfg rest bc1.
Proof. intros H. simpl. rewrite H. reflexivity. Qed.

(** ** Heads *)

Lemma dbm_getBlock_not_NoHeadFound t bc : dbm_getBlock t bc ≠ inl NoHeadFound.
Proof.
  unfold dbm_getBlock.
  repeat case_match; congruence.
Qed.

(** C10, as the code has it. For a name without an entry in the iterator
    heads that is not the name of a member every object inherits
    ([toString], [constructor], [__proto__], ...), [getHead] returns the
    block that [getBlock] finds at [_headBlock]; it fails with
    'No head found.' exactly when [_headBlock] is unset too. *)
Theorem getHead_unknown_name (name : string) (bc : Blockchain) :
  _heads bc !! name = None ->
  name ∉ object_prototype_names ->
  getHead name bc = match _headBlock bc with
                    | Some h => dbm_getBlock (TagHash h) bc
                    | None => inl NoHeadFound
                    end
  /\ (getHead name bc = inl NoHeadFound <-> _headBlock bc = None).
Proof.
  intros Hname Hplain. unfold getHead, heads_member. rewrite Hname.
  rewrite bool_decide_eq_false_2 by assumption.
  destruct (_headBlock bc) as [h|]; split; try reflexivity.
  - split; [|discriminate].
    intros H. exfalso. eapply dbm_getBlock_not_NoHeadFound, H.
  - tauto.
Qed.

(** After a header overtook the last full block, the head of an unknown
    name is the full block, not the header. *)
Lemma getHead_unknown_name_witness :
  _heads Scenario.header_first !! "vm"%string = None
  /\ _headHeader Scenario.header_first = Some (hash Scenario.B1)
  /\ getHead "vm" Scenario.header_first = inr (Scenario.full Scenario.A1)
  /\ (getHead "vm" Scenario.header_first = inl NoHeadFound
      <-> _headBlock Scenario.header_first = None).
Proof.
  assert (Hn : _heads Scenario.header_first !! "vm"%string = None)
    by (vm_compute; reflexivity).
  assert (Hp : "vm"%string ∉ object_prototype_names).
  { apply (bool_decide_eq_false_1 ("vm"%string ∈ object_prototype_names)).
    vm_compute. reflexivity. }
  destruct (getHead_unknown_name "vm" Scenario.header_first Hn Hp) as [_ Hfail].
  split; [exact Hn|].
  split; [vm_compute; reflexivity|].
  split; [vm_compute; reflexivity|exact Hfail].
Defined.

(** C10, as the claim has it: the name [toString] has no entry in the
    iterator heads and the head block is A1, which [getBlock] finds, but
    [getHead] looks the name up in a plain object, gets the inherited
    member and fails. *)
Lemma getHead_inherited_name :
  _heads Scenario.header_first !! "toString"%string = None
  /\ _headBlock Scenario.header_first = Some (hash Scenario.A1)
  /\ dbm_getBlock (TagHash (hash Scenario.A1)) Scenario.header_first
     = inr (Scenario.full Scenario.A1)
  /\ getHead "toString" Scenario.header_first = inl TypeError.
Proof. repeat split; vm_compute; reflexivity. Qed.

(** ** The iterator *)

(** The callback gets [false] with the first block and afterwards [true]
    exactly when the hash of the block yielded before is the parent hash of
    the current block. *)
Lemma iterator_run_flags fuel name func :
  forall n last bc,
    flags_follow last (iterator_run fuel name func n last bc).1.
Proof.
  induction fuel as [|fuel IH]; intros n last bc; simpl; [exact I|].
  destruct (dbm_getBlock (TagNumber n) bc) as [e|block].
  - exact I.
  - destruct (func block (reorg_flag last block)).
    + simpl. split; [reflexivity|exact I].
    + specialize (IH (n + 1) (Some block)
        (with_heads (<[name:=hash (header block)]> (_heads bc)) bc)).
      destruct (iterator_run fuel name func (n + 1) (Some block) _) as [calls r].
      simpl in *. split; [reflexivity|exact IH].
Qed.

Lemma iterator_flags fuel name func bc :
  flags_follow None (_iterator fuel name func bc).1.
Proof.
  unfold _iterator.
  destruct (match heads_member name (_heads bc) with
            | OwnHash h => inr (Some h)
            | Inherited => inl TypeError
            | Absent => inr (_genesis bc)
            end) as [e|[h|]]; [exact I| |exact I].
  destruct (dbm_hashToNumber _ bc); [|exact I].
  apply iterator_run_flags.
Qed.

(** C1. On the linear chain genesis, A1, A2, without any reorganisation,
    the iterator hands A1 to the callback with the flag unset and A2, whose
    parent is A1, with the flag set: the flag is set when the hash of the
    block yielded before equals the parent hash. *)
Theorem iterator_flag_on_linear_chain :
  (_iterator 8 "vm" (fun _ _ => None) Scenario.linear2).1
  = [(Scenario.full Scenario.A1, false); (Scenario.full Scenario.A2, true)]
  /\ parentHash Scenario.A2 = hash Scenario.A1.
Proof. split; vm_compute; reflexivity. Qed.

(** ** Validation *)

(** C6, as the code has it. With validation on, a put whose structural
    validation fails returns an error and leaves the object as it was.  A
    put whose proof-of-work check fails returns an error too, and commits
    nothing: the caches, the two heads and the iterator heads are as they
    were, and so is the store under every key of the chain; but the store
    holds the epoch entries that the verifier wrote while it checked. *)
Theorem put_invalid_unchanged (fuel : nat) (cfg : Config) (item : Item)
    (isGenesis : bool) (bc : Blockchain) :
  validate cfg = true ->
  (block_validate cfg bc (item_block item) = false ->
   exists e, _putBlockOrHeader fuel cfg item isGenesis bc = Err e bc)
  /\ ((ethash_verifyPOW cfg (db bc) (item_block item)).1 = false ->
      exists e bc1,
        _putBlockOrHeader fuel cfg item isGenesis bc = Err e bc1
        /\ (bc1 = bc
            \/ bc1 = after_verifier (ethash_verifyPOW cfg (db bc) (item_block item)).2 bc)
        /\ cache bc1 = cache bc
        /\ _heads bc1 = _heads bc
        /\ _headHeader bc1 = _headHeader bc
        /\ _headBlock bc1 = _headBlock bc
        /\ forall k, chain_key k -> db bc1 !! k = db bc !! k).
Proof.
  intros Hv. split.
  - intros Hbad. unfold _putBlockOrHeader.
    destruct (negb (item_chain item =? chainId cfg)); [eauto|].
    unfold verify. rewrite Hv, Hbad. simpl.
    destruct (negb isGenesis && block_isGenesis (item_block item)); eauto.
  - intros Hbad. unfold _putBlockOrHeader.
    assert (Hsame : forall e, exists e' bc1, @Err unit e bc = Err e' bc1
               /\ (bc1 = bc \/ bc1 = after_verifier
                      (ethash_verifyPOW cfg (db bc) (item_block item)).2 bc)
               /\ cache bc1 = cache bc /\ _heads bc1 = _heads bc
               /\ _headHeader bc1 = _headHeader bc /\ _headBlock bc1 = _headBlock bc
               /\ forall k, chain_key k -> db bc1 !! k = db bc !! k).
    { intros e. exists e, bc. repeat split; auto. }
    destruct (negb (item_chain item =? chainId cfg)); [apply Hsame|].
    destruct (verify cfg isGenesis (item_block item) bc); [apply Hsame|].
    unfold verifyPOW. rewrite Hv. simpl.
    destruct (ethash_verifyPOW cfg (db bc) (item_block item)) as [valid epochs].
    simpl in Hbad. subst valid. simpl.
    exists InvalidPOW, (after_verifier epochs bc).
    split; [reflexivity|]. split; [right; reflexivity|].
    repeat split. intros k Hk. apply after_verifier_db. assumption.
Qed.

Lemma put_invalid_unchanged_witness :
  exists e bc1,
    _putBlockOrHeader 8 Scenario.cfg_strict
      (ItemBlock 1 (Scenario.full Scenario.A1)) false Scenario.fresh = Err e bc1
    /\ _headHeader bc1 = _headHeader Scenario.fresh
    /\ db bc1 !! numberToHashKey 1 = db Scenario.fresh !! numberToHashKey 1.
Proof.
  destruct (put_invalid_unchanged 8 Scenario.cfg_strict
              (ItemBlock 1 (Scenario.full Scenario.A1)) false Scenario.fresh eq_refl)
    as [_ Hpow].
  destruct (Hpow eq_refl) as (e & bc1 & Hput & _ & _ & _ & Hhh & _ & Hdb).
  exists e, bc1. split; [exact Hput|]. split; [exact Hhh|].
  apply Hdb. discriminate.
Defined.

(** C6, as the claim has it: with validation on, the put of a block that
    the verifier refuses fails with the proof-of-work error, and the store
    afterwards holds the cache of epoch 0, which it did not hold before. *)
Lemma pow_failure_writes_store :
  validate Scenario.cfg_strict = true
  /\ db Scenario.fresh !! epochKey 0 = None
  /\ exists bc1,
       _putBlockOrHeader 8 Scenario.cfg_strict
         (ItemBlock 1 (Scenario.full Scenario.A1)) false Scenario.fresh
       = Err InvalidPOW bc1
       /\ db bc1 !! epochKey 0 = Some (VEpoch 1)
       /\ db bc1 <> db Scenario.fresh.
Proof.
  split; [reflexivity|].
  assert (Hnone : db Scenario.fresh !! epochKey 0 = None) by (vm_compute; reflexivity).
  split; [exact Hnone|].
  exists (after_verifier [(0, 1)] Scenario.fresh).
  split; [reflexivity|].
  assert (Hsome : db (after_verifier [(0, 1)] Scenario.fresh) !! epochKey 0
                  = Some (VEpoch 1)) by apply lookup_insert_eq.
  split; [exact Hsome|].
  intros Heq. rewrite Heq, Hnone in Hsome. discriminate.
Qed.

(** ** Putting a block twice *)

(** C8. After the block A1, the header B1 and the block C2 on top of B1
    were put on a fresh object, each put succeeding, the head block is B1;
    putting C2 a second time succeeds too and moves the head block to C2. *)
Theorem reput_moves_headBlock :
  Scenario.succeeded (putBlock 8 Scenario.cfg 1 (Scenario.full Scenario.A1) false Scenario.fresh) = true
  /\ Scenario.succeeded (putHeader 8 Scenario.cfg 1 Scenario.B1 Scenario.linear1) = true
  /\ Scenario.succeeded (putBlock 8 Scenario.cfg 1 (Scenario.full Scenario.C2) false Scenario.header_first) = true
  /\ Scenario.succeeded (putBlock 8 Scenario.cfg 1 (Scenario.full Scenario.C2) false Scenario.put_once) = true
  /\ _headBlock Scenario.put_once = Some (hash Scenario.B1)
  /\ _headBlock Scenario.put_twice = Some (hash Scenario.C2)
  /\ Scenario.put_twice <> Scenario.put_once.
Proof.
  assert (H1 : _headBlock Scenario.put_once = Some (hash Scenario.B1))
    by (vm_compute; reflexivity).
  assert (H2 : _headBlock Scenario.put_twice = Some (hash Scenario.C2))
    by (vm_compute; reflexivity).
  split; [vm_compute; reflexivity|].
  split; [vm_compute; reflexivity|].
  split; [vm_compute; reflexivity|].
  split; [vm_compute; reflexivity|].
  split; [exact H1|]. split; [exact H2|].
  intros Heq.
  assert (Hh : hash Scenario.B1 = hash Scenario.C2).
  { apply (inj Some). rewrite <- H1, <- H2, Heq. reflexivity. }
  apply hash_inj in Hh. apply (f_equal number) in Hh. discriminate Hh.
Qed.

(** ** The caches and the store *)

Lemma cache_of_with f f' l c :
  cache_of f (cache_with f' l c) = if decide (f = f') then l else cache_of f c.
Proof. destruct f, f'; reflexivity. Qed.

Lemma lru_get_del k k' c :
  lru_get k (lru_del k' c) = if decide (k = k') then None else lru_get k c.
Proof.
  induction c as [|[k0 v0] c IH]; simpl.
  - destruct (decide (k = k')); reflexivity.
  - unfold key_is in *; simpl.
    destruct (bool_decide_reflect (k0 = k')) as [->|Hne]; simpl.
    + rewrite IH. destruct (decide (k = k')) as [->|Hk]; [reflexivity|].
      rewrite bool_decide_eq_false_2 by congruence. reflexivity.
    + unfold key_is; simpl.
      destruct (bool_decide_reflect (k0 = k)) as [->|Hk0].
      * rewrite decide_False by congruence. reflexivity.
      * exact IH.
Qed.

(** What a cache returns after [take] was in the cache before. *)
Lemma lru_get_take n k c v :
  lru_get k (take n c) = Some v -> lru_get k c = Some v.
Proof.
  revert n. induction c as [|p c IH]; intros [|n]; simpl; try discriminate.
  destruct (key_is k p); [tauto|]. apply IH.
Qed.

Lemma lru_get_set max k k' v' c v :
  lru_get k (lru_set max k' v' c) = Some v ->
  (k = k' /\ v = v') \/ (k <> k' /\ lru_get k c = Some v).
Proof.
  unfold lru_set. intros H. apply lru_get_take in H. simpl in H.
  unfold key_is in H; simpl in H.
  destruct (bool_decide_reflect (k' = k)) as [->|Hne].
  - left. split; congruence.
  - right. rewrite lru_get_del, decide_False in H by congruence.
    split; congruence.
Qed.

Lemma cache_set_fields k v bc : same_fields (cache_set k v bc) bc.
Proof. unfold cache_set, same_fields. destruct (family k); simpl; tauto. Qed.

Lemma cache_del_fields k bc : same_fields (cache_del k bc) bc.
Proof. unfold cache_del, same_fields. destruct (family k); simpl; tauto. Qed.

Lemma cache_get_cache_del k k' bc :
  cache_get k (cache_del k' bc) = if decide (k = k') then None else cache_get k bc.
Proof.
  unfold cache_get, cache_del.
  destruct (decide (k = k')) as [->|Hne].
  - destruct (family k') as [f'|]; simpl; [|reflexivity].
    rewrite cache_of_with, decide_True by reflexivity.
    rewrite lru_get_del, decide_True by reflexivity. reflexivity.
  - destruct (family k') as [f'|]; simpl; [|reflexivity].
    destruct (family k) as [f|]; [|reflexivity].
    rewrite cache_of_with. destruct (decide (f = f')) as [->|Hff]; [|reflexivity].
    rewrite lru_get_del, decide_False by assumption. reflexivity.
Qed.

Lemma cache_get_cache_set k k' v' bc v :
  cache_get k (cache_set k' v' bc) = Some v ->
  (k = k' /\ v = v') \/ (k <> k' /\ cache_get k bc = Some v).
Proof.
  unfold cache_get, cache_set.
  destruct (family k') as [f'|] eqn:Hf'; simpl.
  - destruct (family k) as [f|] eqn:Hf; [|discriminate].
    rewrite cache_of_with. destruct (decide (f = f')) as [->|Hff].
    + apply lru_get_set.
    + intros H. right. split; [congruence|exact H].
  - intros H. right. split; [|exact H].
    intros ->. rewrite Hf' in H. discriminate.
Qed.

Lemma db_get_cache_del k k' bc :
  db_get k (cache_del k' bc) = if decide (k = k') then db bc !! k else db_get k bc.
Proof.
  unfold db_get. rewrite cache_get_cache_del.
  destruct (cache_del_fields k' bc) as [-> _].
  destruct (decide (k = k')); reflexivity.
Qed.

Lemma cache_get_with_db k d bc : cache_get k (with_db d bc) = cache_get k bc.
Proof. reflexivity. Qed.

Lemma batch_app ops1 ops2 d : batch (ops1 ++ ops2) d = batch ops2 (batch ops1 d).
Proof. unfold batch. apply foldl_app. Qed.

(** A batch leaves alone the keys that none of its operations names. *)
Lemma batch_untouched ops d k :
  Forall (fun o => op_key o <> k) ops -> batch ops d !! k = d !! k.
Proof.
  revert d. induction ops as [|o ops IH]; intros d Hall; [reflexivity|].
  inversion Hall as [|? ? Ho Hops]; subst. simpl.
  change (batch ops (apply_op d o) !! k = d !! k).
  rewrite IH by assumption.
  destruct o as [k0 v0|k0]; simpl in *.
  - apply lookup_insert_ne; assumption.
  - apply lookup_delete_ne; assumption.
Qed.

Lemma batch_dels ks d k :
  batch (map OpDel ks) d !! k = if decide (k ∈ ks) then None else d !! k.
Proof.
  revert d. induction ks as [|k0 ks IH]; intros d.
  - destruct (decide (k ∈ [])) as [Hin|]; [|reflexivity].
    apply elem_of_nil in Hin. contradiction.
  - change (batch (map OpDel ks) (delete k0 d) !! k
            = if decide (k ∈ k0 :: ks) then None else d !! k).
    rewrite IH.
    destruct (decide (k ∈ ks)) as [Hin|Hnin], (decide (k ∈ k0 :: ks)) as [Hin'|Hnin'];
      try reflexivity.
    + exfalso. apply Hnin'. right. assumption.
    + apply elem_of_cons in Hin' as [->|?]; [|contradiction].
      apply lookup_delete_eq.
    + apply lookup_delete_ne. intros ->. apply Hnin'. left.
Qed.

(** ** Deleting a block outside the canonical chain *)

Lemma cache_dels_fields ks bc :
  same_fields (foldl (fun b k => cache_del k b) bc ks) bc.
Proof.
  revert bc. induction ks as [|k ks IH]; intros bc; simpl.
  - unfold same_fields; tauto.
  - specialize (IH (cache_del k bc)).
    pose proof (cache_del_fields k bc) as H.
    unfold same_fields in *. intuition congruence.
Qed.

Lemma cache_get_cache_dels ks bc k :
  cache_get k (foldl (fun b k => cache_del k b) bc ks)
  = if decide (k ∈ ks) then None else cache_get k bc.
Proof.
  revert bc. induction ks as [|k0 ks IH]; intros bc; simpl.
  - destruct (decide (k ∈ [])) as [Hin|]; [|reflexivity].
    apply elem_of_nil in Hin. contradiction.
  - rewrite IH, cache_get_cache_del.
    destruct (decide (k ∈ ks)) as [Hin|Hnin], (decide (k ∈ k0 :: ks)) as [Hin'|Hnin'];
      try reflexivity.
    + exfalso. apply Hnin'. right. assumption.
    + apply elem_of_cons in Hin' as [->|?]; [|contradiction].
      rewrite decide_True by reflexivity. reflexivity.
    + rewrite decide_False; [reflexivity|].
      intros ->. apply Hnin'. left.
Qed.

(** C7. Deleting a persisted block [h] that is not the canonical block of
    its number deletes the four keys of [h] (header, body, hashToNumber,
    td) and nothing else: every other key of the store, so every other
    block and every numberToHash entry, reads as before, and [_headHeader],
    [_headBlock] and the iterator heads are unchanged. *)
Theorem delBlock_not_canonical (fuel : nat) (h : Hash) (hd : Header) (bc : Blockchain) :
  _getHeader h None bc = Some hd ->
  dbm_numberToHash (number hd) bc <> Some h ->
  exists bc',
    _delBlock (S fuel) h bc = Ok tt bc'
    /\ (forall k, db bc' !! k
                  = if decide (k ∈ del_keys h (number hd)) then None else db bc !! k)
    /\ (forall k, db_get k bc'
                  = if decide (k ∈ del_keys h (number hd)) then None else db_get k bc)
    /\ (forall n, db bc' !! numberToHashKey n = db bc !! numberToHashKey n)
    /\ _heads bc' = _heads bc
    /\ _headHeader bc' = _headHeader bc
    /\ _headBlock bc' = _headBlock bc.
Proof.
  intros Hhd Hnc. unfold _delBlock. rewrite Hhd.
  rewrite bool_decide_eq_false_2 by assumption. simpl _delChild. cbv iota.
  set (ks := del_keys h (number hd)).
  set (bc1 := foldl (fun b k => cache_del k b) bc ks).
  destruct (cache_dels_fields ks bc) as (Hdb & _ & Hheads & _ & Hhh & Hhb & _).
  fold bc1 in Hdb, Hheads, Hhh, Hhb.
  exists (_batchDbOps (map OpDel ks) bc1).
  assert (Hstore : forall k, db (_batchDbOps (map OpDel ks) bc1) !! k
                     = if decide (k ∈ ks) then None else db bc !! k).
  { intros k.
    change (batch (map OpDel ks) (db bc1) !! k = if decide (k ∈ ks) then None else db bc !! k).
    rewrite batch_dels, Hdb. reflexivity. }
  split; [reflexivity|].
  split; [exact Hstore|].
  split.
  { intros k. unfold db_get. rewrite Hstore.
    unfold _batchDbOps. rewrite cache_get_with_db. unfold bc1.
    rewrite cache_get_cache_dels. destruct (decide (k ∈ ks)); reflexivity. }
  split.
  { intros n. rewrite Hstore. rewrite decide_False; [reflexivity|].
    unfold ks, del_keys. rewrite !elem_of_cons, elem_of_nil.
    intros [?|[?|[?|[?|[]]]]]; discriminate. }
  simpl. tauto.
Qed.

Lemma delBlock_not_canonical_witness :
  exists bc',
    _delBlock 1 (hash Scenario.A1) Scenario.header_first = Ok tt bc'
    /\ db bc' !! headerKey 1 (hash Scenario.A1) = None
    /\ db bc' !! numberToHashKey 1 = db Scenario.header_first !! numberToHashKey 1
    /\ _headBlock bc' = _headBlock Scenario.header_first.
Proof.
  assert (Hc : dbm_numberToHash (number Scenario.A1) Scenario.header_first
               = Some (hash Scenario.B1)) by (vm_compute; reflexivity).
  destruct (delBlock_not_canonical 0 (hash Scenario.A1) Scenario.A1 Scenario.header_first)
    as (bc' & Hrun & Hdb & _ & Hn & _ & _ & Hhb).
  - vm_compute. reflexivity.
  - rewrite Hc. intros Heq. apply (inj Some), hash_inj in Heq.
    apply (f_equal difficulty) in Heq. discriminate Heq.
  - exists bc'. split; [exact Hrun|]. split; [|split; [apply Hn|exact Hhb]].
    rewrite Hdb. apply decide_True. left.
Defined.

(** ** The walks of the put path *)

Lemma same_store_refl bc : same_store bc bc.
Proof. unfold same_store; tauto. Qed.

Lemma same_store_trans a b c : same_store a b -> same_store b c -> same_store a c.
Proof. unfold same_store; intuition congruence. Qed.

Lemma same_fields_store a b : same_fields a b -> same_store a b.
Proof. unfold same_fields, same_store; tauto. Qed.

Lemma cache_set_store k v bc : same_store (cache_set k v bc) bc.
Proof. apply same_fields_store, cache_set_fields. Qed.

Lemma cache_del_store k bc : same_store (cache_del k bc) bc.
Proof. apply same_fields_store, cache_del_fields. Qed.

Lemma saveLookups_eq h num ops bc :
  saveLookups h num ops bc
  = (ops ++ [OpPut (numberToHashKey num) (VHash h); OpPut (hashToNumberKey h) (VNumber num)],
     cache_set (hashToNumberKey h) (VNumber num)
       (cache_set (numberToHashKey num) (VHash h) bc)).
Proof. unfold saveLookups. rewrite <- app_assoc. reflexivity. Qed.

Lemma _deleteStaleAssignments_S fuel num headHash ops bc :
  _deleteStaleAssignments (S fuel) num headHash ops bc
  = match dbm_numberToHash num bc with
    | None => Ok ops bc
    | Some stale =>
        let bc1 := with_heads (reset_heads stale headHash (_heads bc))
                     (cache_del (numberToHashKey num) bc) in
        match _headBlock bc1 with
        | None => Err TypeError bc1
        | Some hb =>
            _deleteStaleAssignments fuel (num + 1) headHash
              (ops ++ [OpDel (numberToHashKey num)])
              (if decide (hb = stale) then with_headBlock (Some headHash) bc1 else bc1)
        end
    end.
Proof. reflexivity. Qed.

(** [_deleteStaleAssignments] appends deletions of numberToHash keys and
    leaves the store and [_headHeader] alone. *)
Lemma deleteStale_frame fuel :
  forall num headHash ops bc ops' bc',
    _deleteStaleAssignments fuel num headHash ops bc = Ok ops' bc' ->
    exists extra, ops' = ops ++ extra /\ Forall index_op extra /\ same_store bc' bc.
Proof.
  induction fuel as [|fuel IH]; intros num headHash ops bc ops' bc' H; [discriminate|].
  rewrite _deleteStaleAssignments_S in H. cbv zeta in H.
  destruct (dbm_numberToHash num bc) as [stale|].
  - set (bc1 := with_heads _ _) in H.
    assert (Hst1 : same_store bc1 bc).
    { eapply same_store_trans; [|apply (cache_del_store (numberToHashKey num))].
      unfold same_store; simpl; tauto. }
    destruct (_headBlock bc1) as [hb|]; [|discriminate].
    apply IH in H as (extra & -> & Hall & Hst).
    exists (OpDel (numberToHashKey num) :: extra).
    split; [rewrite <- app_assoc; reflexivity|].
    split; [constructor; [exact I|assumption]|].
    eapply same_store_trans; [exact Hst|].
    destruct (decide (hb = stale)); [|exact Hst1].
    eapply same_store_trans; [|exact Hst1]. unfold same_store; simpl; tauto.
  - injection H as <- <-. exists []. rewrite app_nil_r.
    split; [reflexivity|]. split; [constructor|apply same_store_refl].
Qed.

Lemma flag_stale_heads_store s bc : same_store (flag_stale_heads s bc) bc.
Proof.
  unfold flag_stale_heads. destruct s as [s|]; [|apply same_store_refl].
  destruct (stale_names s (_heads bc)); unfold same_store; simpl; tauto.
Qed.

Lemma _rebuildCanonical_S fuel hd ops bc :
  _rebuildCanonical (S fuel) hd ops bc
  = let ops1 := ops ++ [OpPut (numberToHashKey (number hd)) (VHash (hash hd));
                         OpPut (hashToNumberKey (hash hd)) (VNumber (number hd))] in
    let bc1 := cache_set (hashToNumberKey (hash hd)) (VNumber (number hd))
                 (cache_set (numberToHashKey (number hd)) (VHash (hash hd)) bc) in
    if number hd =? 0 then Ok ops1 bc1
    else if bool_decide (dbm_numberToHash (number hd) bc = Some (hash hd))
    then Ok ops (reset_stale (hash hd) bc)
    else
      let bc2 := flag_stale_heads (dbm_numberToHash (number hd) bc) bc1 in
      match flag_stale_headBlock (dbm_numberToHash (number hd) bc) bc2 with
      | None => Err TypeError bc2
      | Some bc3 =>
          match _getHeader (parentHash hd) (Some (number hd - 1)) bc3 with
          | None => Err NotFoundError (with_staleHeads None bc3)
          | Some parent => _rebuildCanonical fuel parent ops1 bc3
          end
      end.
Proof.
  cbn [_rebuildCanonical]. rewrite saveLookups_eq. reflexivity.
Qed.

Lemma reset_stale_store h bc : same_store (reset_stale h bc) bc.
Proof.
  unfold reset_stale. simpl.
  destruct (_staleHeadBlock bc); unfold same_store; simpl; tauto.
Qed.

Lemma flag_stale_headBlock_store s bc bc' :
  flag_stale_headBlock s bc = Some bc' -> same_store bc' bc.
Proof.
  unfold flag_stale_headBlock. destruct s as [s|].
  - destruct (_headBlock bc) as [hb|]; [|discriminate].
    intros [= <-]. destruct (decide (hb = s)); unfold same_store; simpl; tauto.
  - intros [= <-]. apply same_store_refl.
Qed.

(** [_rebuildCanonical] appends writes of the two lookup families and
    leaves the store and [_headHeader] alone. *)
Lemma rebuild_frame fuel :
  forall hd ops bc ops' bc',
    _rebuildCanonical fuel hd ops bc = Ok ops' bc' ->
    exists extra, ops' = ops ++ extra /\ Forall index_op extra /\ same_store bc' bc.
Proof.
  induction fuel as [|fuel IH]; intros hd ops bc ops' bc' H; [discriminate|].
  rewrite _rebuildCanonical_S in H. cbv zeta in H.
  set (bc1 := cache_set (hashToNumberKey _) _ _) in H.
  assert (Hst1 : same_store bc1 bc).
  { eapply same_store_trans; apply cache_set_store. }
  destruct (number hd =? 0).
  { injection H as <- <-. eexists. split; [reflexivity|].
    split; [repeat constructor|exact Hst1]. }
  destruct (bool_decide (dbm_numberToHash (number hd) bc = Some (hash hd))).
  { injection H as <- <-. exists []. rewrite app_nil_r.
    split; [reflexivity|]. split; [constructor|apply reset_stale_store]. }
  set (bc2 := flag_stale_heads _ _) in H.
  assert (Hst2 : same_store bc2 bc).
  { eapply same_store_trans; [apply flag_stale_heads_store|exact Hst1]. }
  destruct (flag_stale_headBlock _ bc2) as [bc3|] eqn:Hflag; [|discriminate].
  apply flag_stale_headBlock_store in Hflag.
  destruct (_getHeader (parentHash hd) (Some (number hd - 1)) bc3) as [parent|];
    [|discriminate].
  apply IH in H as (extra & -> & Hall & Hst).
  eexists. split; [rewrite <- app_assoc; reflexivity|].
  split; [repeat constructor; assumption|].
  eapply same_store_trans; [exact Hst|].
  eapply same_store_trans; eassumption.
Qed.

(** ** The put path *)

Lemma save_block_inv isGenesis block td bc :
  exists body_ops bc1,
    save_block isGenesis block td bc
    = ([OpPut (tdKey (number (header block)) (hash (header block))) (VTd td);
        OpPut (headerKey (number (header block)) (hash (header block)))
          (VHeader (header block))] ++ body_ops, bc1)
    /\ Forall (fun o => op_key o = bodyKey (number (header block)) (hash (header block)))
         body_ops
    /\ same_fields bc1 bc.
Proof.
  unfold save_block. destruct (has_body isGenesis block).
  - eexists [_], _. split; [reflexivity|]. split; [repeat constructor|].
    pose proof (cache_set_fields (tdKey (number (header block)) (hash (header block)))
                  (VTd td) bc) as H1.
    pose proof (cache_set_fields (headerKey (number (header block)) (hash (header block)))
                  (VHeader (header block))
                  (cache_set (tdKey (number (header block)) (hash (header block)))
                     (VTd td) bc)) as H2.
    pose proof (cache_set_fields (bodyKey (number (header block)) (hash (header block)))
                  (VBody (transactions block) (uncleHeaders block))
                  (cache_set (headerKey (number (header block)) (hash (header block)))
                     (VHeader (header block))
                     (cache_set (tdKey (number (header block)) (hash (header block)))
                        (VTd td) bc))) as H3.
    unfold same_fields in *. intuition congruence.
  - exists [], (cache_set (headerKey (number (header block)) (hash (header block)))
                  (VHeader (header block))
                  (cache_set (tdKey (number (header block)) (hash (header block)))
                     (VTd td) bc)).
    split; [reflexivity|]. split; [constructor|].
    pose proof (cache_set_fields (tdKey (number (header block)) (hash (header block)))
                  (VTd td) bc) as H1.
    pose proof (cache_set_fields (headerKey (number (header block)) (hash (header block)))
                  (VHeader (header block))
                  (cache_set (tdKey (number (header block)) (hash (header block)))
                     (VTd td) bc)) as H2.
    unfold same_fields in *. intuition congruence.
Qed.

(** What a successful [rebuildInfo] hands to the batch: the total
    difficulty and the header, the body if any, then operations on the two
    lookup families only. *)
Lemma rebuildInfo_inv fuel isGenesis isHeader block td cur bc ops bc1 :
  rebuildInfo fuel isGenesis isHeader block td cur bc = Ok ops bc1 ->
  exists body_ops extra,
    ops = [OpPut (tdKey (number (header block)) (hash (header block))) (VTd td);
           OpPut (headerKey (number (header block)) (hash (header block)))
             (VHeader (header block))] ++ body_ops ++ extra
    /\ Forall (fun o => op_key o = bodyKey (number (header block)) (hash (header block)))
         body_ops
    /\ Forall index_op extra
    /\ db bc1 = db bc
    /\ (winsHeader block td cur.1 = true -> _headHeader bc1 = Some (hash (header block)))
    /\ (winsHeader block td cur.1 = false ->
        _headHeader bc1 = _headHeader bc
        /\ extra = [OpPut (hashToNumberKey (hash (header block)))
                      (VNumber (number (header block)))]).
Proof.
  unfold rebuildInfo.
  destruct (save_block_inv isGenesis block td bc) as (body_ops & bc0 & -> & Hbody & Hf).
  destruct Hf as (Hdb & _ & _ & _ & Hhh & _).
  destruct (winsHeader block td cur.1).
  - set (bcw := if block_isGenesis block then _ else _).
    assert (Hw : db bcw = db bc /\ _headHeader bcw = Some (hash (header block))).
    { unfold bcw. destruct (block_isGenesis block), isHeader; simpl; auto. }
    destruct Hw as [Hwdb Hwh].
    destruct (_deleteStaleAssignments _ _ _ _ bcw) as [ops1 bcd| |] eqn:Hdel;
      try discriminate.
    intros Hreb.
    apply deleteStale_frame in Hdel as (e1 & -> & Hall1 & Hs1).
    apply rebuild_frame in Hreb as (e2 & -> & Hall2 & Hs2).
    destruct Hs1 as (Hd1 & _ & _ & Hh1), Hs2 as (Hd2 & _ & _ & Hh2).
    exists body_ops, (e1 ++ e2).
    split; [rewrite <- !app_assoc; reflexivity|].
    split; [assumption|]. split; [apply Forall_app; tauto|].
    split; [congruence|]. split; [intros _; congruence|discriminate].
  - intros [= <- <-]. exists body_ops. eexists.
    split; [rewrite <- ?app_assoc; reflexivity|].
    split; [assumption|]. split; [repeat constructor|].
    pose proof (cache_set_fields (hashToNumberKey (hash (header block)))
                  (VNumber (number (header block)))
                  (if (td >? cur.2) && negb isHeader
                   then with_headBlock (Some (hash (header block))) bc0 else bc0))
      as (Hdb' & _ & _ & _ & Hhh' & _).
    split; [|split; [discriminate|intros _; split; [|reflexivity]]].
    + rewrite Hdb'. destruct (_ && _); simpl; assumption.
    + rewrite Hhh'. destruct (_ && _); simpl; assumption.
Qed.

Lemma tasks_ok_inv fuel isGenesis isHeader block bc bc' :
  put_tasks fuel isGenesis isHeader block bc = Ok tt bc' ->
  exists cur td ops bc1,
    getCurrentTd isGenesis bc = Some cur
    /\ getBlockTd isGenesis (header block) bc = Some td
    /\ rebuildInfo fuel isGenesis isHeader block td cur bc = Ok ops bc1
    /\ bc' = _batchDbOps (ops ++ _saveHeadOps bc1) bc1.
Proof.
  unfold put_tasks.
  destruct (getCurrentTd isGenesis bc) as [cur|]; [|discriminate].
  destruct (getBlockTd _ _ _) as [td|]; [|discriminate].
  destruct (rebuildInfo _ _ _ _ _ _ _) as [ops bc1| |] eqn:Hr; try discriminate.
  intros [= <-]. exists cur, td, ops, bc1. auto.
Qed.

(** A successful put went through every task of the series, the last
    ones on the object the verifier left. *)
Lemma put_ok_inv fuel cfg item isGenesis bc bc' :
  _putBlockOrHeader fuel cfg item isGenesis bc = Ok tt bc' ->
  exists epochs cur td ops bc1,
    getCurrentTd isGenesis bc = Some cur
    /\ getBlockTd isGenesis (header (item_block item)) bc = Some td
    /\ rebuildInfo fuel isGenesis (item_isHeader item) (item_block item) td cur
         (after_verifier epochs bc)
       = Ok ops bc1
    /\ bc' = _batchDbOps (ops ++ _saveHeadOps bc1) bc1.
Proof.
  intros H. apply put_pow_inv in H as [epochs H]. exists epochs.
  unfold put_tasks in H.
  rewrite after_verifier_getCurrentTd, after_verifier_getBlockTd in H.
  destruct (getCurrentTd isGenesis bc) as [cur|]; [|discriminate].
  destruct (getBlockTd _ _ _) as [td|]; [|discriminate].
  destruct (rebuildInfo _ _ _ _ _ _ _) as [ops bc1| |] eqn:Hr; try discriminate.
  injection H as <-. exists cur, td, ops, bc1. auto.
Qed.

Lemma index_op_key o k : index_op o -> family k <> Some FNumberToHash ->
  family k <> Some FHashToNumber -> op_key o <> k.
Proof.
  unfold index_op. intros Hi H1 H2 Heq. subst k.
  destruct (op_key o); simpl in *; congruence.
Qed.

Lemma saveHeadOps_keys bc k : family k <> None ->
  Forall (fun o => op_key o <> k) (_saveHeadOps bc).
Proof.
  intros Hk. unfold _saveHeadOps.
  repeat constructor; simpl; intros <-; apply Hk; reflexivity.
Qed.

(** The total difficulty a successful put leaves in the store. *)
Lemma put_persists_td fuel cfg item isGenesis bc bc' :
  _putBlockOrHeader fuel cfg item isGenesis bc = Ok tt bc' ->
  exists td,
    getBlockTd isGenesis (header (item_block item)) bc = Some td
    /\ db bc' !! tdKey (number (header (item_block item))) (hash (header (item_block item)))
       = Some (VTd td).
Proof.
  intros H. apply put_ok_inv in H as (epochs & cur & td & ops & bc1 & _ & Htd & Hr & ->).
  exists td. split; [assumption|].
  apply rebuildInfo_inv in Hr as (body_ops & extra & -> & Hbody & Hextra & Hdb & _).
  unfold _batchDbOps. cbn [db with_db].
  rewrite <- !app_assoc. cbn [app].
  change (batch (OpPut ?k ?v :: ?l) ?d) with (batch l (<[k := v]> d)).
  rewrite batch_untouched; [apply lookup_insert_eq|].
  constructor; [simpl; congruence|].
  rewrite !Forall_app. split; [|split].
  - eapply Forall_impl; [exact Hbody|]. simpl. intros o ->. discriminate.
  - eapply Forall_impl; [exact Hextra|]. simpl. intros o Ho.
    apply index_op_key; [assumption|discriminate|discriminate].
  - apply saveHeadOps_keys. discriminate.
Qed.

(** C4. A put with [isGenesis] set persists the block's own difficulty as
    its total difficulty; a put without it persists the stored total
    difficulty of (parentHash, number - 1) plus the block's difficulty, and
    when that parent total difficulty is absent the put fails without
    committing a batch: the object is as it was, but for the epoch entries
    that the verifier may have written to the store when validation is
    on. *)
Theorem put_total_difficulty (fuel : nat) (cfg : Config) (item : Item)
    (isGenesis : bool) (bc : Blockchain) :
  let hd := header (item_block item) in
  (isGenesis = true ->
   forall bc', _putBlockOrHeader fuel cfg item isGenesis bc = Ok tt bc' ->
     db bc' !! tdKey (number hd) (hash hd) = Some (VTd (difficulty hd)))
  /\ (isGenesis = false ->
      forall bc', _putBlockOrHeader fuel cfg item isGenesis bc = Ok tt bc' ->
        exists parentTd,
          dbm_getTd (parentHash hd) (number hd - 1) bc = Some parentTd
          /\ db bc' !! tdKey (number hd) (hash hd) = Some (VTd (difficulty hd + parentTd)))
  /\ (isGenesis = false ->
      dbm_getTd (parentHash hd) (number hd - 1) bc = None ->
      exists e bc1,
        _putBlockOrHeader fuel cfg item isGenesis bc = Err e bc1
        /\ (exists epochs, bc1 = after_verifier epochs bc)
        /\ (validate cfg = false -> bc1 = bc)).
Proof.
  intros hd. split; [|split].
  - intros -> bc' H. apply put_persists_td in H as (td & Htd & Hdb).
    simpl in Htd. injection Htd as <-. exact Hdb.
  - intros -> bc' H. apply put_persists_td in H as (td & Htd & Hdb).
    fold hd in Htd, Hdb. unfold getBlockTd, _getTd in Htd. simpl in Htd.
    destruct (dbm_getTd (parentHash hd) (number hd - 1) bc) as [p|]; [|discriminate].
    injection Htd as <-. exists p. split; [reflexivity|exact Hdb].
  - intros -> Hnone. unfold _putBlockOrHeader.
    assert (Hsame : forall e, exists e' bc1, @Err unit e bc = Err e' bc1
               /\ (exists epochs, bc1 = after_verifier epochs bc)
               /\ (validate cfg = false -> bc1 = bc)).
    { intros e. exists e, bc. split; [reflexivity|]. split; [|auto].
      exists []. symmetry. apply after_verifier_nil. }
    destruct (negb _); [apply Hsame|].
    destruct (verify _ _ _ _); [apply Hsame|].
    destruct (verifyPOW cfg (item_block item) bc) as [e bc1] eqn:Hpow.
    apply verifyPOW_inv in Hpow as [[epochs ->] Hoff].
    assert (Hafter : forall e', exists e'' bc1,
               @Err unit e' (after_verifier epochs bc) = Err e'' bc1
               /\ (exists epochs', bc1 = after_verifier epochs' bc)
               /\ (validate cfg = false -> bc1 = bc)).
    { intros e'. exists e', (after_verifier epochs bc). split; [reflexivity|].
      split; [eauto|]. intros Hv. apply Hoff. assumption. }
    destruct e; [apply Hafter|].
    unfold put_tasks.
    rewrite after_verifier_getCurrentTd, after_verifier_getBlockTd.
    destruct (getCurrentTd false bc); [|apply Hafter].
    unfold getBlockTd, _getTd. simpl. fold hd. rewrite Hnone. apply Hafter.
Qed.

Lemma put_total_difficulty_witness :
  db Scenario.linear1 !! tdKey 1 (hash Scenario.A1) = Some (VTd 15)
  /\ exists e, _putBlockOrHeader 8 Scenario.cfg (ItemBlock 1 (Scenario.full Scenario.C2))
                 false Scenario.linear1 = Err e Scenario.linear1.
Proof.
  destruct (put_total_difficulty 8 Scenario.cfg (ItemBlock 1 (Scenario.full Scenario.A1))
              false Scenario.fresh) as (_ & Hput & _).
  destruct (put_total_difficulty 8 Scenario.cfg (ItemBlock 1 (Scenario.full Scenario.C2))
              false Scenario.linear1) as (_ & _ & Hfail).
  split.
  - destruct (Hput eq_refl Scenario.linear1) as (p & Hp & Hdb).
    + apply ok_state_of. vm_compute. reflexivity.
    + assert (Hp' : dbm_getTd (parentHash Scenario.A1) (number Scenario.A1 - 1)
                      Scenario.fresh = Some 10) by (vm_compute; reflexivity).
      change (dbm_getTd (parentHash Scenario.A1) (number Scenario.A1 - 1)
                Scenario.fresh = Some p) in Hp.
      rewrite Hp' in Hp. injection Hp as <-. exact Hdb.
  - destruct Hfail as (e & bc1 & Herr & _ & Hoff); [reflexivity|vm_compute; reflexivity|].
    exists e. rewrite Herr, (Hoff eq_refl). reflexivity.
Defined.

Lemma batch_saveHeadOps ops bc d :
  batch (ops ++ _saveHeadOps bc) d !! headHeaderKey = Some (VHead (_headHeader bc))
  /\ batch (ops ++ _saveHeadOps bc) d !! headBlockKey = Some (VHead (_headBlock bc))
  /\ batch (ops ++ _saveHeadOps bc) d !! headsKey = Some (VHeads (_heads bc)).
Proof.
  rewrite batch_app. unfold _saveHeadOps, batch. simpl.
  rewrite lookup_insert_eq.
  rewrite lookup_insert_ne, lookup_insert_eq by discriminate.
  rewrite !lookup_insert_ne, lookup_insert_eq by discriminate.
  auto.
Qed.

(** The test of [rebuildInfo] decides the header head: when the item is a
    genesis block or its total difficulty is strictly greater than the one
    [_getTd] finds for [_headHeader], [_headHeader] is the item's hash, in
    the object and in the store; otherwise [_headHeader] and every
    numberToHash entry stay as they were. *)
Lemma put_head_decision (fuel : nat) (cfg : Config) (item : Item)
    (isGenesis : bool) (bc bc' : Blockchain) :
  let hd := header (item_block item) in
  _putBlockOrHeader fuel cfg item isGenesis bc = Ok tt bc' ->
  exists currentTd td,
    getCurrentTd isGenesis bc = Some currentTd
    /\ getBlockTd isGenesis hd bc = Some td
    /\ (isGenesis = false ->
        exists hh, _headHeader bc = Some hh /\ _getTd hh None bc = Some currentTd.1)
    /\ (number hd = 0 \/ currentTd.1 < td ->
        _headHeader bc' = Some (hash hd)
        /\ db bc' !! headHeaderKey = Some (VHead (Some (hash hd))))
    /\ (number hd <> 0 -> td <= currentTd.1 ->
        _headHeader bc' = _headHeader bc
        /\ forall n, db bc' !! numberToHashKey n = db bc !! numberToHashKey n).
Proof.
  intros hd H. apply put_ok_inv in H as (epochs & cur & td & ops & bc1 & Hcur & Htd & Hr & ->).
  exists cur, td. split; [assumption|]. split; [assumption|].
  split.
  { intros ->. unfold getCurrentTd in Hcur.
    destruct (_headHeader bc) as [hh|]; [|discriminate].
    destruct (_headBlock bc) as [hb|]; [|discriminate].
    destruct (_getTd hh None bc) as [th|] eqn:Hth; [|discriminate].
    destruct (_getTd hb None bc) as [tb|]; [|discriminate].
    injection Hcur as <-. exists hh. split; [reflexivity|exact Hth]. }
  apply rebuildInfo_inv in Hr as (body_ops & extra & -> & Hbody & Hextra & Hdb & Hwin & Hlose).
  fold hd in Hbody, Hwin, Hlose |- *.
  unfold _batchDbOps. cbn [_headHeader db with_db].
  assert (Hw : winsHeader (item_block item) td cur.1 = true
               <-> number hd = 0 \/ cur.1 < td).
  { unfold winsHeader, block_isGenesis. fold hd.
    rewrite orb_true_iff, Z.eqb_eq, Z.gtb_ltb, Z.ltb_lt. reflexivity. }
  split.
  - intros Hyes. apply Hw in Hyes. specialize (Hwin Hyes).
    split; [assumption|].
    destruct (batch_saveHeadOps
                ([OpPut (tdKey (number hd) (hash hd)) (VTd td);
                  OpPut (headerKey (number hd) (hash hd)) (VHeader hd)]
                 ++ body_ops ++ extra) bc1 (db bc1)) as (-> & _).
    rewrite Hwin. reflexivity.
  - intros Hn Hle.
    assert (Hno : winsHeader (item_block item) td cur.1 = false).
    { destruct (winsHeader (item_block item) td cur.1); [|reflexivity].
      destruct Hw as [Hw _]. destruct (Hw eq_refl); [contradiction|lia]. }
    destruct (Hlose Hno) as [Hhh ->]. split; [exact Hhh|].
    intros n. rewrite batch_untouched;
      [rewrite Hdb; apply after_verifier_db; discriminate|].
    apply Forall_app. split; [|apply saveHeadOps_keys; discriminate].
    apply Forall_app. split; [repeat constructor; discriminate|].
    apply Forall_app. split; [|repeat constructor; discriminate].
    eapply Forall_impl; [exact Hbody|]. simpl. intros o ->. discriminate.
Qed.

(** ** The fix-up of stale heads *)




Lemma reset_stale_fields h bc :
  _heads (reset_stale h bc) = set_heads (default [] (_staleHeads bc)) h (_heads bc)
  /\ _headBlock (reset_stale h bc) = (if _staleHeadBlock bc then Some h else _headBlock bc)
  /\ _staleHeads (reset_stale h bc) = None
  /\ _staleHeadBlock (reset_stale h bc) = false.
Proof.
  unfold reset_stale. simpl. destruct (_staleHeadBlock bc) eqn:Hb; simpl; auto.
Qed.


(** ** Batches *)

Lemma batch_snoc ops o d : batch (ops ++ [o]) d = apply_op (batch ops d) o.
Proof. rewrite batch_app. reflexivity. Qed.

(** A value found after a batch was in the store or was put by the batch. *)
Lemma batch_origin ops d k v :
  batch ops d !! k = Some v -> d !! k = Some v \/ OpPut k v ∈ ops.
Proof.
  induction ops as [|o ops IH] using rev_ind; [auto|].
  rewrite batch_snoc. intros H. destruct o as [k0 v0|k0]; simpl in H.
  - destruct (decide (k0 = k)) as [->|Hne].
    + rewrite lookup_insert_eq in H. injection H as ->.
      right. apply elem_of_app. right. left.
    + rewrite lookup_insert_ne in H by assumption.
      destruct (IH H); [auto|]. right. apply elem_of_app. auto.
  - destruct (decide (k0 = k)) as [->|Hne].
    + rewrite lookup_delete_eq in H. discriminate.
    + rewrite lookup_delete_ne in H by assumption.
      destruct (IH H); [auto|]. right. apply elem_of_app. auto.
Qed.

(** When every operation of the batch on [k] puts [v], and [k] had that
    value or the batch names [k], then [k] has the value [v] afterwards. *)
Lemma batch_stable ops d k v :
  Forall (fun o => op_key o = k -> o = OpPut k v) ops ->
  d !! k = Some v \/ Exists (fun o => op_key o = k) ops ->
  batch ops d !! k = Some v.
Proof.
  induction ops as [|o ops IH] using rev_ind; intros Hall Hex.
  - destruct Hex as [?|Hex]; [assumption|]. inversion Hex.
  - apply Forall_app in Hall as [Hall Ho]. inversion Ho as [|? ? Ho' _]; subst.
    rewrite batch_snoc. destruct (decide (op_key o = k)) as [Hk|Hk].
    + rewrite (Ho' Hk). simpl. apply lookup_insert_eq.
    + assert (Hprev : batch ops d !! k = Some v).
      { apply IH; [assumption|]. destruct Hex as [?|Hex]; [auto|].
        apply Exists_app in Hex as [?|Hex]; [auto|].
        inversion Hex as [? ? Hhere|? ? Hnil]; subst; [contradiction|inversion Hnil]. }
      destruct o as [k0 v0|k0]; simpl in *.
      * rewrite lookup_insert_ne by assumption. assumption.
      * rewrite lookup_delete_ne by assumption. assumption.
Qed.

(** ** The caches follow the batch *)

Lemma coherent_db_get bc k : coherent bc -> db_get k bc = db bc !! k.
Proof.
  intros Hc. unfold db_get. destruct (cache_get k bc) as [v|] eqn:Hg; [|reflexivity].
  symmetry. apply Hc. assumption.
Qed.

Lemma lockstep_get d ops bc k v :
  lockstep d ops bc -> db_get k bc = Some v ->
  d !! k = Some v \/ OpPut k v ∈ ops.
Proof.
  intros [Hdb Hl]. unfold db_get.
  destruct (cache_get k bc) as [v'|] eqn:Hg.
  - intros [= ->]. apply batch_origin. apply Hl. assumption.
  - rewrite Hdb. auto.
Qed.

Lemma lockstep_set d ops bc k v :
  lockstep d ops bc -> lockstep d (ops ++ [OpPut k v]) (cache_set k v bc).
Proof.
  intros [Hdb Hl]. split.
  - destruct (cache_set_fields k v bc) as [-> _]. assumption.
  - intros k' v' Hg. rewrite batch_snoc. simpl.
    apply cache_get_cache_set in Hg as [[-> ->]|[Hne Hg]].
    + apply lookup_insert_eq.
    + rewrite lookup_insert_ne by congruence. apply Hl. assumption.
Qed.

Lemma lockstep_del d ops bc k :
  lockstep d ops bc -> lockstep d (ops ++ [OpDel k]) (cache_del k bc).
Proof.
  intros [Hdb Hl]. split.
  - destruct (cache_del_fields k bc) as [-> _]. assumption.
  - intros k' v' Hg. rewrite batch_snoc. simpl.
    rewrite cache_get_cache_del in Hg.
    destruct (decide (k' = k)) as [->|Hne]; [discriminate|].
    rewrite lookup_delete_ne by congruence. apply Hl. assumption.
Qed.

(** Writing a field outside the store and the caches keeps the caches in
    step. *)
Lemma lockstep_fields d ops bc bc' :
  db bc' = db bc -> cache bc' = cache bc -> lockstep d ops bc -> lockstep d ops bc'.
Proof.
  intros Hdb Hc [Hd Hl]. split; [congruence|].
  intros k v. unfold cache_get. rewrite Hc. apply Hl.
Qed.

(** ** What the walks append, with the caches in step *)

Lemma dbm_getHeader_Some h n bc x :
  dbm_getHeader h n bc = Some x -> db_get (headerKey n h) bc = Some (VHeader x).
Proof.
  unfold dbm_getHeader. destruct (db_get (headerKey n h) bc) as [[]|]; congruence.
Qed.

Lemma dbm_numberToHash_Some n bc h :
  dbm_numberToHash n bc = Some h -> db_get (numberToHashKey n) bc = Some (VHash h).
Proof.
  unfold dbm_numberToHash. destruct (db_get (numberToHashKey n) bc) as [[]|]; congruence.
Qed.

Lemma dbm_getTd_Some h n bc t :
  dbm_getTd h n bc = Some t -> db_get (tdKey n h) bc = Some (VTd t).
Proof.
  unfold dbm_getTd. destruct (db_get (tdKey n h) bc) as [[]|]; congruence.
Qed.

Lemma dbm_hashToNumber_Some h bc n :
  dbm_hashToNumber h bc = Some n -> db_get (hashToNumberKey h) bc = Some (VNumber n).
Proof.
  unfold dbm_hashToNumber. destruct (db_get (hashToNumberKey h) bc) as [[]|]; congruence.
Qed.

Lemma deleteStale_spec d fuel :
  forall num headHash ops bc ops' bc',
    lockstep d ops bc ->
    _deleteStaleAssignments fuel num headHash ops bc = Ok ops' bc' ->
    exists extra,
      ops' = ops ++ extra /\ Forall is_n2h_del extra /\ lockstep d ops' bc'
      /\ _headHeader bc' = _headHeader bc
      /\ (_headBlock bc' = _headBlock bc \/ _headBlock bc' = Some headHash).
Proof.
  induction fuel as [|fuel IH]; intros num headHash ops bc ops' bc' Hl H; [discriminate|].
  rewrite _deleteStaleAssignments_S in H. cbv zeta in H.
  destruct (dbm_numberToHash num bc) as [stale|].
  - set (bc1 := with_heads _ _) in H.
    destruct (cache_del_fields (numberToHashKey num) bc) as (_ & _ & _ & _ & Hhh & Hhb & _).
    assert (Hl1 : lockstep d (ops ++ [OpDel (numberToHashKey num)]) bc1).
    { eapply lockstep_fields; [| |apply lockstep_del, Hl]; reflexivity. }
    destruct (_headBlock bc1) as [hb|] eqn:Hb1; [|discriminate].
    apply IH in H as (extra & -> & Hall & Hl' & Hhh' & Hhb').
    + exists (OpDel (numberToHashKey num) :: extra).
      split; [rewrite <- app_assoc; reflexivity|].
      split; [constructor; [eexists; reflexivity|assumption]|].
      split; [assumption|].
      change (_headBlock bc1) with (_headBlock (cache_del (numberToHashKey num) bc)) in Hb1.
      split.
      * rewrite Hhh'. destruct (decide (hb = stale)); simpl; assumption.
      * destruct Hhb' as [Hhb'|?]; [|auto]. rewrite Hhb'.
        destruct (decide (hb = stale)); simpl; [auto|].
        left. congruence.
    + destruct (decide (hb = stale)); [|assumption].
      eapply lockstep_fields; [| |exact Hl1]; reflexivity.
  - injection H as <- <-. exists []. rewrite app_nil_r.
    split; [reflexivity|]. split; [constructor|]. auto.
Qed.

Lemma flag_stale_heads_core s bc :
  db (flag_stale_heads s bc) = db bc /\ cache (flag_stale_heads s bc) = cache bc
  /\ _headBlock (flag_stale_heads s bc) = _headBlock bc.
Proof.
  unfold flag_stale_heads. destruct s as [s|]; [|auto].
  destruct (stale_names s (_heads bc)); auto.
Qed.

Lemma flag_stale_headBlock_core s bc bc' :
  flag_stale_headBlock s bc = Some bc' ->
  db bc' = db bc /\ cache bc' = cache bc /\ _headBlock bc' = _headBlock bc.
Proof.
  unfold flag_stale_headBlock. destruct s as [s|].
  - destruct (_headBlock bc) as [hb|] eqn:Hb; [|discriminate].
    intros [= <-]. destruct (decide (hb = s)); auto.
  - intros [= <-]. auto.
Qed.

Lemma reset_stale_core h bc :
  db (reset_stale h bc) = db bc /\ cache (reset_stale h bc) = cache bc.
Proof. unfold reset_stale. simpl. destruct (_staleHeadBlock bc); auto. Qed.

Lemma good_op_header_put d hd t n h x ops :
  Forall (good_op d hd t) ops -> OpPut (headerKey n h) (VHeader x) ∈ ops -> x = hd.
Proof.
  intros Hall Hin. rewrite Forall_forall in Hall. apply Hall in Hin.
  simpl in Hin. destruct Hin as (_ & _ & Hv). congruence.
Qed.

Lemma rebuild_spec d hd t fuel :
  WfDb d ->
  forall y ops bc ops' bc',
    lockstep d ops bc -> Forall (good_op d hd t) ops -> known d hd y ->
    _rebuildCanonical fuel y ops bc = Ok ops' bc' ->
    exists extra,
      ops' = ops ++ extra /\ Forall (good_op d hd t) extra /\ lockstep d ops' bc'
      /\ _headHeader bc' = _headHeader bc
      /\ (_headBlock bc' = _headBlock bc
          \/ exists x, known d hd x /\ _headBlock bc' = Some (hash x))
      /\ (OpPut (hashToNumberKey (hash y)) (VNumber (number y)) ∈ extra
          \/ dbm_numberToHash (number y) bc = Some (hash y)).
Proof.
  intros Hwf. induction fuel as [|fuel IH]; intros y ops bc ops' bc' Hl Hgood Hy H;
    [discriminate|].
  rewrite _rebuildCanonical_S in H. cbv zeta in H.
  set (a := OpPut (numberToHashKey (number y)) (VHash (hash y))) in H.
  set (b := OpPut (hashToNumberKey (hash y)) (VNumber (number y))) in H.
  set (bc1 := cache_set (hashToNumberKey _) _ _) in H.
  assert (Hl1 : lockstep d (ops ++ [a; b]) bc1).
  { change (ops ++ [a; b]) with (ops ++ [a] ++ [b]). rewrite app_assoc.
    apply lockstep_set, lockstep_set, Hl. }
  assert (Hab : Forall (good_op d hd t) [a; b]).
  { constructor; [|constructor; [|constructor]].
    - exists y. auto.
    - exists y. auto. }
  assert (Hf1 : _headHeader bc1 = _headHeader bc /\ _headBlock bc1 = _headBlock bc).
  { destruct (cache_set_fields (hashToNumberKey (hash y)) (VNumber (number y))
                (cache_set (numberToHashKey (number y)) (VHash (hash y)) bc))
      as (_ & _ & _ & _ & H1 & H2 & _).
    destruct (cache_set_fields (numberToHashKey (number y)) (VHash (hash y)) bc)
      as (_ & _ & _ & _ & H3 & H4 & _).
    fold bc1 in H1, H2. split; congruence. }
  destruct Hf1 as [Hhh1 Hhb1].
  destruct (number y =? 0).
  { injection H as <- <-. exists [a; b].
    split; [reflexivity|]. split; [assumption|]. split; [assumption|].
    split; [assumption|]. split; [auto|]. left. right. left. }
  destruct (bool_decide (dbm_numberToHash (number y) bc = Some (hash y))) eqn:Hstop.
  { injection H as <- <-. exists []. rewrite app_nil_r.
    destruct (reset_stale_core (hash y) bc) as [Hdb Hc].
    destruct (reset_stale_fields (hash y) bc) as (_ & Hhb & _).
    split; [reflexivity|]. split; [constructor|].
    split; [eapply lockstep_fields; eassumption|].
    split; [unfold reset_stale; simpl; destruct (_staleHeadBlock bc); reflexivity|].
    split.
    - rewrite Hhb. destruct (_staleHeadBlock bc); [|auto]. right. exists y. auto.
    - right. apply bool_decide_eq_true in Hstop. assumption. }
  set (bc2 := flag_stale_heads _ _) in H.
  destruct (flag_stale_heads_core (dbm_numberToHash (number y) bc) bc1) as (Hdb2 & Hc2 & Hhb2).
  fold bc2 in Hdb2, Hc2, Hhb2.
  assert (Hhh2 : _headHeader bc2 = _headHeader bc1).
  { apply (flag_stale_heads_store (dbm_numberToHash (number y) bc) bc1). }
  destruct (flag_stale_headBlock _ bc2) as [bc3|] eqn:Hflag; [|discriminate].
  assert (Hhh3 : _headHeader bc3 = _headHeader bc2).
  { apply (flag_stale_headBlock_store _ _ _ Hflag). }
  apply flag_stale_headBlock_core in Hflag as (Hdb3 & Hc3 & Hhb3).
  assert (Hl3 : lockstep d (ops ++ [a; b]) bc3).
  { eapply lockstep_fields; [| |exact Hl1]; congruence. }
  destruct (_getHeader (parentHash y) (Some (number y - 1)) bc3) as [x|] eqn:Hparent;
    [|discriminate].
  assert (Hx : known d hd x).
  { unfold _getHeader in Hparent. simpl in Hparent.
    apply dbm_getHeader_Some in Hparent.
    destruct (lockstep_get _ _ _ _ _ Hl3 Hparent) as [Hd|Hin].
    - right. destruct (wf_header d Hwf _ _ _ Hd) as (x' & [= <-] & Hh & Hn & _).
      rewrite Hh, Hn. assumption.
    - left.
      apply (good_op_header_put d hd t (number y - 1) (parentHash y) x (ops ++ [a; b]));
        [apply Forall_app; split; assumption|exact Hin]. }
  apply IH in H as (extra & -> & Hall & Hl' & Hhh' & Hhb' & _);
    [|assumption|apply Forall_app; split; assumption|assumption].
  exists ([a; b] ++ extra).
  split; [rewrite app_assoc; reflexivity|].
  split; [apply Forall_app; split; assumption|].
  split; [assumption|].
  split; [congruence|].
  split.
  - destruct Hhb' as [Hhb'|?]; [|auto]. left. congruence.
  - left. apply elem_of_app. left. right. left.
Qed.

Lemma coherent_lockstep bc : coherent bc -> lockstep (db bc) [] bc.
Proof. intros Hc. split; [reflexivity|exact Hc]. Qed.

Lemma save_block_spec isGenesis block td bc :
  coherent bc ->
  exists ops0 bc0,
    save_block isGenesis block td bc = (ops0, bc0)
    /\ Forall (good_op (db bc) (header block) td) ops0
    /\ lockstep (db bc) ops0 bc0
    /\ OpPut (tdKey (number (header block)) (hash (header block))) (VTd td) ∈ ops0
    /\ OpPut (headerKey (number (header block)) (hash (header block)))
         (VHeader (header block)) ∈ ops0
    /\ Forall (fun o => family (op_key o) <> Some FNumberToHash) ops0
    /\ same_fields bc0 bc.
Proof.
  intros Hc. apply coherent_lockstep in Hc.
  set (a := OpPut (tdKey (number (header block)) (hash (header block))) (VTd td)).
  set (b := OpPut (headerKey (number (header block)) (hash (header block)))
              (VHeader (header block))).
  set (c := OpPut (bodyKey (number (header block)) (hash (header block)))
              (VBody (transactions block) (uncleHeaders block))).
  pose proof (lockstep_set _ _ _ (tdKey (number (header block)) (hash (header block)))
                (VTd td) Hc) as Hl1.
  pose proof (lockstep_set _ _ _ (headerKey (number (header block)) (hash (header block)))
                (VHeader (header block)) Hl1) as Hl2.
  pose proof (lockstep_set _ _ _ (bodyKey (number (header block)) (hash (header block)))
                (VBody (transactions block) (uncleHeaders block)) Hl2) as Hl3.
  pose proof (cache_set_fields (tdKey (number (header block)) (hash (header block)))
                (VTd td) bc) as Hf1.
  pose proof (cache_set_fields (headerKey (number (header block)) (hash (header block)))
                (VHeader (header block))
                (cache_set (tdKey (number (header block)) (hash (header block)))
                   (VTd td) bc)) as Hf2.
  pose proof (cache_set_fields (bodyKey (number (header block)) (hash (header block)))
                (VBody (transactions block) (uncleHeaders block))
                (cache_set (headerKey (number (header block)) (hash (header block)))
                   (VHeader (header block))
                   (cache_set (tdKey (number (header block)) (hash (header block)))
                      (VTd td) bc))) as Hf3.
  assert (Ha : good_op (db bc) (header block) td a) by (simpl; auto).
  assert (Hb : good_op (db bc) (header block) td b) by (simpl; auto).
  assert (Hcg : good_op (db bc) (header block) td c) by exact I.
  unfold save_block. destruct (has_body isGenesis block).
  - eexists _, _. split; [reflexivity|].
    split; [repeat constructor; assumption|].
    split; [exact Hl3|].
    split; [left|]. split; [right; left|].
    split; [repeat constructor; discriminate|].
    unfold same_fields in *. intuition congruence.
  - eexists _, _. split; [reflexivity|].
    split; [repeat constructor; assumption|].
    split; [exact Hl2|].
    split; [left|]. split; [right; left|].
    split; [repeat constructor; discriminate|].
    unfold same_fields in *. intuition congruence.
Qed.

Lemma is_n2h_del_good d hd t ops :
  Forall is_n2h_del ops -> Forall (good_op d hd t) ops.
Proof. intros H. eapply Forall_impl; [exact H|]. intros o [n ->]. exact I. Qed.

(** What a successful [rebuildInfo] over a well-formed store with coherent
    caches hands to the batch, and where it leaves the two heads. *)
Lemma rebuildInfo_spec fuel isGenesis isHeader block td cur bc ops bc1 :
  coherent bc -> WfDb (db bc) ->
  rebuildInfo fuel isGenesis isHeader block td cur bc = Ok ops bc1 ->
  Forall (good_op (db bc) (header block) td) ops
  /\ lockstep (db bc) ops bc1
  /\ OpPut (tdKey (number (header block)) (hash (header block))) (VTd td) ∈ ops
  /\ OpPut (headerKey (number (header block)) (hash (header block)))
       (VHeader (header block)) ∈ ops
  /\ (OpPut (hashToNumberKey (hash (header block))) (VNumber (number (header block))) ∈ ops
      \/ db bc !! numberToHashKey (number (header block)) = Some (VHash (hash (header block))))
  /\ _headHeader bc1 = (if winsHeader block td cur.1 then Some (hash (header block))
                        else _headHeader bc)
  /\ (_headBlock bc1 = _headBlock bc
      \/ exists x, known (db bc) (header block) x /\ _headBlock bc1 = Some (hash x)).
Proof.
  intros Hc Hwf. unfold rebuildInfo.
  destruct (save_block_spec isGenesis block td bc Hc)
    as (ops0 & bc0 & -> & Hgood0 & Hl0 & Htd & Hhdr & Hnon & Hf0).
  destruct Hf0 as (Hdb0 & _ & _ & _ & Hhh0 & Hhb0 & _).
  set (hd := header block) in *. set (H := hash hd) in *. set (N := number hd) in *.
  assert (Hknown : known (db bc) hd hd) by (left; reflexivity).
  destruct (winsHeader block td cur.1).
  - set (bcw := if block_isGenesis block then _ else _).
    assert (Hlw : lockstep (db bc) ops0 bcw).
    { eapply lockstep_fields; [| |exact Hl0];
        unfold bcw; destruct (block_isGenesis block), isHeader; reflexivity. }
    assert (Hhbw : _headBlock bcw = _headBlock bc \/ _headBlock bcw = Some H).
    { unfold bcw. destruct (block_isGenesis block), isHeader; simpl; auto. }
    assert (Hhhw : _headHeader bcw = Some H).
    { unfold bcw. destruct (block_isGenesis block), isHeader; reflexivity. }
    destruct (_deleteStaleAssignments fuel (N + 1) H ops0 bcw) as [ops1 bcd| |] eqn:Hdel;
      try discriminate.
    intros Hreb.
    destruct (deleteStale_spec _ _ _ _ _ _ _ _ Hlw Hdel)
      as (dels & -> & Hdels & Hld & Hhhd & Hhbd).
    assert (Hgood1 : Forall (good_op (db bc) hd td) (ops0 ++ dels)).
    { apply Forall_app. split; [assumption|]. apply is_n2h_del_good. assumption. }
    destruct (rebuild_spec _ hd td _ Hwf _ _ _ _ _ Hld Hgood1 Hknown Hreb)
      as (extra & -> & Hextra & Hlr & Hhhr & Hhbr & Hfirst).
    split; [apply Forall_app; split; assumption|].
    split; [assumption|].
    split; [rewrite !elem_of_app; auto|].
    split; [rewrite !elem_of_app; auto|].
    split; [|split].
    + destruct Hfirst as [Hin|Hstop]; [left; rewrite elem_of_app; auto|].
      right. apply dbm_numberToHash_Some in Hstop.
      destruct (lockstep_get _ _ _ _ _ Hld Hstop) as [?|Hin]; [assumption|].
      exfalso. apply elem_of_app in Hin as [Hin|Hin].
      * rewrite Forall_forall in Hnon. apply (Hnon _ Hin). reflexivity.
      * rewrite Forall_forall in Hdels. destruct (Hdels _ Hin) as [n Hn]. discriminate.
    + congruence.
    + destruct Hhbr as [Hhbr|?]; [|auto]. rewrite Hhbr.
      destruct Hhbd as [->| ->].
      * destruct Hhbw as [->| ->]; [auto|]. right. exists hd. auto.
      * right. exists hd. auto.
  - intros [= <- <-].
    set (bce := if _ && _ then _ else _).
    assert (Hle : lockstep (db bc) ops0 bce).
    { eapply lockstep_fields; [| |exact Hl0]; unfold bce; destruct (_ && _); reflexivity. }
    destruct (cache_set_fields (hashToNumberKey H) (VNumber N) bce)
      as (_ & _ & _ & _ & Hhh & Hhb & _).
    split; [apply Forall_app; split; [assumption|]|].
    { constructor; [|constructor]. exists hd. auto. }
    split; [apply lockstep_set; assumption|].
    split; [rewrite elem_of_app; auto|].
    split; [rewrite elem_of_app; auto|].
    split; [left; rewrite elem_of_app; right; left|].
    split.
    + rewrite Hhh. unfold bce. destruct (_ && _); simpl; assumption.
    + rewrite Hhb. unfold bce. destruct (_ && _); simpl.
      * right. exists hd. auto.
      * left. assumption.
Qed.

(** ** The store after the batch of a put *)

Section GoodBatch.

Variable d : gmap Key Value.
Variable hd : Header.
Variable t : Z.
Variable ops tail : list Op.

Hypothesis Hwf : WfDb d.
Hypothesis Hgood : Forall (good_op d hd t) ops.
Hypothesis Htdput : OpPut (tdKey (number hd) (hash hd)) (VTd t) ∈ ops.
Hypothesis Hhdput : OpPut (headerKey (number hd) (hash hd)) (VHeader hd) ∈ ops.
Hypothesis Hindex :
  OpPut (hashToNumberKey (hash hd)) (VNumber (number hd)) ∈ ops
  \/ d !! numberToHashKey (number hd) = Some (VHash (hash hd)).
Hypothesis Hsame : forall v, d !! tdKey (number hd) (hash hd) = Some v -> v = VTd t.
Hypothesis Hparent : number hd <> 0 ->
  exists tp, d !! tdKey (number hd - 1) (parentHash hd) = Some (VTd tp)
             /\ t = difficulty hd + tp.
Hypothesis Htail : Forall (fun o => family (op_key o) = None) tail.

Let d' := batch (ops ++ tail) d.

Lemma tail_key o k : o ∈ tail -> family k <> None -> op_key o <> k.
Proof.
  intros Hin Hk Heq. rewrite Forall_forall in Htail.
  apply Htail in Hin. congruence.
Qed.

Lemma Exists_elem (o : Op) (l : list Op) k : o ∈ l -> op_key o = k ->
  Exists (fun o => op_key o = k) l.
Proof. intros Hin Hk. apply Exists_exists. exists o. auto. Qed.

Lemma good_header_key o n h :
  good_op d hd t o -> op_key o = headerKey n h ->
  o = OpPut (headerKey (number hd) (hash hd)) (VHeader hd)
  /\ n = number hd /\ h = hash hd.
Proof.
  destruct o as [k v|k]; simpl; intros Hg ->; simpl in Hg; [|contradiction].
  destruct Hg as (-> & -> & ->). auto.
Qed.

Lemma good_td_key o n h :
  good_op d hd t o -> op_key o = tdKey n h ->
  o = OpPut (tdKey (number hd) (hash hd)) (VTd t) /\ n = number hd /\ h = hash hd.
Proof.
  destruct o as [k v|k]; simpl; intros Hg ->; simpl in Hg; [|contradiction].
  destruct Hg as (-> & -> & ->). auto.
Qed.

Lemma good_batch_header n h :
  d' !! headerKey n h
  = if decide (n = number hd /\ h = hash hd) then Some (VHeader hd)
    else d !! headerKey n h.
Proof.
  unfold d'. destruct (decide (n = number hd /\ h = hash hd)) as [[-> ->]|Hne].
  - apply batch_stable.
    + apply Forall_app. split; apply Forall_forall; intros o Hin Hk.
      * rewrite Forall_forall in Hgood.
        apply (good_header_key o _ _ (Hgood _ Hin) Hk).
      * exfalso. refine (tail_key o _ Hin _ Hk). discriminate.
    + right. apply Exists_app. left. eapply Exists_elem; [exact Hhdput|reflexivity].
  - apply batch_untouched. apply Forall_app. split; apply Forall_forall; intros o Hin Hk.
    + rewrite Forall_forall in Hgood.
      destruct (good_header_key o _ _ (Hgood _ Hin) Hk) as (_ & ? & ?). tauto.
    + refine (tail_key o _ Hin _ Hk). discriminate.
Qed.

Lemma good_batch_td n h :
  d' !! tdKey n h
  = if decide (n = number hd /\ h = hash hd) then Some (VTd t) else d !! tdKey n h.
Proof.
  unfold d'. destruct (decide (n = number hd /\ h = hash hd)) as [[-> ->]|Hne].
  - apply batch_stable.
    + apply Forall_app. split; apply Forall_forall; intros o Hin Hk.
      * rewrite Forall_forall in Hgood.
        apply (good_td_key o _ _ (Hgood _ Hin) Hk).
      * exfalso. refine (tail_key o _ Hin _ Hk). discriminate.
    + right. apply Exists_app. left. eapply Exists_elem; [exact Htdput|reflexivity].
  - apply batch_untouched. apply Forall_app. split; apply Forall_forall; intros o Hin Hk.
    + rewrite Forall_forall in Hgood.
      destruct (good_td_key o _ _ (Hgood _ Hin) Hk) as (_ & ? & ?). tauto.
    + refine (tail_key o _ Hin _ Hk). discriminate.
Qed.

(** A header stored after the batch is the header of the put or was
    stored before. *)
Lemma good_batch_header_inv n h v :
  d' !! headerKey n h = Some v ->
  exists x, v = VHeader x /\ hash x = h /\ number x = n
            /\ (x = hd \/ d !! headerKey n h = Some (VHeader x)).
Proof.
  rewrite good_batch_header.
  destruct (decide (n = number hd /\ h = hash hd)) as [[-> ->]|Hne].
  - intros [= <-]. exists hd. auto.
  - intros Hd. destruct (wf_header d Hwf _ _ _ Hd) as (x & -> & Hh & Hn & _).
    exists x. auto.
Qed.

Lemma good_batch_known x :
  known d hd x -> d' !! headerKey (number x) (hash x) = Some (VHeader x).
Proof.
  intros Hk. rewrite good_batch_header.
  destruct (decide (number x = number hd /\ hash x = hash hd)) as [[_ Hh]|Hne].
  - apply hash_inj in Hh. congruence.
  - destruct Hk as [->|Hk]; [tauto|assumption].
Qed.

Lemma good_batch_index n h v :
  d' !! headerKey n h = Some v -> d' !! hashToNumberKey h = Some (VNumber n).
Proof.
  intros Hd'. destruct (good_batch_header_inv _ _ _ Hd') as (x & -> & Hh & Hn & Hx).
  unfold d'. apply batch_stable.
  - apply Forall_app. split; apply Forall_forall; intros o Hin Hk.
    + rewrite Forall_forall in Hgood. specialize (Hgood _ Hin).
      destruct o as [k v|k]; simpl in Hk; subst k; simpl in Hgood; [|contradiction].
      destruct Hgood as (x' & Hx' & ->).
      assert (x' = x) by (apply hash_inj; congruence). subst x'.
      rewrite Hn. reflexivity.
    + exfalso. refine (tail_key o _ Hin _ Hk). discriminate.
  - destruct Hx as [->|Hd].
    + subst n h. destruct Hindex as [Hin|Hcan].
      * right. apply Exists_app. left. eapply Exists_elem; [exact Hin|reflexivity].
      * left. destruct (wf_canonical d Hwf _ _ Hcan) as (x & [= Hx] & Hhx).
        destruct (wf_header d Hwf _ _ _ Hhx) as (_ & _ & _ & _ & Hix & _).
        rewrite Hx. assumption.
    + left. destruct (wf_header d Hwf _ _ _ Hd) as (_ & _ & _ & _ & Hix & _).
      assumption.
Qed.

(** The store after the batch is well formed. *)
Lemma good_batch_wf : WfDb d'.
Proof.
  constructor.
  - intros n h v Hd'.
    destruct (good_batch_header_inv _ _ _ Hd') as (x & -> & Hh & Hn & Hx).
    exists x. split; [reflexivity|]. split; [assumption|]. split; [assumption|].
    split; [eapply good_batch_index; eassumption|].
    rewrite good_batch_td.
    destruct (decide (n = number hd /\ h = hash hd)) as [|Hne]; [eauto|].
    destruct Hx as [->|Hd]; [exfalso; apply Hne; split; congruence|].
    destruct (wf_header d Hwf _ _ _ Hd) as (_ & _ & _ & _ & _ & Ht). assumption.
  - intros n h v. rewrite good_batch_td, good_batch_header.
    destruct (decide (n = number hd /\ h = hash hd)); [eauto|].
    apply (wf_td d Hwf).
  - intros n h x Hd' Hn0.
    destruct (good_batch_header_inv _ _ _ Hd') as (x' & [= <-] & Hh & Hn & Hx).
    rewrite !good_batch_td.
    destruct (decide (n = number hd /\ h = hash hd)) as [[-> ->]|Hne].
    + assert (x = hd) by (apply hash_inj; assumption). subst x.
      destruct (Hparent Hn0) as (tp & Htp & ->).
      exists tp. rewrite decide_False by lia. auto.
    + destruct Hx as [->|Hd]; [exfalso; apply Hne; split; congruence|].
      destruct (wf_sum d Hwf _ _ _ Hd Hn0) as (tp & Htp & Htd).
      exists tp. split; [|assumption].
      destruct (decide (n - 1 = number hd /\ parentHash x = hash hd)) as [[Hn1 Hph]|];
        [|assumption].
      rewrite Hn1, Hph in Htp. rewrite (Hsame _ Htp). reflexivity.
  - intros n v Hd'. unfold d' in Hd'.
    apply batch_origin in Hd' as [Hd|Hin].
    + destruct (wf_canonical d Hwf _ _ Hd) as (x & -> & Hx).
      exists x. split; [reflexivity|].
      destruct (wf_header d Hwf _ _ _ Hx) as (x' & [= <-] & _ & Hn & _).
      rewrite <- Hn. apply good_batch_known. right. rewrite Hn. assumption.
    + apply elem_of_app in Hin as [Hin|Hin].
      * pose proof (proj1 (Forall_forall _ _) Hgood _ Hin) as Hg. simpl in Hg.
        destruct Hg as (x & -> & <- & Hk).
        exists x. split; [reflexivity|]. apply good_batch_known. assumption.
      * exfalso. refine (tail_key _ (numberToHashKey n) Hin _ eq_refl). discriminate.
Qed.

End GoodBatch.

(** ** A put keeps the invariant *)

Lemma cache_get_family k bc v : cache_get k bc = Some v -> family k <> None.
Proof. unfold cache_get. destruct (family k); [discriminate|discriminate]. Qed.

Lemma saveHeadOps_family bc :
  Forall (fun o => family (op_key o) = None) (_saveHeadOps bc).
Proof. repeat constructor. Qed.

(** The commit of what [rebuildInfo] prepared. *)
Lemma put_commit fuel isGenesis isHeader block td cur bc ops bc1 :
  let hd := header block in
  coherent bc -> WfDb (db bc) ->
  rebuildInfo fuel isGenesis isHeader block td cur bc = Ok ops bc1 ->
  (forall v, db bc !! tdKey (number hd) (hash hd) = Some v -> v = VTd td) ->
  (number hd <> 0 ->
   exists tp, db bc !! tdKey (number hd - 1) (parentHash hd) = Some (VTd tp)
              /\ td = difficulty hd + tp) ->
  let bcp := _batchDbOps (ops ++ _saveHeadOps bc1) bc1 in
  coherent bcp /\ WfDb (db bcp)
  /\ (forall n h, db bcp !! tdKey n h
                  = if decide (n = number hd /\ h = hash hd) then Some (VTd td)
                    else db bc !! tdKey n h)
  /\ (forall n h, db bcp !! headerKey n h
                  = if decide (n = number hd /\ h = hash hd) then Some (VHeader hd)
                    else db bc !! headerKey n h)
  /\ _headHeader bcp = (if winsHeader block td cur.1 then Some (hash hd)
                        else _headHeader bc)
  /\ (_headBlock bcp = _headBlock bc
      \/ exists x, _headBlock bcp = Some (hash x)
                   /\ db bcp !! headerKey (number x) (hash x) = Some (VHeader x)).
Proof.
  intros hd Hc Hwf Hr Hsame Hparent bcp.
  destruct (rebuildInfo_spec _ _ _ _ _ _ _ _ _ Hc Hwf Hr)
    as (Hgood & [Hdb Hl] & Htdput & Hhdput & Hindex & Hhh & Hhb).
  fold hd in Hgood, Htdput, Hhdput, Hindex, Hhh, Hhb.
  assert (Hdbp : db bcp = batch (ops ++ _saveHeadOps bc1) (db bc)).
  { unfold bcp, _batchDbOps. simpl. rewrite Hdb. reflexivity. }
  pose proof (saveHeadOps_family bc1) as Htail.
  split; [|split; [|split; [|split; [|split]]]].
  - intros k v Hg. unfold bcp, _batchDbOps in Hg. rewrite cache_get_with_db in Hg.
    rewrite Hdbp, batch_app. rewrite batch_untouched; [apply Hl; assumption|].
    apply saveHeadOps_keys. eapply cache_get_family. eassumption.
  - rewrite Hdbp.
    apply (good_batch_wf (db bc) hd td ops (_saveHeadOps bc1)); assumption.
  - intros n h. rewrite Hdbp.
    apply (good_batch_td (db bc) hd td ops (_saveHeadOps bc1)); assumption.
  - intros n h. rewrite Hdbp.
    apply (good_batch_header (db bc) hd td ops (_saveHeadOps bc1)); assumption.
  - exact Hhh.
  - destruct Hhb as [?|(x & Hk & Hx)]; [left; assumption|].
    right. exists x. split; [assumption|]. rewrite Hdbp.
    apply (good_batch_known (db bc) hd td ops (_saveHeadOps bc1)); assumption.
Qed.

(** With coherent caches over a well-formed store, [_getTd] of a stored
    header finds the total difficulty stored with it. *)
Lemma getTd_stored bc n h :
  coherent bc -> WfDb (db bc) -> is_Some (db bc !! headerKey n h) ->
  exists t, db bc !! tdKey n h = Some (VTd t) /\ _getTd h None bc = Some t.
Proof.
  intros Hc Hwf [v Hv].
  destruct (wf_header _ Hwf _ _ _ Hv) as (x & _ & _ & _ & Hix & t & Ht).
  exists t. split; [assumption|].
  unfold _getTd, _lookupByHashNumber, dbm_hashToNumber, dbm_getTd.
  rewrite (coherent_db_get _ _ Hc), Hix.
  rewrite (coherent_db_get _ _ Hc), Ht. reflexivity.
Qed.

Lemma put_preserves_Inv fuel cfg item bc bc' :
  Inv bc ->
  1 <= number (header (item_block item)) ->
  _putBlockOrHeader fuel cfg item false bc = Ok tt bc' ->
  Inv bc'.
Proof.
  intros Hinv Hnum Hput. apply put_pow_inv in Hput as [epochs Hput].
  apply (Inv_after_verifier epochs) in Hinv.
  revert Hinv Hput. generalize (after_verifier epochs bc). clear bc.
  intros bc (Hc & Hwf & T & Hbnd & (hh & nh & Hhh & Hhdr & HT) & (hb & nb & Hhb & Hbdr)) Hput.
  apply tasks_ok_inv in Hput as (cur & td & ops & bc1 & Hcur & Htd & Hr & ->).
  set (block := item_block item) in *. set (hd := header block) in *.
  (* the current total difficulty of the head *)
  assert (HcurT : cur.1 = T).
  { unfold getCurrentTd in Hcur. rewrite Hhh, Hhb in Hcur.
    destruct (getTd_stored bc nh hh Hc Hwf Hhdr) as (t & Ht & Hg).
    rewrite Hg in Hcur. destruct (_getTd hb None bc); [|discriminate].
    injection Hcur as <-. simpl. congruence. }
  (* the total difficulty of the parent *)
  assert (Hparent : exists tp, db bc !! tdKey (number hd - 1) (parentHash hd) = Some (VTd tp)
                               /\ td = difficulty hd + tp).
  { unfold getBlockTd, _getTd in Htd. simpl in Htd.
    destruct (dbm_getTd (parentHash hd) (number hd - 1) bc) as [tp|] eqn:Hp; [|discriminate].
    injection Htd as <-. exists tp. split; [|reflexivity].
    apply dbm_getTd_Some in Hp. rewrite (coherent_db_get _ _ Hc) in Hp. assumption. }
  destruct Hparent as (tp & Htp & Htdeq).
  (* a second put of the same header finds the same total difficulty *)
  assert (Hsame : forall v, db bc !! tdKey (number hd) (hash hd) = Some v -> v = VTd td).
  { intros v Hv. destruct (wf_td _ Hwf _ _ _ Hv) as [w Hw].
    destruct (wf_header _ Hwf _ _ _ Hw) as (x & -> & Hx & _).
    apply hash_inj in Hx. subst x.
    destruct (wf_sum _ Hwf _ _ _ Hw) as (tp' & Htp' & Htd'); [lia|].
    rewrite Htp in Htp'. injection Htp' as <-. rewrite Hv in Htd'.
    injection Htd' as ->. congruence. }
  destruct (put_commit _ _ _ _ _ _ _ _ _ Hc Hwf Hr Hsame)
    as (Hc' & Hwf' & Htdm & Hhdm & Hhh' & Hhb'); [eauto|].
  fold hd in Htdm, Hhdm, Hhh', Hhb'.
  set (bcp := _batchDbOps (ops ++ _saveHeadOps bc1) bc1) in *.
  assert (Hwins : winsHeader block td cur.1 = true -> T < td).
  { unfold winsHeader, block_isGenesis. fold hd. rewrite HcurT.
    rewrite orb_true_iff, Z.eqb_eq, Z.gtb_ltb, Z.ltb_lt. lia. }
  assert (Hloses : winsHeader block td cur.1 = false -> td <= T).
  { unfold winsHeader, block_isGenesis. fold hd. rewrite HcurT.
    rewrite orb_false_iff, Z.gtb_ltb, Z.ltb_ge. lia. }
  split; [assumption|]. split; [assumption|].
  exists (if winsHeader block td cur.1 then td else T).
  split; [|split].
  - intros n h t. rewrite Htdm.
    destruct (decide (n = number hd /\ h = hash hd)).
    + intros [= <-]. destruct (winsHeader block td cur.1); [lia|auto].
    + intros Ht. apply Hbnd in Ht.
      destruct (winsHeader block td cur.1); [specialize (Hwins eq_refl); lia|assumption].
  - rewrite Hhh'. destruct (winsHeader block td cur.1).
    + exists (hash hd), (number hd). split; [reflexivity|].
      rewrite Htdm, Hhdm, !decide_True by auto. eauto.
    + exists hh, nh. split; [assumption|]. rewrite Htdm, Hhdm.
      destruct (decide (nh = number hd /\ hh = hash hd)) as [[-> ->]|]; [|auto].
      split; [eauto|]. rewrite (Hsame _ HT). reflexivity.
  - destruct Hhb' as [->|(x & -> & Hx)].
    + exists hb, nb. split; [assumption|]. rewrite Hhdm.
      destruct (decide (nb = number hd /\ hb = hash hd)); [eauto|assumption].
    + exists (hash x), (number x). split; [reflexivity|]. rewrite Hx. eauto.
Qed.

Lemma put_all_preserves_Inv fuel cfg items :
  forall bc bc',
    Inv bc ->
    Forall (fun item => 1 <= number (header (item_block item))) items ->
    put_all fuel cfg items bc = Some bc' ->
    Inv bc'.
Proof.
  induction items as [|item items IH]; intros bc bc' Hinv Hall Hrun; simpl in Hrun.
  - injection Hrun as <-. assumption.
  - inversion Hall as [|? ? Hitem Hrest]; subst.
    destruct (_putBlockOrHeader fuel cfg item false bc) as [[] bc1| |] eqn:Hput;
      try discriminate.
    eapply IH; [|eassumption|eassumption].
    eapply put_preserves_Inv; eassumption.
Qed.

(** The invariant gives head consistency. *)
Lemma Inv_head_consistent bc : Inv bc -> head_consistent bc.
Proof.
  intros (Hc & Hwf & T & Hbnd & (hh & nh & Hhh & Hhdr & HT) & (hb & nb & Hhb & Hbdr)).
  destruct (getTd_stored bc nh hh Hc Hwf Hhdr) as (t & Ht & Hg).
  assert (t = T) by congruence. subst t.
  destruct (getTd_stored bc nb hb Hc Hwf Hbdr) as (tb & Htb & Hgb).
  exists hh, hb, T, tb.
  split; [assumption|]. split; [assumption|]. split; [assumption|].
  split; [assumption|]. split; [eapply Hbnd; eassumption|].
  intros n h x Hx.
  destruct (getTd_stored bc n h Hc Hwf) as (t & Ht' & Hg'); [eauto|].
  exists t. split; [assumption|]. eapply Hbnd; eassumption.
Qed.

(** ** The fresh store *)

Lemma rebuildInfo_genesis fuel isGenesis isHeader block td cur bc ops bc1 :
  rebuildInfo fuel isGenesis isHeader block td cur bc = Ok ops bc1 ->
  block_isGenesis block = true ->
  _genesis bc1 = Some (hash (header block)).
Proof.
  unfold rebuildInfo. intros H Hg.
  destruct (save_block_inv isGenesis block td bc) as (body_ops & bc0 & Hs & _ & _).
  rewrite Hs in H. unfold winsHeader in H. rewrite Hg in H. simpl in H.
  set (bcw := with_genesis _ _) in H.
  destruct (_deleteStaleAssignments _ _ _ _ bcw) as [ops1 bcd| |] eqn:Hdel;
    try discriminate.
  apply deleteStale_frame in Hdel as (_ & _ & _ & (_ & _ & Hg1 & _)).
  apply rebuild_frame in H as (_ & _ & _ & (_ & _ & Hg2 & _)).
  rewrite Hg2, Hg1. reflexivity.
Qed.

Lemma new_Blockchain_coherent d max : coherent (new_Blockchain d max).
Proof.
  intros k v. unfold cache_get. destruct (family k) as [[]|]; discriminate.
Qed.

Lemma WfDb_empty : WfDb ∅.
Proof.
  constructor; intros *; rewrite lookup_empty; discriminate.
Qed.

(** The store of a fresh object when the verifier has checked the genesis
    block: epoch entries only. *)
Lemma fresh_after_verifier epochs max :
  after_verifier epochs (new_Blockchain ∅ max)
  = new_Blockchain (ethash_writes epochs ∅) max.
Proof. reflexivity. Qed.

Lemma ethash_writes_empty epochs k : chain_key k -> ethash_writes epochs ∅ !! k = None.
Proof. intros Hk. rewrite ethash_writes_lookup by assumption. apply lookup_empty. Qed.

(** The initialisation of an object over an empty store, with a genesis
    block of number 0, establishes the invariant. *)
Lemma init_Inv fuel cfg g max bc0 :
  number (header g) = 0 ->
  _init fuel cfg g (new_Blockchain ∅ max) = Ok tt bc0 ->
  Inv bc0.
Proof.
  intros Hnum. unfold _init.
  assert (Hnone : dbm_numberToHash 0 (new_Blockchain ∅ max) = None).
  { unfold dbm_numberToHash, db_get. simpl. rewrite lookup_empty. reflexivity. }
  rewrite Hnone.
  destruct (_putBlockOrHeader _ _ _ _ _) as [[] bcp| |] eqn:Hput; try discriminate.
  intros [= <-].
  apply put_ok_inv in Hput as (epochs & cur & td & ops & bc1 & Hcur & Htd & Hr & ->).
  simpl item_block in *. simpl item_isHeader in *.
  injection Hcur as <-. injection Htd as <-.
  assert (Hgen : block_isGenesis g = true) by (apply Z.eqb_eq; assumption).
  pose proof (rebuildInfo_genesis _ _ _ _ _ _ _ _ _ Hr Hgen) as Hg.
  rewrite fresh_after_verifier in Hr.
  destruct (put_commit _ _ _ _ _ _ _ _ _ (new_Blockchain_coherent _ max)
              (WfDb_after_verifier epochs ∅ WfDb_empty) Hr)
    as (Hc' & Hwf' & Htdm & Hhdm & _).
  { intros v. simpl. rewrite ethash_writes_empty by discriminate. discriminate. }
  { intros Hn. contradiction. }
  set (bcp := _batchDbOps (ops ++ _saveHeadOps bc1) bc1) in *.
  change (_genesis bcp) with (_genesis bc1). rewrite Hg.
  split; [exact Hc'|]. split; [exact Hwf'|].
  exists (difficulty (header g)).
  assert (Hhdr : is_Some (db bcp !! headerKey (number (header g)) (hash (header g)))).
  { rewrite Hhdm, decide_True by auto. eauto. }
  split; [|split].
  - intros n h t. simpl. rewrite Htdm.
    destruct (decide (n = number (header g) /\ h = hash (header g))).
    + intros [= <-]. lia.
    + simpl. rewrite ethash_writes_empty by discriminate. discriminate.
  - exists (hash (header g)), (number (header g)). split; [reflexivity|].
    split; [exact Hhdr|]. simpl. rewrite Htdm, decide_True by auto. reflexivity.
  - exists (hash (header g)), (number (header g)). split; [reflexivity|exact Hhdr].
Qed.

(** ** Head consistency *)

(** C5, as the code has it. On an object initialised over an empty store,
    after any sequence of successful puts of blocks and headers of number 1
    or more (puts without the genesis flag), the total difficulty of
    [_headHeader] is at least the total difficulty of every persisted
    header, and the total difficulty of [_headBlock] is at most the one of
    [_headHeader]. *)
Theorem puts_head_consistent (fuel : nat) (cfg : Config) (g : Block) (max : nat)
    (items : list Item) (bc0 bc : Blockchain) :
  number (header g) = 0 ->
  _init fuel cfg g (new_Blockchain ∅ max) = Ok tt bc0 ->
  Forall (fun item => 1 <= number (header (item_block item))) items ->
  put_all fuel cfg items bc0 = Some bc ->
  head_consistent bc.
Proof.
  intros Hg Hinit Hitems Hrun.
  apply Inv_head_consistent.
  eapply put_all_preserves_Inv; [|eassumption|eassumption].
  eapply init_Inv; eassumption.
Qed.

Lemma puts_head_consistent_witness : head_consistent Scenario.put_once.
Proof.
  apply (puts_head_consistent 8 Scenario.cfg (mkBlock Scenario.G [] []) 4
           [ItemBlock 1 (Scenario.full Scenario.A1); ItemHeader 1 Scenario.B1;
            ItemBlock 1 (Scenario.full Scenario.C2)] Scenario.fresh).
  - reflexivity.
  - apply ok_state_of. vm_compute. reflexivity.
  - repeat constructor; simpl; lia.
  - rewrite (put_all_cons_ok _ _ _ _ _ Scenario.linear1)
      by (apply ok_state_of; vm_compute; reflexivity).
    rewrite (put_all_cons_ok _ _ _ _ _ Scenario.header_first)
      by (apply ok_state_of; vm_compute; reflexivity).
    rewrite (put_all_cons_ok _ _ _ _ _ Scenario.put_once)
      by (apply ok_state_of; vm_compute; reflexivity).
    reflexivity.
Defined.

(** C5, as the claim has it: the genesis block put again on top of the
    chain genesis, A1 becomes the head although the stored header A1 has a
    greater total difficulty. *)
Lemma genesis_reput_breaks_head_consistency :
  Scenario.succeeded (putBlock 8 Scenario.cfg 1 (Scenario.full Scenario.A1) false
                        Scenario.fresh) = true
  /\ Scenario.succeeded (putGenesis 8 Scenario.cfg 1 (mkBlock Scenario.G [] [])
                           Scenario.linear1) = true
  /\ ~ head_consistent Scenario.regenesis.
Proof.
  split; [vm_compute; reflexivity|]. split; [vm_compute; reflexivity|].
  assert (Hh : _headHeader Scenario.regenesis = Some (hash Scenario.G))
    by (vm_compute; reflexivity).
  assert (Ht : _getTd (hash Scenario.G) None Scenario.regenesis = Some 10)
    by (vm_compute; reflexivity).
  assert (Hp : db Scenario.regenesis !! headerKey 1 (hash Scenario.A1)
               = Some (VHeader Scenario.A1)) by (vm_compute; reflexivity).
  assert (Ht1 : _getTd (hash Scenario.A1) None Scenario.regenesis = Some 15)
    by (vm_compute; reflexivity).
  intros (hh & hb & th & tb & H1 & _ & H3 & _ & _ & H6).
  rewrite Hh in H1. injection H1 as <-.
  rewrite Ht in H3. injection H3 as <-.
  destruct (H6 1 (hash Scenario.A1) Scenario.A1 Hp) as (t & Hg & Hle).
  rewrite Ht1 in Hg. injection Hg as <-. lia.
Qed.

(** * Further properties of the code *)

(** ** [selectNeededHashes] *)

(** The loop ends within as many rounds as the interval has indices, and
    keeps the boundary [k] between the known and the unknown hashes inside
    the interval. *)
Lemma selectNeededHashes_loop_spec hashes bc (k : Z) :
  (forall i, 0 <= i < Z.of_nat (length hashes) ->
             hash_known hashes i bc = true <-> i < k) ->
  forall fuel min mid max,
    0 <= min -> max < Z.of_nat (length hashes) ->
    min <= k <= max + 1 ->
    (min <= max -> min <= mid <= max) ->
    (Z.to_nat (max + 1 - min) < fuel)%nat ->
    selectNeededHashes_loop fuel hashes min mid max bc = Some k.
Proof.
  intros Hmono. induction fuel as [|fuel IH]; intros min mid max Hmin Hmax Hk Hmid Hfuel;
    [lia|].
  simpl. destruct (Z.geb_spec max min) as [Hge|Hlt].
  - specialize (Hmid Hge).
    destruct (hash_known hashes mid bc) eqn:Hkn.
    + apply Hmono in Hkn; [|lia].
      apply IH; try lia.
      intros Hle. split.
      * apply Z.div_le_lower_bound; lia.
      * apply Z.div_le_upper_bound; lia.
    + assert (~ mid < k) by (rewrite <- Hmono by lia; congruence).
      apply IH; try lia.
      intros Hle. split.
      * apply Z.div_le_lower_bound; lia.
      * apply Z.div_le_upper_bound; lia.
  - f_equal. lia.
Qed.

(** Without any assumption on the store: the loop ends, and the index it
    returns follows a known hash (or is 0) and holds an unknown hash (or is
    the length). *)
Lemma selectNeededHashes_loop_edges hashes bc :
  forall fuel min mid max,
    0 <= min <= max + 1 -> max < Z.of_nat (length hashes) ->
    (min = 0 \/ hash_known hashes (min - 1) bc = true) ->
    (max + 1 = Z.of_nat (length hashes) \/ hash_known hashes (max + 1) bc = false) ->
    (min <= max -> min <= mid <= max) ->
    (Z.to_nat (max + 1 - min) < fuel)%nat ->
    exists m,
      selectNeededHashes_loop fuel hashes min mid max bc = Some m
      /\ 0 <= m <= Z.of_nat (length hashes)
      /\ (m = 0 \/ hash_known hashes (m - 1) bc = true)
      /\ (m = Z.of_nat (length hashes) \/ hash_known hashes m bc = false).
Proof.
  induction fuel as [|fuel IH]; intros min mid max Hmin Hmax Hlo Hhi Hmid Hfuel; [lia|].
  simpl. destruct (Z.geb_spec max min) as [Hge|Hlt].
  - specialize (Hmid Hge).
    destruct (hash_known hashes mid bc) eqn:Hkn.
    + apply IH; try lia.
      * right. replace (mid + 1 - 1) with mid by lia. assumption.
      * assumption.
      * intros Hle. split.
        -- apply Z.div_le_lower_bound; lia.
        -- apply Z.div_le_upper_bound; lia.
    + apply IH; try lia.
      * assumption.
      * right. replace (mid - 1 + 1) with mid by lia. assumption.
      * intros Hle. split.
        -- apply Z.div_le_lower_bound; lia.
        -- apply Z.div_le_upper_bound; lia.
  - exists min. assert (min = max + 1) by lia. subst min.
    split; [reflexivity|]. split; [lia|]. split; [assumption|].
    destruct Hhi as [Hhi|Hhi]; [left; lia|right; assumption].
Qed.

(** [selectNeededHashes] ends within [length hashes] rounds and returns a
    suffix of the array.  The suffix starts right after a hash that
    [hashToNumber] knows (or at the start of the array) and, when it is not
    empty, its first hash is unknown. *)
Theorem selectNeededHashes_suffix (fuel : nat) (hashes : list Hash) (bc : Blockchain) :
  (length hashes < fuel)%nat ->
  exists m : nat,
    selectNeededHashes fuel hashes bc = Ok (drop m hashes) bc
    /\ (m <= length hashes)%nat
    /\ (forall h, (0 < m)%nat -> hashes !! (m - 1)%nat = Some h ->
                  is_Some (dbm_hashToNumber h bc))
    /\ (forall h, hashes !! m = Some h -> dbm_hashToNumber h bc = None).
Proof.
  intros Hfuel.
  destruct (selectNeededHashes_loop_edges hashes bc fuel 0 0
              (Z.of_nat (length hashes) - 1)) as (m & Hrun & Hm & Hlo & Hhi);
    try lia.
  exists (Z.to_nat m). unfold selectNeededHashes. rewrite Hrun.
  split; [reflexivity|]. split; [lia|]. split.
  - intros h Hpos Hh. destruct Hlo as [->|Hlo]; [simpl in Hpos; lia|].
    unfold hash_known, hash_at in Hlo.
    destruct (Z.ltb_spec (m - 1) 0); [discriminate|].
    replace (Z.to_nat (m - 1)) with (Z.to_nat m - 1)%nat in Hlo by lia.
    rewrite Hh in Hlo. apply bool_decide_eq_true in Hlo. assumption.
  - intros h Hh. destruct Hhi as [->|Hhi].
    + apply lookup_lt_Some in Hh. lia.
    + unfold hash_known, hash_at in Hhi.
      destruct (Z.ltb_spec m 0); [lia|].
      rewrite Hh in Hhi. apply bool_decide_eq_false in Hhi.
      destruct (dbm_hashToNumber h bc); [|reflexivity].
      exfalso. apply Hhi. eauto.
Qed.

Lemma selectNeededHashes_suffix_witness :
  exists m : nat,
    selectNeededHashes 5 [hash Scenario.G; hash Scenario.A1; hash Scenario.A2]
      Scenario.linear1
    = Ok (drop m [hash Scenario.G; hash Scenario.A1; hash Scenario.A2]) Scenario.linear1
    /\ (m <= 3)%nat.
Proof.
  destruct (selectNeededHashes_suffix 5
              [hash Scenario.G; hash Scenario.A1; hash Scenario.A2] Scenario.linear1)
    as (m & Hrun & Hm & _).
  - simpl. lia.
  - exists m. split; [exact Hrun|exact Hm].
Defined.

(** When the known hashes form a prefix of the array (the hash at index [i]
    is known exactly when [i < k]), [selectNeededHashes] returns the array
    without that prefix: the suffix from the first unknown hash on. *)
Theorem selectNeededHashes_boundary (fuel : nat) (hashes : list Hash) (k : nat)
    (bc : Blockchain) :
  (length hashes < fuel)%nat ->
  (k <= length hashes)%nat ->
  (forall i h, hashes !! i = Some h ->
               (is_Some (dbm_hashToNumber h bc) <-> (i < k)%nat)) ->
  selectNeededHashes fuel hashes bc = Ok (drop k hashes) bc.
Proof.
  intros Hfuel Hk Hmono. unfold selectNeededHashes.
  rewrite (selectNeededHashes_loop_spec hashes bc (Z.of_nat k)); try lia.
  - rewrite Nat2Z.id. reflexivity.
  - intros i Hi. unfold hash_known, hash_at.
    destruct (Z.ltb_spec i 0); [lia|].
    destruct (hashes !! Z.to_nat i) as [h|] eqn:Hh.
    + rewrite bool_decide_eq_true, (Hmono _ _ Hh). lia.
    + apply lookup_ge_None in Hh. lia.
Qed.

Lemma selectNeededHashes_boundary_witness :
  selectNeededHashes 5 [hash Scenario.G; hash Scenario.A1; hash Scenario.A2; hash Scenario.B1]
    Scenario.linear1
  = Ok [hash Scenario.A2; hash Scenario.B1] Scenario.linear1.
Proof.
  assert (HG : dbm_hashToNumber (hash Scenario.G) Scenario.linear1 = Some 0)
    by (vm_compute; reflexivity).
  assert (HA1 : dbm_hashToNumber (hash Scenario.A1) Scenario.linear1 = Some 1)
    by (vm_compute; reflexivity).
  assert (HA2 : dbm_hashToNumber (hash Scenario.A2) Scenario.linear1 = None)
    by (vm_compute; reflexivity).
  assert (HB1 : dbm_hashToNumber (hash Scenario.B1) Scenario.linear1 = None)
    by (vm_compute; reflexivity).
  change [hash Scenario.A2; hash Scenario.B1]
    with (drop 2 [hash Scenario.G; hash Scenario.A1; hash Scenario.A2; hash Scenario.B1]).
  apply (selectNeededHashes_boundary 5 _ 2 Scenario.linear1).
  - simpl. lia.
  - simpl. lia.
  - intros [|[|[|[|i]]]] h Hh; simpl in Hh; try discriminate;
      injection Hh as <-.
    + rewrite HG. split; [lia|eauto].
    + rewrite HA1. split; [lia|eauto].
    + rewrite HA2. split; [intros [? ?]; discriminate|lia].
    + rewrite HB1. split; [intros [? ?]; discriminate|lia].
Defined.

(** ** [getBlocks] *)

Lemma getBlocks_nextBlock_S fuel blockId maxBlocks skip reverse i blocks bc :
  getBlocks_nextBlock (S fuel) blockId maxBlocks skip reverse i blocks bc
  = match dbm_getBlock blockId bc with
    | inl e => if decide (e = NotFoundError) then Ok blocks bc else Err e bc
    | inr block =>
        let next := TagNumber (number (header block) + (if reverse then -1 else 1)) in
        if negb (i =? 0)%nat && negb (skip =? 0)%nat && negb (i mod (skip + 1) =? 0)%nat
        then getBlocks_nextBlock fuel next maxBlocks skip reverse (S i) blocks bc
        else if (length (blocks ++ [block]) =? maxBlocks)%nat
             then Ok (blocks ++ [block]) bc
             else getBlocks_nextBlock fuel next maxBlocks skip reverse (S i)
                    (blocks ++ [block]) bc
    end.
Proof. reflexivity. Qed.

(** The loop only reads: it returns the state it was given, the blocks it
    had are a prefix of its result, and a block that is not found is never
    reported as an error. *)
Lemma getBlocks_nextBlock_frame fuel :
  forall blockId maxBlocks skip reverse i blocks bc,
    match getBlocks_nextBlock fuel blockId maxBlocks skip reverse i blocks bc with
    | Ok blocks' bc' => bc' = bc /\ exists more, blocks' = blocks ++ more
    | Err e bc' => bc' = bc /\ e <> NotFoundError
    | OutOfFuel => True
    end.
Proof.
  induction fuel as [|fuel IH]; intros blockId maxBlocks skip reverse i blocks bc;
    [exact I|].
  rewrite getBlocks_nextBlock_S. cbv zeta.
  destruct (dbm_getBlock blockId bc) as [e|block].
  - destruct (decide (e = NotFoundError)).
    + split; [reflexivity|]. exists []. rewrite app_nil_r. reflexivity.
    + split; [reflexivity|assumption].
  - destruct (negb (i =? 0)%nat && negb (skip =? 0)%nat && negb (i mod (skip + 1) =? 0)%nat).
    + apply IH.
    + destruct (length (blocks ++ [block]) =? maxBlocks)%nat.
      * split; [reflexivity|]. exists [block]. reflexivity.
      * specialize (IH (TagNumber (number (header block) + (if reverse then -1 else 1)))
                      maxBlocks skip reverse (S i) (blocks ++ [block]) bc).
        destruct (getBlocks_nextBlock fuel _ maxBlocks skip reverse (S i)
                    (blocks ++ [block]) bc) as [blocks' bc'|e bc'|]; [|assumption|exact I].
        destruct IH as [-> [more ->]]. split; [reflexivity|].
        exists (block :: more). rewrite <- app_assoc. reflexivity.
Qed.

Lemma getBlocks_nextBlock_length fuel :
  forall blockId maxBlocks skip reverse i blocks bc blocks' bc',
    (length blocks < maxBlocks)%nat ->
    getBlocks_nextBlock fuel blockId maxBlocks skip reverse i blocks bc = Ok blocks' bc' ->
    (length blocks' <= maxBlocks)%nat.
Proof.
  induction fuel as [|fuel IH];
    intros blockId maxBlocks skip reverse i blocks bc blocks' bc' Hlen H; [discriminate|].
  rewrite getBlocks_nextBlock_S in H. cbv zeta in H.
  destruct (dbm_getBlock blockId bc) as [e|block].
  - destruct (decide (e = NotFoundError)); [|discriminate].
    injection H as <- <-. lia.
  - destruct (negb (i =? 0)%nat && negb (skip =? 0)%nat && negb (i mod (skip + 1) =? 0)%nat).
    + eapply IH; eassumption.
    + destruct (Nat.eqb_spec (length (blocks ++ [block])) maxBlocks) as [Heq|Hne].
      * injection H as <- <-. lia.
      * eapply IH; [|exact H]. rewrite length_app in *. simpl in *. lia.
Qed.

(** [getBlocks] returns at most [maxBlocks] blocks when [maxBlocks] is 1
    or more. *)
Theorem getBlocks_at_most_maxBlocks (fuel : nat) (blockId : Tag) (maxBlocks skip : nat)
    (reverse : bool) (bc bc' : Blockchain) (blocks : list Block) :
  (1 <= maxBlocks)%nat ->
  getBlocks fuel blockId maxBlocks skip reverse bc = Ok blocks bc' ->
  (length blocks <= maxBlocks)%nat.
Proof.
  intros Hmax H. eapply getBlocks_nextBlock_length; [|exact H]. simpl. lia.
Qed.

Lemma getBlocks_at_most_maxBlocks_witness :
  getBlocks 8 (TagNumber 0) 2 0 false Scenario.linear2
  = Ok [mkBlock Scenario.G [] []; Scenario.full Scenario.A1] Scenario.linear2
  /\ (length [mkBlock Scenario.G [] []; Scenario.full Scenario.A1] <= 2)%nat.
Proof.
  assert (H : getBlocks 8 (TagNumber 0) 2 0 false Scenario.linear2
              = Ok [mkBlock Scenario.G [] []; Scenario.full Scenario.A1] Scenario.linear2).
  { assert (H0 : dbm_getBlock (TagNumber 0) Scenario.linear2 = inr (mkBlock Scenario.G [] []))
      by (vm_compute; reflexivity).
    assert (H1 : dbm_getBlock (TagNumber 1) Scenario.linear2 = inr (Scenario.full Scenario.A1))
      by (vm_compute; reflexivity).
    unfold getBlocks. rewrite getBlocks_nextBlock_S, H0. cbv zeta.
    change (number (header (mkBlock Scenario.G [] [])) + 1) with 1.
    simpl negb. cbv iota. simpl length. cbv iota.
    rewrite getBlocks_nextBlock_S, H1. reflexivity. }
  split; [exact H|].
  exact (getBlocks_at_most_maxBlocks 8 (TagNumber 0) 2 0 false _ _ _ (le_S _ _ (le_n 1)) H).
Defined.

(** [getBlocks] treats a block that is not found as the end of the range:
    it never fails with the not-found error, it leaves the object as it
    was, and when already the first block is missing it succeeds with no
    block. *)
Theorem getBlocks_not_found_ends (fuel : nat) (blockId : Tag) (maxBlocks skip : nat)
    (reverse : bool) (bc : Blockchain) :
  (forall bc', getBlocks fuel blockId maxBlocks skip reverse bc <> Err NotFoundError bc')
  /\ (forall blocks bc', getBlocks fuel blockId maxBlocks skip reverse bc = Ok blocks bc' ->
                         bc' = bc)
  /\ (dbm_getBlock blockId bc = inl NotFoundError ->
      getBlocks (S fuel) blockId maxBlocks skip reverse bc = Ok [] bc).
Proof.
  pose proof (getBlocks_nextBlock_frame fuel blockId maxBlocks skip reverse 0 [] bc) as H.
  fold (getBlocks fuel blockId maxBlocks skip reverse bc) in H.
  split; [|split].
  - intros bc' Heq. rewrite Heq in H. destruct H as [_ H]. congruence.
  - intros blocks bc' Heq. rewrite Heq in H. tauto.
  - intros Hnf. unfold getBlocks. rewrite getBlocks_nextBlock_S, Hnf. reflexivity.
Qed.

Lemma getBlocks_not_found_ends_witness :
  getBlocks 1 (TagNumber 7) 3 0 false Scenario.linear2 = Ok [] Scenario.linear2.
Proof.
  apply (getBlocks_not_found_ends 0 (TagNumber 7) 3 0 false Scenario.linear2).
  vm_compute. reflexivity.
Defined.

Lemma spaced_snoc d bc blocks b :
  spaced d bc blocks ->
  (forall bl, last blocks = Some bl ->
     number (header b) = number (header bl) + d
     /\ dbm_getBlock (TagNumber (number (header b))) bc = inr b) ->
  spaced d bc (blocks ++ [b]).
Proof.
  intros Hsp Hlast j b1 b2 H1 H2.
  destruct (decide (S j < length blocks)%nat) as [Hlt|Hge].
  - rewrite lookup_app_l in H1 by lia. rewrite lookup_app_l in H2 by lia.
    eapply Hsp; eassumption.
  - assert (Hj : S j = length blocks).
    { apply lookup_lt_Some in H2. rewrite length_app in H2. simpl in H2. lia. }
    rewrite lookup_app_l in H1 by lia.
    rewrite lookup_app_r in H2 by lia.
    replace (S j - length blocks)%nat with 0%nat in H2 by lia.
    injection H2 as <-. apply Hlast.
    rewrite last_lookup. replace (pred (length blocks)) with j by lia. assumption.
Qed.

Lemma succ_mod_eq (i k m : nat) :
  m <> 0%nat -> (i mod m = k mod m -> S i mod m = S k mod m)%nat.
Proof.
  intros Hm H. change (S i) with (1 + i)%nat. change (S k) with (1 + k)%nat.
  rewrite (Nat.Div0.add_mod 1 i), (Nat.Div0.add_mod 1 k), H. reflexivity.
Qed.

(** The loop of [getBlocks], when blocks found by number carry their
    number: [k] counts the fetches since the last block that was pushed. *)
Lemma getBlocks_nextBlock_spaced (skip : nat) (reverse : bool) (bc : Blockchain) :
  numbers_match bc ->
  let d := (if reverse then -1 else 1) * Z.of_nat (skip + 1) in
  forall fuel blockId maxBlocks i blocks blocks' bc',
    spaced d bc blocks ->
    (blocks = [] -> i = 0%nat) ->
    (forall bl, last blocks = Some bl ->
       exists k : nat,
         (1 <= k <= skip + 1)%nat
         /\ blockId = TagNumber (number (header bl)
                                 + (if reverse then -1 else 1) * Z.of_nat k)
         /\ (i mod (skip + 1) = k mod (skip + 1))%nat
         /\ i <> 0%nat) ->
    getBlocks_nextBlock fuel blockId maxBlocks skip reverse i blocks bc = Ok blocks' bc' ->
    spaced d bc blocks'.
Proof.
  intros Hnum d. induction fuel as [|fuel IH];
    intros blockId maxBlocks i blocks blocks' bc' Hsp Hnil Hlast H; [discriminate|].
  rewrite getBlocks_nextBlock_S in H. cbv zeta in H.
  destruct (dbm_getBlock blockId bc) as [e|block] eqn:Hget.
  { destruct (decide (e = NotFoundError)); [|discriminate].
    injection H as <- <-. assumption. }
  destruct (negb (i =? 0)%nat && negb (skip =? 0)%nat && negb (i mod (skip + 1) =? 0)%nat)
    eqn:Hskip.
  - (* the block is skipped *)
    apply andb_true_iff in Hskip as [Hskip Hmod].
    apply andb_true_iff in Hskip as [Hi Hs].
    apply negb_true_iff, Nat.eqb_neq in Hi, Hs, Hmod.
    eapply IH; [exact Hsp| |  |exact H].
    + intros ->. exfalso. apply Hi, Hnil. reflexivity.
    + intros bl Hbl. destruct (Hlast bl Hbl) as (k & Hk & -> & Hik & _).
      pose proof (Hnum _ _ Hget) as Hn.
      assert (k <> skip + 1)%nat.
      { intros ->. rewrite Nat.Div0.mod_same in Hik. contradiction. }
      exists (S k). split; [lia|]. split; [rewrite Hn; f_equal; lia|].
      split; [apply succ_mod_eq; [lia|assumption]|lia].
  - (* the block is pushed *)
    assert (Hsp' : spaced d bc (blocks ++ [block])).
    { apply spaced_snoc; [assumption|].
      intros bl Hbl. destruct (Hlast bl Hbl) as (k & Hk & -> & Hik & Hi).
      pose proof (Hnum _ _ Hget) as Hn.
      assert (k = skip + 1)%nat as ->.
      { apply andb_false_iff in Hskip as [Hskip|Hmod].
        - apply andb_false_iff in Hskip as [Hz|Hs].
          + apply negb_false_iff, Nat.eqb_eq in Hz. contradiction.
          + apply negb_false_iff, Nat.eqb_eq in Hs. lia.
        - apply negb_false_iff, Nat.eqb_eq in Hmod. rewrite Hmod in Hik.
          destruct (decide (k = skip + 1)%nat); [assumption|].
          rewrite (Nat.mod_small k) in Hik by lia. lia. }
      split; [rewrite Hn; unfold d; lia|]. rewrite Hn. exact Hget. }
    destruct (length (blocks ++ [block]) =? maxBlocks)%nat.
    { injection H as <- <-. assumption. }
    eapply IH; [exact Hsp'| | |exact H].
    + intros Heq. destruct blocks; discriminate.
    + intros bl Hbl. rewrite last_snoc in Hbl. injection Hbl as <-.
      exists 1%nat. split; [lia|]. split; [f_equal; lia|]. split; [|lia].
      assert (Hi0 : (i mod (skip + 1) = 0)%nat).
      { destruct blocks as [|b0 blocks0] eqn:Hb.
        - rewrite (Hnil eq_refl). apply Nat.Div0.mod_0_l.
        - destruct (last (b0 :: blocks0)) as [bl|] eqn:Hl.
          + destruct (Hlast bl eq_refl) as (k & Hk & _ & Hik & Hi).
            apply andb_false_iff in Hskip as [Hskip|Hmod].
            * apply andb_false_iff in Hskip as [Hz|Hs].
              -- apply negb_false_iff, Nat.eqb_eq in Hz. contradiction.
              -- apply negb_false_iff, Nat.eqb_eq in Hs. subst skip.
                 apply Nat.mod_1_r.
            * apply negb_false_iff, Nat.eqb_eq in Hmod. assumption.
          + apply last_None in Hl. discriminate. }
      change (S i) with (1 + i)%nat.
      rewrite Nat.Div0.add_mod, Hi0, Nat.add_0_r, Nat.Div0.mod_mod. reflexivity.
Qed.

(** ** States reached from a fresh store *)

Lemma reachable_Inv bc : reachable bc -> Inv bc.
Proof.
  intros (fuel & cfg & g & max & items & bc0 & Hg & Hinit & Hitems & Hrun).
  eapply put_all_preserves_Inv; [|eassumption|eassumption].
  eapply init_Inv; eassumption.
Qed.

Lemma reachable_fresh : reachable Scenario.fresh.
Proof.
  exists 8%nat, Scenario.cfg, (mkBlock Scenario.G [] []), 4%nat, [], Scenario.fresh.
  split; [reflexivity|].
  split; [apply ok_state_of; vm_compute; reflexivity|].
  split; [constructor|reflexivity].
Qed.

Lemma reachable_linear2 : reachable Scenario.linear2.
Proof.
  exists 8%nat, Scenario.cfg, (mkBlock Scenario.G [] []), 4%nat,
    [ItemBlock 1 (Scenario.full Scenario.A1); ItemBlock 1 (Scenario.full Scenario.A2)],
    Scenario.fresh.
  split; [reflexivity|].
  split; [apply ok_state_of; vm_compute; reflexivity|].
  split; [repeat constructor; simpl; lia|].
  rewrite (put_all_cons_ok _ _ _ _ _ Scenario.linear1)
    by (apply ok_state_of; vm_compute; reflexivity).
  rewrite (put_all_cons_ok _ _ _ _ _ Scenario.linear2)
    by (apply ok_state_of; vm_compute; reflexivity).
  reflexivity.
Qed.

Lemma Inv_numbers_match bc : Inv bc -> numbers_match bc.
Proof.
  intros (Hc & Hwf & _) n b. unfold dbm_getBlock.
  destruct (dbm_numberToHash n bc) as [h|]; [|discriminate].
  destruct (dbm_getHeader h n bc) as [hd|] eqn:Hhd; [|discriminate].
  apply dbm_getHeader_Some in Hhd. rewrite (coherent_db_get _ _ Hc) in Hhd.
  destruct (wf_header _ Hwf _ _ _ Hhd) as (x & [= <-] & _ & Hn & _).
  destruct (dbm_getBody h n bc) as [[txs us]|].
  - intros [= <-]. assumption.
  - destruct (n =? 0); [|discriminate]. intros [= <-]. assumption.
Qed.

(** When blocks found by number carry their number, the blocks [getBlocks]
    returns start with the block of [blockId] and follow each other at the
    distance [skip + 1], downwards under [reverse]; each is the block found
    at its number. *)
Theorem getBlocks_spaced (fuel : nat) (blockId : Tag) (maxBlocks skip : nat)
    (reverse : bool) (bc bc' : Blockchain) (blocks : list Block) :
  numbers_match bc ->
  getBlocks fuel blockId maxBlocks skip reverse bc = Ok blocks bc' ->
  spaced ((if reverse then -1 else 1) * Z.of_nat (skip + 1)) bc blocks
  /\ (forall b0, blocks !! 0%nat = Some b0 -> dbm_getBlock blockId bc = inr b0).
Proof.
  intros Hnum H. split.
  - eapply (getBlocks_nextBlock_spaced skip reverse bc Hnum); [| | |exact H].
    + intros j b1 b2 Hj. discriminate.
    + reflexivity.
    + intros bl Hbl. discriminate.
  - intros b0 Hb0. unfold getBlocks in H. destruct fuel as [|fuel]; [discriminate|].
    rewrite getBlocks_nextBlock_S in H. cbv zeta in H.
    destruct (dbm_getBlock blockId bc) as [e|block].
    + destruct (decide (e = NotFoundError)); [|discriminate].
      injection H as <- <-. discriminate.
    + change (negb (0 =? 0)%nat) with false in H. cbn [andb] in H.
      change ([] ++ [block]) with [block] in H.
      change (length [block]) with 1%nat in H. f_equal.
      destruct (1 =? maxBlocks)%nat.
      * injection H as <- <-. simpl in Hb0. congruence.
      * pose proof (getBlocks_nextBlock_frame fuel
                      (TagNumber (number (header block) + (if reverse then -1 else 1)))
                      maxBlocks skip reverse 1 [block] bc) as Hf.
        rewrite H in Hf. destruct Hf as [_ [more ->]]. simpl in Hb0. congruence.
Qed.

(** In a state reached from a fresh store, with [skip = 1], the blocks of
    the numbers 0 and 2 are returned. *)
Lemma getBlocks_spaced_witness :
  spaced 2 Scenario.linear2 [mkBlock Scenario.G [] []; Scenario.full Scenario.A2].
Proof.
  assert (H0 : dbm_getBlock (TagNumber 0) Scenario.linear2 = inr (mkBlock Scenario.G [] []))
    by (vm_compute; reflexivity).
  assert (H1 : dbm_getBlock (TagNumber 1) Scenario.linear2 = inr (Scenario.full Scenario.A1))
    by (vm_compute; reflexivity).
  assert (H2 : dbm_getBlock (TagNumber 2) Scenario.linear2 = inr (Scenario.full Scenario.A2))
    by (vm_compute; reflexivity).
  assert (H3 : dbm_getBlock (TagNumber 3) Scenario.linear2 = inl NotFoundError)
    by (vm_compute; reflexivity).
  apply (getBlocks_spaced 8 (TagNumber 0) 5 1 false Scenario.linear2 Scenario.linear2).
  - apply Inv_numbers_match, reachable_Inv, reachable_linear2.
  - unfold getBlocks.
    rewrite getBlocks_nextBlock_S, H0. cbv zeta.
    change (number (header (mkBlock Scenario.G [] [])) + 1) with 1.
    simpl negb. cbv iota. simpl length. cbv iota.
    rewrite getBlocks_nextBlock_S, H1. cbv zeta.
    change (number (header (Scenario.full Scenario.A1)) + 1) with 2.
    simpl negb. cbv iota.
    rewrite getBlocks_nextBlock_S, H2. cbv zeta.
    change (number (header (Scenario.full Scenario.A2)) + 1) with 3.
    simpl negb. cbv iota. simpl length. cbv iota.
    rewrite getBlocks_nextBlock_S, H3. reflexivity.
Defined.

(** ** The iterator *)

Lemma dbm_getBlock_with_heads t hs bc :
  dbm_getBlock t (with_heads hs bc) = dbm_getBlock t bc.
Proof. reflexivity. Qed.

Lemma iterator_run_S fuel name func n lastBlock bc :
  iterator_run (S fuel) name func n lastBlock bc
  = match dbm_getBlock (TagNumber n) bc with
    | inl e => ([], run_error e bc)
    | inr block =>
        let bc1 := with_heads (<[name := hash (header block)]> (_heads bc)) bc in
        match func block (reorg_flag lastBlock block) with
        | None =>
            ((block, reorg_flag lastBlock block)
               :: (iterator_run fuel name func (n + 1) (Some block) bc1).1,
             (iterator_run fuel name func (n + 1) (Some block) bc1).2)
        | Some e => ([(block, reorg_flag lastBlock block)], run_error e bc1)
        end
    end.
Proof.
  simpl. destruct (dbm_getBlock (TagNumber n) bc) as [e|block]; [reflexivity|].
  destruct (func block (reorg_flag lastBlock block)); [reflexivity|].
  destruct (iterator_run fuel name func (n + 1) (Some block) _). reflexivity.
Qed.

Lemma run_error_ok e bc bc' :
  run_error e bc = Ok tt bc' ->
  e = NotFoundError /\ bc' = _batchDbOps (_saveHeadOps bc) bc.
Proof.
  unfold run_error. destruct (decide (e = NotFoundError)); [|discriminate].
  intros [= <-]. auto.
Qed.

(** A run of the loop that succeeds: the callback got the blocks found at
    the numbers [n], [n + 1], ... and accepted each but possibly the last;
    the run ended at a number that holds no block or at a block on which
    the callback failed with a not-found error; the head [name] is the last
    block yielded, the other heads, the caches and the two chain heads are
    as before, and the store received the three head records and nothing
    else. *)
Lemma iterator_run_ok fuel name func :
  forall n lastBlock bc calls bc',
    iterator_run fuel name func n lastBlock bc = (calls, Ok tt bc') ->
    (forall i b f, calls !! i = Some (b, f) ->
       dbm_getBlock (TagNumber (n + Z.of_nat i)) bc = inr b
       /\ ((S i < length calls)%nat -> func b f = None))
    /\ ((dbm_getBlock (TagNumber (n + Z.of_nat (length calls))) bc = inl NotFoundError
         /\ forall b f, last calls = Some (b, f) -> func b f = None)
        \/ exists b f, last calls = Some (b, f) /\ func b f = Some NotFoundError)
    /\ (forall b f, last calls = Some (b, f) -> _heads bc' !! name = Some (hash (header b)))
    /\ (calls = [] -> _heads bc' = _heads bc)
    /\ (forall other, other <> name -> _heads bc' !! other = _heads bc !! other)
    /\ cache bc' = cache bc /\ _headHeader bc' = _headHeader bc
    /\ _headBlock bc' = _headBlock bc
    /\ db bc' = batch (_saveHeadOps bc') (db bc).
Proof.
  induction fuel as [|fuel IH]; intros n lastBlock bc calls bc' H; [discriminate|].
  rewrite iterator_run_S in H. cbv zeta in H.
  destruct (dbm_getBlock (TagNumber n) bc) as [e|block] eqn:Hget.
  - injection H as <- H. apply run_error_ok in H as [-> ->].
    split; [intros i b f Hi; discriminate|].
    split.
    { left. split; [simpl; rewrite Z.add_0_r; assumption|discriminate]. }
    split; [discriminate|]. repeat (split; [reflexivity|]). reflexivity.
  - set (bc1 := with_heads _ bc) in H.
    destruct (func block (reorg_flag lastBlock block)) as [e|] eqn:Hf.
    + injection H as <- H. apply run_error_ok in H as [-> ->].
      split.
      { intros [|i] b f Hi; simpl in Hi; [|discriminate].
        injection Hi as <- <-. rewrite Z.add_0_r. split; [assumption|].
        simpl. lia. }
      split; [right; exists block, (reorg_flag lastBlock block); auto|].
      split.
      { intros b f [= <- <-]. unfold bc1. simpl. apply lookup_insert_eq. }
      split; [discriminate|].
      split.
      { intros other Hne. unfold bc1. simpl. apply lookup_insert_ne. congruence. }
      repeat (split; [reflexivity|]). reflexivity.
    + destruct (iterator_run fuel name func (n + 1) (Some block) bc1) as [calls1 r] eqn:Hrun.
      simpl in H. injection H as <- ->.
      destruct (IH _ _ _ _ _ Hrun)
        as (Hcalls & Hstop & Hlast & Hnil & Hother & Hc & Hhh & Hhb & Hdb).
      split; [|split; [|split; [|split; [|split]]]].
      * intros [|i] b f Hi; simpl in Hi.
        -- injection Hi as <- <-. rewrite Z.add_0_r. auto.
        -- destruct (Hcalls _ _ _ Hi) as [Hg Hfb]. split.
           ++ rewrite <- Hg. unfold bc1. rewrite dbm_getBlock_with_heads.
              f_equal. f_equal. lia.
           ++ intros Hlt. apply Hfb. simpl in Hlt. lia.
      * destruct Hstop as [[Hstop Hacc]|(b & f & Hl & Hfb)].
        -- left. split.
           ++ rewrite <- Hstop. unfold bc1. rewrite dbm_getBlock_with_heads.
              f_equal. f_equal. simpl. lia.
           ++ intros b f Hl. destruct calls1 as [|c calls1].
              ** simpl in Hl. injection Hl as <- <-. assumption.
              ** apply Hacc. exact Hl.
        -- right. exists b, f. split; [|assumption].
           destruct calls1; [discriminate|exact Hl].
      * intros b f Hl. destruct calls1 as [|c calls1].
        -- simpl in Hl. injection Hl as <- <-. rewrite (Hnil eq_refl).
           unfold bc1. simpl. apply lookup_insert_eq.
        -- apply (Hlast b f). exact Hl.
      * discriminate.
      * intros other Hne. rewrite (Hother _ Hne). unfold bc1. simpl.
        apply lookup_insert_ne. congruence.
      * auto.
Qed.

(** [iterator(name, onBlock)] when it succeeds from the head [h] of [name]
    (or from the genesis hash when [name] has no head and is not the name
    of an inherited member): the callback was given exactly the blocks found
    at the numbers after the number of [h], in order and without a gap, and
    it accepted each but possibly the last; the iterator stopped at the
    first number without a block, or at the block on which the callback
    failed with a not-found error; and the head [name] is the last block
    yielded, also in the heads record of the store. *)
Theorem iterator_consumes_chain (fuel : nat) (name : string)
    (func : Block -> bool -> option Error) (bc bc' : Blockchain) (h : Hash)
    (calls : list (Block * bool)) :
  (heads_member name (_heads bc) = OwnHash h
   \/ (heads_member name (_heads bc) = Absent /\ _genesis bc = Some h)) ->
  _iterator fuel name func bc = (calls, Ok tt bc') ->
  exists n,
    dbm_hashToNumber h bc = Some n
    /\ (forall i b f, calls !! i = Some (b, f) ->
          dbm_getBlock (TagNumber (n + 1 + Z.of_nat i)) bc = inr b
          /\ ((S i < length calls)%nat -> func b f = None))
    /\ ((dbm_getBlock (TagNumber (n + 1 + Z.of_nat (length calls))) bc = inl NotFoundError
         /\ forall b f, last calls = Some (b, f) -> func b f = None)
        \/ exists b f, last calls = Some (b, f) /\ func b f = Some NotFoundError)
    /\ (forall b f, last calls = Some (b, f) ->
          _heads bc' !! name = Some (hash (header b)))
    /\ db bc' !! headsKey = Some (VHeads (_heads bc')).
Proof.
  intros Hh Hrun. unfold _iterator in Hrun.
  assert (Hstart : match heads_member name (_heads bc) with
                   | OwnHash h0 => inr (Some h0)
                   | Inherited => inl TypeError
                   | Absent => inr (_genesis bc)
                   end = inr (Some h)).
  { destruct Hh as [->|[-> ->]]; reflexivity. }
  rewrite Hstart in Hrun.
  destruct (dbm_hashToNumber h bc) as [n|]; [|discriminate].
  exists n. split; [reflexivity|].
  destruct (iterator_run_ok _ _ _ _ _ _ _ _ Hrun)
    as (Hcalls & Hstop & Hlast & _ & _ & _ & _ & _ & Hdb).
  split; [exact Hcalls|]. split; [exact Hstop|]. split; [exact Hlast|].
  rewrite Hdb.
  destruct (batch_saveHeadOps [] bc' (db bc)) as (_ & _ & Hheads). exact Hheads.
Qed.

Lemma iterator_consumes_chain_witness :
  exists n,
    dbm_hashToNumber (hash Scenario.G) Scenario.linear2 = Some n
    /\ _heads Scenario.iterated !! "vm"%string = Some (hash Scenario.A2)
    /\ db Scenario.iterated !! headsKey = Some (VHeads (_heads Scenario.iterated)).
Proof.
  assert (Hrun : _iterator 8 "vm" (fun _ _ => None) Scenario.linear2
                 = ([(Scenario.full Scenario.A1, false); (Scenario.full Scenario.A2, true)],
                    Ok tt Scenario.iterated)).
  { assert (Hc : (_iterator 8 "vm" (fun _ _ => None) Scenario.linear2).1
                 = [(Scenario.full Scenario.A1, false); (Scenario.full Scenario.A2, true)])
      by (vm_compute; reflexivity).
    assert (Hs : (_iterator 8 "vm" (fun _ _ => None) Scenario.linear2).2
                 = Ok tt Scenario.iterated)
      by (apply ok_state_of; vm_compute; reflexivity).
    rewrite <- Hc, <- Hs. apply surjective_pairing. }
  assert (Hname : heads_member "vm" (_heads Scenario.linear2) = Absent
                  /\ _genesis Scenario.linear2 = Some (hash Scenario.G))
    by (split; vm_compute; reflexivity).
  destruct (iterator_consumes_chain 8 "vm" (fun _ _ => None) Scenario.linear2
              Scenario.iterated (hash Scenario.G) _ (or_intror Hname) Hrun)
    as (n & Hn & _ & _ & Hlast & Hdb).
  exists n. split; [exact Hn|]. split; [|exact Hdb].
  apply (Hlast (Scenario.full Scenario.A2) true). reflexivity.
Defined.

(** The last call of the callback decides the outcome of a run that it
    ends. *)
Lemma iterator_run_failure fuel name func :
  forall n lastBlock bc calls r b f e,
    iterator_run fuel name func n lastBlock bc = (calls, r) ->
    last calls = Some (b, f) -> func b f = Some e ->
    exists bc1,
      r = run_error e bc1
      /\ _heads bc1 !! name = Some (hash (header b))
      /\ db bc1 = db bc.
Proof.
  induction fuel as [|fuel IH]; intros n lastBlock bc calls r b f e H Hl Hf.
  { injection H as <- _. discriminate. }
  rewrite iterator_run_S in H. cbv zeta in H.
  destruct (dbm_getBlock (TagNumber n) bc) as [e0|block] eqn:Hget.
  { injection H as <- _. discriminate. }
  set (bc1 := with_heads _ bc) in H.
  destruct (func block (reorg_flag lastBlock block)) as [e0|] eqn:Hf0.
  - injection H as <- <-. injection Hl as <- <-.
    rewrite Hf0 in Hf. injection Hf as ->.
    exists bc1. split; [reflexivity|]. split; [apply lookup_insert_eq|reflexivity].
  - destruct (iterator_run fuel name func (n + 1) (Some block) bc1) as [calls1 r1] eqn:Hrun.
    simpl in H. injection H as <- <-.
    destruct calls1 as [|c calls1].
    + injection Hl as <- <-. congruence.
    + destruct (IH _ _ _ _ _ _ _ _ Hrun Hl Hf) as (bc2 & -> & Hh & Hdb).
      exists bc2. auto.
Qed.

(** When the callback fails on a block, the head [name] already is that
    block: the head is moved before the callback runs.  With an error
    whose type is not [NotFoundError], the iterator returns that error
    without writing to the store; with an error of type [NotFoundError],
    the iterator takes it for the end of the chain: it succeeds, and saves
    the heads, moved, to the store. *)
Theorem iterator_callback_failure (fuel : nat) (name : string)
    (func : Block -> bool -> option Error) (bc : Blockchain)
    (calls : list (Block * bool)) (r : Res unit) (b : Block) (f : bool) (e : Error) :
  _iterator fuel name func bc = (calls, r) ->
  last calls = Some (b, f) ->
  func b f = Some e ->
  (e <> NotFoundError ->
   exists bc', r = Err e bc'
               /\ _heads bc' !! name = Some (hash (header b))
               /\ db bc' = db bc)
  /\ (e = NotFoundError ->
      exists bc', r = Ok tt bc'
                  /\ _heads bc' !! name = Some (hash (header b))
                  /\ db bc' !! headsKey = Some (VHeads (_heads bc'))).
Proof.
  intros H Hl Hf. unfold _iterator in H.
  destruct (match heads_member name (_heads bc) with
            | OwnHash h => inr (Some h)
            | Inherited => inl TypeError
            | Absent => inr (_genesis bc)
            end) as [e0|[h|]].
  { injection H as <- _. discriminate. }
  2: { injection H as <- _. discriminate. }
  destruct (dbm_hashToNumber h bc) as [n|]; [|injection H as <- _; discriminate].
  destruct (iterator_run_failure _ _ _ _ _ _ _ _ _ _ _ H Hl Hf) as (bc1 & -> & Hh & Hdb).
  unfold run_error. split.
  - intros Hne. rewrite decide_False by assumption. eauto.
  - intros ->. rewrite decide_True by reflexivity.
    eexists. split; [reflexivity|]. split; [exact Hh|].
    unfold _batchDbOps. cbn [db with_db _heads].
    destruct (batch_saveHeadOps [] bc1 (db bc1)) as (_ & _ & Hheads). exact Hheads.
Qed.

(** A callback that accepts A1 only: the iterator fails at A2 with the
    error of the callback; a callback that reports A2 as not found: the
    iterator succeeds with the head at A2. *)
Lemma iterator_callback_failure_witness :
  (exists bc', (_iterator 8 "vm" only_A1 Scenario.linear2).2 = Err CallbackError bc'
               /\ _heads bc' !! "vm"%string = Some (hash Scenario.A2))
  /\ (exists bc', (_iterator 8 "vm" lost_A2 Scenario.linear2).2 = Ok tt bc'
                  /\ _heads bc' !! "vm"%string = Some (hash Scenario.A2)).
Proof.
  split.
  - destruct (iterator_callback_failure 8 "vm" only_A1 Scenario.linear2
                (_iterator 8 "vm" only_A1 Scenario.linear2).1
                (_iterator 8 "vm" only_A1 Scenario.linear2).2
                (Scenario.full Scenario.A2) true CallbackError) as [Hfail _].
    + apply surjective_pairing.
    + vm_compute. reflexivity.
    + vm_compute. reflexivity.
    + destruct Hfail as (bc' & Hr & Hh & _); [discriminate|]. eauto.
  - destruct (iterator_callback_failure 8 "vm" lost_A2 Scenario.linear2
                (_iterator 8 "vm" lost_A2 Scenario.linear2).1
                (_iterator 8 "vm" lost_A2 Scenario.linear2).2
                (Scenario.full Scenario.A2) true NotFoundError) as [_ Hend].
    + apply surjective_pairing.
    + vm_compute. reflexivity.
    + vm_compute. reflexivity.
    + destruct (Hend eq_refl) as (bc' & Hr & Hh & _). eauto.
Defined.

(** ** The delete path *)

Lemma _delChild_S fuel h num headHash ops bc :
  _delChild (S fuel) h num headHash ops bc
  = let ops1 := ops ++ map OpDel (del_keys h num) in
    let bc1 := foldl (fun b k => cache_del k b) bc (del_keys h num) in
    match headHash with
    | None => Ok ops1 bc1
    | Some hh =>
        match _headHeader bc1, _headBlock bc1 with
        | Some cur, Some curb =>
            let bc2 := if decide (h = cur) then with_headHeader (Some hh) bc1 else bc1 in
            let bc3 := if decide (h = curb) then with_headBlock (Some hh) bc2 else bc2 in
            match _getCanonicalHeader (num + 1) bc3 with
            | None => Ok ops1 bc3
            | Some child => _delChild fuel (hash child) (number child) headHash ops1 bc3
            end
        | None, _ => Err TypeError bc1
        | Some cur, None =>
            Err TypeError (if decide (h = cur) then with_headHeader (Some hh) bc1 else bc1)
        end
    end.
Proof. reflexivity. Qed.

Lemma del_keys_is_del h num : Forall is_del (map OpDel (del_keys h num)).
Proof. repeat constructor; eexists; (split; [reflexivity|discriminate]). Qed.

Lemma lockstep_dels d ops bc ks :
  lockstep d ops bc ->
  lockstep d (ops ++ map OpDel ks) (foldl (fun b k => cache_del k b) bc ks).
Proof.
  revert ops bc. induction ks as [|k ks IH]; intros ops bc Hl; simpl.
  - rewrite app_nil_r. assumption.
  - change (OpDel k :: map OpDel ks) with ([OpDel k] ++ map OpDel ks).
    rewrite app_assoc. apply IH, lockstep_del, Hl.
Qed.

(** [_delChild] appends deletions only, starting with the four keys of the
    block; it writes neither the store nor the iterator heads nor the cache
    of the canonical assignments, and it keeps the caches in step with the
    batch.  A head that is the block, or already is [headHash], ends as
    [headHash]. *)
Lemma delChild_spec fuel :
  forall h num headHash ops bc ops' bc',
    _delChild fuel h num headHash ops bc = Ok ops' bc' ->
    (exists extra, ops' = ops ++ map OpDel (del_keys h num) ++ extra /\ Forall is_del extra)
    /\ db bc' = db bc
    /\ _heads bc' = _heads bc
    /\ (forall d, lockstep d ops bc -> lockstep d ops' bc')
    /\ (forall n, cache_get (numberToHashKey n) bc' = cache_get (numberToHashKey n) bc)
    /\ (forall p, headHash = Some p ->
          (_headHeader bc = Some h \/ _headHeader bc = Some p -> _headHeader bc' = Some p)
          /\ (_headBlock bc = Some h \/ _headBlock bc = Some p -> _headBlock bc' = Some p))
    /\ (headHash = None ->
          _headHeader bc' = _headHeader bc /\ _headBlock bc' = _headBlock bc).
Proof.
  induction fuel as [|fuel IH]; intros h num headHash ops bc ops' bc' H; [discriminate|].
  rewrite _delChild_S in H. cbv zeta in H.
  set (ks := del_keys h num) in *.
  set (bc1 := foldl (fun b k => cache_del k b) bc ks) in H.
  destruct (cache_dels_fields ks bc) as (Hdb1 & _ & Hheads1 & _ & Hhh1 & Hhb1 & _).
  fold bc1 in Hdb1, Hheads1, Hhh1, Hhb1.
  assert (Hc1 : forall n, cache_get (numberToHashKey n) bc1
                          = cache_get (numberToHashKey n) bc).
  { intros n. unfold bc1. rewrite cache_get_cache_dels. apply decide_False.
    unfold ks, del_keys. rewrite !elem_of_cons, elem_of_nil.
    intros [?|[?|[?|[?|[]]]]]; discriminate. }
  destruct headHash as [p|].
  - destruct (_headHeader bc1) as [cur|] eqn:Hcur; [|discriminate].
    destruct (_headBlock bc1) as [curb|] eqn:Hcurb; [|discriminate].
    set (bc2 := if decide (h = cur) then _ else _) in H.
    set (bc3 := if decide (h = curb) then _ else _) in H.
    assert (H3 : db bc3 = db bc1 /\ cache bc3 = cache bc1 /\ _heads bc3 = _heads bc1
                 /\ (_headHeader bc = Some h \/ _headHeader bc = Some p ->
                     _headHeader bc3 = Some p)
                 /\ (_headBlock bc = Some h \/ _headBlock bc = Some p ->
                     _headBlock bc3 = Some p)).
    { unfold bc3, bc2.
      rewrite <- Hhh1, <- Hhb1.
      destruct (decide (h = cur)) as [He1|Hn1], (decide (h = curb)) as [He2|Hn2]; simpl;
        rewrite ?Hcur, ?Hcurb;
        (split; [reflexivity|]; split; [reflexivity|]; split; [reflexivity|]);
        split; try (intros _; reflexivity);
        intros [Heq|Heq]; congruence. }
    destruct H3 as (Hdb3 & Hc3 & Hheads3 & Hhh3 & Hhb3).
    assert (Hl3 : forall d, lockstep d ops bc -> lockstep d (ops ++ map OpDel ks) bc3).
    { intros d Hl. eapply lockstep_fields; [exact Hdb3|exact Hc3|].
      apply lockstep_dels. assumption. }
    assert (Hc3' : forall n, cache_get (numberToHashKey n) bc3
                             = cache_get (numberToHashKey n) bc).
    { intros n. rewrite <- Hc1. unfold cache_get. rewrite Hc3. reflexivity. }
    destruct (_getCanonicalHeader (num + 1) bc3) as [child|].
    + apply IH in H as ((extra & -> & Hex) & Hdb & Hheads & Hl & Hc & Hp & _).
      destruct (Hp p eq_refl) as [Hph Hpb].
      split.
      { exists (map OpDel (del_keys (hash child) (number child)) ++ extra).
        split; [rewrite <- !app_assoc; reflexivity|].
        apply Forall_app. split; [apply del_keys_is_del|assumption]. }
      split; [congruence|]. split; [congruence|].
      split; [intros d Hl0; apply Hl, Hl3, Hl0|].
      split; [intros n; rewrite Hc; apply Hc3'|].
      split; [|discriminate].
      intros p' [= <-]. split; intros Hor.
      * apply Hph. right. apply Hhh3. assumption.
      * apply Hpb. right. apply Hhb3. assumption.
    + injection H as <- <-.
      split; [exists []; rewrite app_nil_r; split; [reflexivity|constructor]|].
      split; [congruence|]. split; [congruence|].
      split; [exact Hl3|]. split; [exact Hc3'|].
      split; [|discriminate].
      intros p' [= <-]. split; assumption.
  - injection H as <- <-.
    split; [exists []; rewrite app_nil_r; split; [reflexivity|constructor]|].
    split; [assumption|]. split; [assumption|].
    split; [intros d Hl; apply lockstep_dels; assumption|].
    split; [exact Hc1|].
    split; [discriminate|]. intros _. split; assumption.
Qed.

Lemma reset_heads_lookup stale p (hs : gmap string Hash) name :
  reset_heads stale p hs !! name
  = (fun v => if decide (v = stale) then p else v) <$> hs !! name.
Proof. unfold reset_heads. apply lookup_fmap. Qed.

(** [_deleteStaleAssignments] moves to [headHash] the iterator heads and
    the head block that are the assignment of the first number; what
    already is [headHash] stays, and a key absent from the caches stays
    absent. *)
Lemma deleteStale_heads fuel :
  forall num p ops bc ops' bc',
    _deleteStaleAssignments fuel num p ops bc = Ok ops' bc' ->
    (forall name, _heads bc !! name = Some p -> _heads bc' !! name = Some p)
    /\ (_headBlock bc = Some p -> _headBlock bc' = Some p)
    /\ (forall k, cache_get k bc = None -> cache_get k bc' = None)
    /\ (forall stale, dbm_numberToHash num bc = Some stale ->
          (forall name, _heads bc !! name = Some stale -> _heads bc' !! name = Some p)
          /\ (_headBlock bc = Some stale -> _headBlock bc' = Some p)
          /\ OpDel (numberToHashKey num) ∈ ops'
          /\ cache_get (numberToHashKey num) bc' = None).
Proof.
  induction fuel as [|fuel IH]; intros num p ops bc ops' bc' H; [discriminate|].
  rewrite _deleteStaleAssignments_S in H. cbv zeta in H.
  destruct (dbm_numberToHash num bc) as [stale|].
  - set (bc1 := with_heads _ _) in H.
    destruct (cache_del_fields (numberToHashKey num) bc) as (_ & _ & _ & _ & _ & Hhb & _).
    assert (Hhb1 : _headBlock bc1 = _headBlock bc) by exact Hhb.
    destruct (_headBlock bc1) as [hb|] eqn:Hb1; [|discriminate].
    set (bc2 := if decide (hb = stale) then _ else _) in H.
    assert (Hheads2 : _heads bc2 = reset_heads stale p (_heads bc)).
    { unfold bc2, bc1. destruct (decide (hb = stale)); reflexivity. }
    assert (Hc2 : forall k, cache_get k bc2 = cache_get k (cache_del (numberToHashKey num) bc)).
    { intros k. unfold bc2. destruct (decide (hb = stale)); reflexivity. }
    assert (Hb2 : _headBlock bc2 = if decide (hb = stale) then Some p else Some hb).
    { unfold bc2. destruct (decide (hb = stale)); simpl; [reflexivity|assumption]. }
    pose proof (deleteStale_frame _ _ _ _ _ _ _ H) as (extra & Hops & _).
    destruct (IH _ _ _ _ _ _ H) as (Hp & Hbp & Hnone & _).
    assert (Hkeep : forall name, _heads bc !! name = Some p -> _heads bc2 !! name = Some p).
    { intros name Hn. rewrite Hheads2, reset_heads_lookup, Hn. simpl.
      destruct (decide (p = stale)); reflexivity. }
    split; [intros name Hn; apply Hp, Hkeep, Hn|].
    split.
    { intros Hbc. apply Hbp. rewrite Hb2. rewrite <- Hhb1 in Hbc. injection Hbc as ->.
      destruct (decide (p = stale)); reflexivity. }
    split.
    { intros k Hk. apply Hnone. rewrite Hc2, cache_get_cache_del.
      destruct (decide (k = numberToHashKey num)); [reflexivity|assumption]. }
    intros stale' [= <-]. split; [|split; [|split]].
    + intros name Hn. apply Hp. rewrite Hheads2, reset_heads_lookup, Hn. simpl.
      rewrite decide_True by reflexivity. reflexivity.
    + intros Hbc. apply Hbp. rewrite Hb2. rewrite <- Hhb1 in Hbc. injection Hbc as ->.
      rewrite decide_True by reflexivity. reflexivity.
    + rewrite Hops. rewrite !elem_of_app. left. right. left.
    + apply Hnone. rewrite Hc2, cache_get_cache_del, decide_True by reflexivity.
      reflexivity.
  - injection H as <- <-. split; [auto|]. split; [auto|]. split; [auto|]. discriminate.
Qed.

Lemma batch_only_dels ops d k v :
  Forall is_del ops -> batch ops d !! k = Some v -> d !! k = Some v.
Proof.
  intros Hall H. apply batch_origin in H as [?|Hin]; [assumption|].
  rewrite Forall_forall in Hall. destruct (Hall _ Hin) as (k' & Hk & _). discriminate.
Qed.

Lemma batch_deleted ops d k :
  Forall is_del ops -> OpDel k ∈ ops -> batch ops d !! k = None.
Proof.
  intros Hall Hin. apply list_elem_of_split in Hin as (l1 & l2 & ->).
  apply Forall_app in Hall as [_ Hall]. inversion Hall as [|? ? _ Hall2]; subst.
  rewrite batch_app. simpl.
  change (batch l2 (delete k (batch l1 d)) !! k = None).
  destruct (batch l2 (delete k (batch l1 d)) !! k) as [v|] eqn:Hv; [|reflexivity].
  apply batch_only_dels in Hv; [|assumption].
  rewrite lookup_delete_eq in Hv. discriminate.
Qed.

Lemma is_n2h_del_is_del ops : Forall is_n2h_del ops -> Forall is_del ops.
Proof.
  intros H. eapply Forall_impl; [exact H|]. intros o [n ->].
  eexists. split; [reflexivity|discriminate].
Qed.

Lemma is_del_untouched ops k :
  Forall is_del ops -> family k = None -> Forall (fun o => op_key o <> k) ops.
Proof.
  intros H Hk. eapply Forall_impl; [exact H|]. intros o (k' & -> & Hf). simpl. congruence.
Qed.

Lemma deleteStale_dels fuel :
  forall num p ops bc ops' bc',
    _deleteStaleAssignments fuel num p ops bc = Ok ops' bc' ->
    exists dels, ops' = ops ++ dels /\ Forall is_n2h_del dels.
Proof.
  induction fuel as [|fuel IH]; intros num p ops bc ops' bc' H; [discriminate|].
  rewrite _deleteStaleAssignments_S in H. cbv zeta in H.
  destruct (dbm_numberToHash num bc) as [stale|].
  - destruct (_headBlock _) as [hb|]; [|discriminate].
    apply IH in H as (dels & -> & Hd).
    exists (OpDel (numberToHashKey num) :: dels).
    split; [rewrite <- app_assoc; reflexivity|].
    constructor; [eexists; reflexivity|assumption].
  - injection H as <- <-. exists []. rewrite app_nil_r. split; [reflexivity|constructor].
Qed.

(** The batch of a successful [_delBlock]: deletions only, among them the
    four keys of the block. *)
Lemma delBlock_ops fuel h bc bc' :
  _delBlock fuel h bc = Ok tt bc' ->
  exists hd ops,
    _getHeader h None bc = Some hd
    /\ db bc' = batch ops (db bc)
    /\ Forall is_del ops
    /\ (forall k, k ∈ del_keys h (number hd) -> OpDel k ∈ ops)
    /\ (coherent bc -> coherent bc').
Proof.
  unfold _delBlock.
  destruct (_getHeader h None bc) as [hd|]; [|discriminate].
  set (can := bool_decide (dbm_numberToHash (number hd) bc = Some h)).
  destruct (_delChild fuel h (number hd) (if can then Some (parentHash hd) else None) [] bc)
    as [ops1 bc1| |] eqn:Hchild; try discriminate.
  destruct (delChild_spec _ _ _ _ _ _ _ _ Hchild)
    as ((extra & Hops1 & Hextra) & Hdb1 & _ & Hl1 & _).
  rewrite app_nil_l in Hops1.
  assert (Hdel1 : Forall is_del ops1).
  { rewrite Hops1. apply Forall_app. split; [apply del_keys_is_del|assumption]. }
  assert (Hin1 : forall k, k ∈ del_keys h (number hd) -> OpDel k ∈ ops1).
  { intros k Hk. rewrite Hops1. apply elem_of_app. left.
    apply list_elem_of_fmap. exists k. auto. }
  destruct can.
  - destruct (_deleteStaleAssignments fuel (number hd) (parentHash hd) ops1 bc1)
      as [ops2 bc2| |] eqn:Hdel; try discriminate.
    intros [= <-]. exists hd, ops2. split; [reflexivity|].
    pose proof (deleteStale_frame _ _ _ _ _ _ _ Hdel) as (e0 & _ & _ & (Hdb2 & _)).
    destruct (deleteStale_dels _ _ _ _ _ _ _ Hdel) as (dels & Hshape & Hdels).
    subst ops2.
    split; [simpl; congruence|].
    split; [apply Forall_app; split; [assumption|apply is_n2h_del_is_del; assumption]|].
    split; [intros k Hk; apply elem_of_app; left; apply Hin1, Hk|].
    intros Hc. apply coherent_lockstep in Hc. apply Hl1 in Hc.
    destruct (deleteStale_spec (db bc) _ _ _ _ _ _ _ Hc Hdel) as (_ & _ & _ & [Hd Hl] & _).
    intros k v Hg. unfold _batchDbOps in *. rewrite cache_get_with_db in Hg.
    simpl. rewrite Hd. apply Hl. assumption.
  - intros [= <-]. exists hd, ops1. split; [reflexivity|].
    split; [simpl; congruence|]. split; [assumption|]. split; [assumption|].
    intros Hc. apply coherent_lockstep in Hc. apply Hl1 in Hc. destruct Hc as [Hd Hl].
    intros k v Hg. unfold _batchDbOps in *. rewrite cache_get_with_db in Hg.
    simpl. rewrite Hd. apply Hl. assumption.
Qed.

(** A successful [delBlock(h)] only deletes: every value of the store
    afterwards was there before; the header, the body, the hashToNumber entry
    and the total difficulty of [h] are gone; and the three head records of
    the store ([LastHeader], [LastBlock], [heads]) are not written, whatever
    happened to the heads of the object. *)
Theorem delBlock_only_deletes (fuel : nat) (h : Hash) (bc bc' : Blockchain) :
  _delBlock fuel h bc = Ok tt bc' ->
  (forall k v, db bc' !! k = Some v -> db bc !! k = Some v)
  /\ (exists hd, _getHeader h None bc = Some hd
                 /\ forall k, k ∈ del_keys h (number hd) -> db bc' !! k = None)
  /\ db bc' !! headHeaderKey = db bc !! headHeaderKey
  /\ db bc' !! headBlockKey = db bc !! headBlockKey
  /\ db bc' !! headsKey = db bc !! headsKey.
Proof.
  intros H. apply delBlock_ops in H as (hd & ops & Hhd & -> & Hdel & Hin & _).
  split; [intros k v; apply batch_only_dels; assumption|].
  split; [exists hd; split; [assumption|]; intros k Hk; apply batch_deleted; auto|].
  split; [|split]; apply batch_untouched, is_del_untouched; auto.
Qed.

(** The caches stay in agreement with the store across a successful
    [delBlock]. *)
Theorem delBlock_coherent (fuel : nat) (h : Hash) (bc bc' : Blockchain) :
  coherent bc ->
  _delBlock fuel h bc = Ok tt bc' ->
  coherent bc'.
Proof.
  intros Hc H. apply delBlock_ops in H as (_ & _ & _ & _ & _ & _ & Hco). auto.
Qed.

Lemma delBlock_A1_ok :
  _delBlock 8 (hash Scenario.A1) Scenario.linear2 = Ok tt linear2_without_A1.
Proof. apply ok_state_of. vm_compute. reflexivity. Qed.

Lemma delBlock_only_deletes_witness :
  db linear2_without_A1 !! headHeaderKey = db Scenario.linear2 !! headHeaderKey
  /\ db Scenario.linear2 !! headHeaderKey = Some (VHead (Some (hash Scenario.A2))).
Proof.
  destruct (delBlock_only_deletes 8 (hash Scenario.A1) Scenario.linear2 linear2_without_A1
              delBlock_A1_ok) as (_ & _ & Hh & _).
  split; [exact Hh|]. vm_compute. reflexivity.
Defined.

Lemma delBlock_coherent_witness : coherent linear2_without_A1.
Proof.
  apply (delBlock_coherent 8 (hash Scenario.A1) Scenario.linear2).
  - apply reachable_Inv, reachable_linear2.
  - exact delBlock_A1_ok.
Defined.

(** A successful [delBlock(h)] of the canonical block [h] of its number
    moves to the parent of [h] whatever pointed at [h]: [_headHeader],
    [_headBlock] and every iterator head; and the canonical assignment of
    the number of [h] is gone, from the store and from the cache. *)
Theorem delBlock_canonical_heads (fuel : nat) (h : Hash) (hd : Header)
    (bc bc' : Blockchain) :
  _getHeader h None bc = Some hd ->
  dbm_numberToHash (number hd) bc = Some h ->
  _delBlock fuel h bc = Ok tt bc' ->
  (_headHeader bc = Some h -> _headHeader bc' = Some (parentHash hd))
  /\ (_headBlock bc = Some h -> _headBlock bc' = Some (parentHash hd))
  /\ (forall name, _heads bc !! name = Some h ->
                   _heads bc' !! name = Some (parentHash hd))
  /\ dbm_numberToHash (number hd) bc' = None.
Proof.
  intros Hhd Hcan H.
  pose proof (delBlock_ops _ _ _ _ H) as (hd' & ops & Hhd' & Hdb & Hdels & _).
  unfold _delBlock in H. rewrite Hhd in H.
  rewrite bool_decide_eq_true_2 in H by assumption.
  destruct (_delChild fuel h (number hd) (Some (parentHash hd)) [] bc)
    as [ops1 bc1| |] eqn:Hchild; try discriminate.
  destruct (_deleteStaleAssignments fuel (number hd) (parentHash hd) ops1 bc1)
    as [ops2 bc2| |] eqn:Hdel; try discriminate.
  injection H as <-.
  destruct (delChild_spec _ _ _ _ _ _ _ _ Hchild)
    as (_ & Hdb1 & Hheads1 & _ & Hc1 & Hp & _).
  destruct (Hp _ eq_refl) as [Hph Hpb].
  pose proof (deleteStale_frame _ _ _ _ _ _ _ Hdel) as (_ & _ & _ & (Hdb2 & _ & _ & Hhh2)).
  destruct (deleteStale_heads _ _ _ _ _ _ _ Hdel) as (Hkeep & Hbkeep & _ & Hfirst).
  assert (Hcan1 : dbm_numberToHash (number hd) bc1 = Some h).
  { rewrite <- Hcan. unfold dbm_numberToHash, db_get. rewrite Hc1, Hdb1. reflexivity. }
  destruct (Hfirst _ Hcan1) as (Hnames & Hbfirst & Hin & Hnone).
  split; [|split; [|split]].
  - intros Hh. simpl. rewrite Hhh2. apply Hph. auto.
  - intros Hb. simpl. apply Hbkeep, Hpb. auto.
  - intros name Hn. simpl. apply Hnames. rewrite Hheads1. assumption.
  - unfold dbm_numberToHash, db_get, _batchDbOps. rewrite cache_get_with_db, Hnone.
    change (db (with_db (batch ops2 (db bc2)) bc2)) with (batch ops2 (db bc2)).
    assert (Hall : Forall is_del ops2).
    { destruct (delChild_spec _ _ _ _ _ _ _ _ Hchild) as ((extra & -> & Hex) & _).
      destruct (deleteStale_dels _ _ _ _ _ _ _ Hdel) as (dels & -> & Hd).
      rewrite app_nil_l. apply Forall_app. split.
      - apply Forall_app. split; [apply del_keys_is_del|assumption].
      - apply is_n2h_del_is_del. assumption. }
    rewrite batch_deleted by assumption. reflexivity.
Qed.

Lemma delBlock_canonical_heads_witness :
  _headHeader Scenario.linear2 = Some (hash Scenario.A2)
  /\ _headHeader linear2_without_A1 = Some (hash Scenario.G)
  /\ dbm_numberToHash 1 linear2_without_A1 = None.
Proof.
  destruct (delBlock_canonical_heads 8 (hash Scenario.A1) Scenario.A1 Scenario.linear2
              linear2_without_A1) as (_ & _ & _ & Hn).
  - vm_compute. reflexivity.
  - vm_compute. reflexivity.
  - exact delBlock_A1_ok.
  - split; [vm_compute; reflexivity|]. split; [vm_compute; reflexivity|exact Hn].
Defined.

(** ** The fresh store *)

(** The batch of the put of the genesis block on an object over a store
    without any record of the chain. *)
Lemma rebuildInfo_fresh fuel g td cur d0 max ops bc1 :
  (forall k, chain_key k -> d0 !! k = None) ->
  number (header g) = 0 ->
  rebuildInfo fuel true false g td cur (new_Blockchain d0 max) = Ok ops bc1 ->
  ops = [OpPut (tdKey 0 (hash (header g))) (VTd td);
         OpPut (headerKey 0 (hash (header g))) (VHeader (header g));
         OpPut (bodyKey 0 (hash (header g))) (VBody (transactions g) (uncleHeaders g));
         OpPut (numberToHashKey 0) (VHash (hash (header g)));
         OpPut (hashToNumberKey (hash (header g))) (VNumber 0)].
Proof.
  intros Hd0 Hnum. unfold rebuildInfo.
  destruct (save_block_spec true g td (new_Blockchain d0 max) (new_Blockchain_coherent d0 max))
    as (ops0 & bc0 & Hs & _ & Hl0 & _ & _ & Hnon & _).
  assert (Hops0 : ops0 = [OpPut (tdKey 0 (hash (header g))) (VTd td);
                          OpPut (headerKey 0 (hash (header g))) (VHeader (header g));
                          OpPut (bodyKey 0 (hash (header g)))
                            (VBody (transactions g) (uncleHeaders g))]).
  { unfold save_block in Hs. simpl has_body in Hs. cbv iota in Hs.
    rewrite Hnum in Hs. injection Hs as <- _. reflexivity. }
  rewrite Hs. unfold winsHeader, block_isGenesis. rewrite Hnum. simpl.
  set (bcw := with_genesis _ _).
  assert (Hlw : lockstep d0 ops0 bcw) by (eapply lockstep_fields; [| |exact Hl0]; reflexivity).
  destruct fuel as [|fuel]; [discriminate|].
  rewrite _deleteStaleAssignments_S.
  destruct (dbm_numberToHash (0 + 1) bcw) as [stale|] eqn:Hn.
  { exfalso. apply dbm_numberToHash_Some in Hn.
    destruct (lockstep_get _ _ _ _ _ Hlw Hn) as [He|Hin].
    - rewrite Hd0 in He by discriminate. discriminate.
    - rewrite Forall_forall in Hnon. apply (Hnon _ Hin). reflexivity. }
  rewrite _rebuildCanonical_S. cbv zeta. rewrite Hnum. simpl.
  intros [= <- _]. rewrite Hops0. reflexivity.
Qed.

(** An object initialised over an empty store with a genesis block [g] of
    number 0: the genesis block is the header head, the block head and the
    genesis of the object, there is no iterator head, number 0 is assigned
    to it, its total difficulty is its own difficulty, and the latest block
    read back is [g] itself. *)
Theorem init_fresh_store (fuel : nat) (cfg : Config) (g : Block) (max : nat)
    (bc0 : Blockchain) :
  number (header g) = 0 ->
  _init fuel cfg g (new_Blockchain ∅ max) = Ok tt bc0 ->
  _headHeader bc0 = Some (hash (header g))
  /\ _headBlock bc0 = Some (hash (header g))
  /\ _genesis bc0 = Some (hash (header g))
  /\ _heads bc0 = ∅
  /\ dbm_numberToHash 0 bc0 = Some (hash (header g))
  /\ _getTd (hash (header g)) None bc0 = Some (difficulty (header g))
  /\ getLatestBlock bc0 = inr g
  /\ getLatestHeader bc0 = inr (header g).
Proof.
  intros Hnum Hinit.
  pose proof (init_Inv _ _ _ _ _ Hnum Hinit) as (Hc & _).
  unfold _init in Hinit.
  assert (Hnone : dbm_numberToHash 0 (new_Blockchain ∅ max) = None).
  { unfold dbm_numberToHash, db_get. simpl. rewrite lookup_empty. reflexivity. }
  rewrite Hnone in Hinit.
  destruct (_putBlockOrHeader _ _ _ _ _) as [[] bcp| |] eqn:Hput; try discriminate.
  injection Hinit as <-.
  apply put_ok_inv in Hput as (epochs & cur & td & ops & bc1 & Hcur & Htd & Hr & ->).
  simpl item_block in *. simpl item_isHeader in *.
  injection Htd as <-.
  assert (Hgen : block_isGenesis g = true) by (apply Z.eqb_eq; assumption).
  pose proof (rebuildInfo_genesis _ _ _ _ _ _ _ _ _ Hr Hgen) as Hg.
  rewrite fresh_after_verifier in Hr.
  pose proof (rebuildInfo_fresh _ _ _ _ _ _ _ _ (ethash_writes_empty epochs) Hnum Hr) as ->.
  pose proof (rebuildInfo_inv _ _ _ _ _ _ _ _ _ Hr) as (_ & _ & _ & _ & _ & Hdb1 & _).
  set (bcp := _batchDbOps _ bc1) in *.
  set (bc0 := with_headBlock _ _) in *.
  assert (Hget : forall k, db_get k bc0 = db bcp !! k).
  { intros k. apply (coherent_db_get bc0 k Hc). }
  assert (Hdb : db bcp
    = <[headBlockKey := VHead (_headBlock bc1)]>
       (<[headHeaderKey := VHead (_headHeader bc1)]>
         (<[headsKey := VHeads (_heads bc1)]>
           (<[hashToNumberKey (hash (header g)) := VNumber 0]>
             (<[numberToHashKey 0 := VHash (hash (header g))]>
               (<[bodyKey 0 (hash (header g)) := VBody (transactions g) (uncleHeaders g)]>
                 (<[headerKey 0 (hash (header g)) := VHeader (header g)]>
                   (<[tdKey 0 (hash (header g)) := VTd (difficulty (header g))]>
                      (ethash_writes epochs ∅))))))))).
  { unfold bcp, _batchDbOps. simpl. rewrite Hdb1. reflexivity. }
  assert (Hn2h : db bcp !! numberToHashKey 0 = Some (VHash (hash (header g)))).
  { rewrite Hdb. rewrite !lookup_insert_ne by discriminate. apply lookup_insert_eq. }
  assert (Hh2n : db bcp !! hashToNumberKey (hash (header g)) = Some (VNumber 0)).
  { rewrite Hdb. rewrite !lookup_insert_ne by discriminate. apply lookup_insert_eq. }
  assert (Hhdr : db bcp !! headerKey 0 (hash (header g)) = Some (VHeader (header g))).
  { rewrite Hdb. rewrite !lookup_insert_ne by discriminate. apply lookup_insert_eq. }
  assert (Hbody : db bcp !! bodyKey 0 (hash (header g))
                  = Some (VBody (transactions g) (uncleHeaders g))).
  { rewrite Hdb. rewrite !lookup_insert_ne by discriminate. apply lookup_insert_eq. }
  assert (Htd : db bcp !! tdKey 0 (hash (header g)) = Some (VTd (difficulty (header g)))).
  { rewrite Hdb. rewrite !lookup_insert_ne by discriminate. apply lookup_insert_eq. }
  assert (Hblock : dbm_getBlock (TagHash (hash (header g))) bc0 = inr g).
  { unfold dbm_getBlock, dbm_hashToNumber, dbm_getHeader, dbm_getBody.
    rewrite Hget, Hh2n, Hget, Hhdr, Hget, Hbody. destruct g; reflexivity. }
  assert (Hgen0 : _genesis bcp = Some (hash (header g))) by exact Hg.
  split; [exact Hgen0|]. split; [exact Hgen0|]. split; [exact Hgen0|].
  split; [reflexivity|].
  split; [unfold dbm_numberToHash; rewrite Hget, Hn2h; reflexivity|].
  split.
  { unfold _getTd, _lookupByHashNumber, dbm_hashToNumber, dbm_getTd.
    rewrite Hget, Hh2n, Hget, Htd. reflexivity. }
  unfold getLatestBlock, getLatestHeader.
  change (_headBlock bc0) with (_genesis bcp). change (_headHeader bc0) with (_genesis bcp).
  rewrite Hgen0, Hblock. split; reflexivity.
Qed.

Lemma init_fresh_store_witness :
  getLatestBlock Scenario.fresh = inr (mkBlock Scenario.G [] [])
  /\ dbm_numberToHash 0 Scenario.fresh = Some (hash Scenario.G).
Proof.
  destruct (init_fresh_store 8 Scenario.cfg (mkBlock Scenario.G [] []) 4 Scenario.fresh)
    as (_ & _ & _ & _ & Hn & _ & Hb & _).
  - reflexivity.
  - apply ok_state_of. vm_compute. reflexivity.
  - split; [exact Hb|exact Hn].
Defined.

(** ** Reading back what was put *)

Lemma rebuildInfo_body_ops fuel isGenesis isHeader block td cur bc ops bc1 :
  rebuildInfo fuel isGenesis isHeader block td cur bc = Ok ops bc1 ->
  has_body isGenesis block = true ->
  exists extra,
    ops = [OpPut (tdKey (number (header block)) (hash (header block))) (VTd td);
           OpPut (headerKey (number (header block)) (hash (header block)))
             (VHeader (header block));
           OpPut (bodyKey (number (header block)) (hash (header block)))
             (VBody (transactions block) (uncleHeaders block))] ++ extra
    /\ Forall index_op extra.
Proof.
  unfold rebuildInfo, save_block. intros H Hb. rewrite Hb in H.
  destruct (winsHeader block td cur.1).
  - set (bcw := if block_isGenesis block then _ else _) in H.
    destruct (_deleteStaleAssignments _ _ _ _ bcw) as [ops1 bcd| |] eqn:Hdel;
      try discriminate.
    apply deleteStale_frame in Hdel as (e1 & -> & Hall1 & _).
    apply rebuild_frame in H as (e2 & -> & Hall2 & _).
    exists (e1 ++ e2). split; [rewrite <- ?app_assoc; reflexivity|].
    apply Forall_app. split; assumption.
  - injection H as <- _. eexists. split; [rewrite <- ?app_assoc; reflexivity|].
    repeat constructor.
Qed.

(** A successful put leaves the header in the store under its number and
    hash, and the body when it writes one. *)
Lemma tasks_persists_block fuel isGenesis isHeader block bc bc' :
  put_tasks fuel isGenesis isHeader block bc = Ok tt bc' ->
  db bc' !! headerKey (number (header block)) (hash (header block))
  = Some (VHeader (header block))
  /\ (has_body isGenesis block = true ->
      db bc' !! bodyKey (number (header block)) (hash (header block))
      = Some (VBody (transactions block) (uncleHeaders block))).
Proof.
  intros H.
  apply tasks_ok_inv in H as (cur & td & ops & bc1 & _ & _ & Hr & ->).
  unfold _batchDbOps. cbn [db with_db]. split.
  - apply rebuildInfo_inv in Hr as (body_ops & extra & -> & Hbody & Hextra & _).
    rewrite <- !app_assoc. cbn [app].
    change (batch (OpPut ?k ?v :: OpPut ?k' ?v' :: ?l) ?d)
      with (batch l (<[k' := v']> (<[k := v]> d))).
    rewrite batch_untouched; [apply lookup_insert_eq|].
    rewrite !Forall_app. split; [|split].
    + eapply Forall_impl; [exact Hbody|]. simpl. intros o ->. discriminate.
    + eapply Forall_impl; [exact Hextra|]. simpl. intros o Ho.
      apply index_op_key; [assumption|discriminate|discriminate].
    + apply saveHeadOps_keys. discriminate.
  - intros Hb. destruct (rebuildInfo_body_ops _ _ _ _ _ _ _ _ _ Hr Hb) as (extra & -> & Hextra).
    rewrite <- !app_assoc. cbn [app].
    change (batch (OpPut ?k ?v :: OpPut ?k' ?v' :: OpPut ?k'' ?v'' :: ?l) ?d)
      with (batch l (<[k'' := v'']> (<[k' := v']> (<[k := v]> d)))).
    rewrite batch_untouched; [apply lookup_insert_eq|].
    rewrite !Forall_app. split.
    + eapply Forall_impl; [exact Hextra|]. simpl. intros o Ho.
      apply index_op_key; [assumption|discriminate|discriminate].
    + apply saveHeadOps_keys. discriminate.
Qed.

Lemma put_persists_block fuel cfg item isGenesis bc bc' :
  _putBlockOrHeader fuel cfg item isGenesis bc = Ok tt bc' ->
  let block := item_block item in
  db bc' !! headerKey (number (header block)) (hash (header block))
  = Some (VHeader (header block))
  /\ (has_body isGenesis block = true ->
      db bc' !! bodyKey (number (header block)) (hash (header block))
      = Some (VBody (transactions block) (uncleHeaders block))).
Proof.
  intros H block. apply put_pow_inv in H as [epochs H].
  exact (tasks_persists_block _ _ _ _ _ _ H).
Qed.

(** In a state reached from a fresh store, a successful put of a block or
    header of number 1 or more can be read back: [hashToNumber] of its hash
    is its number, [_getHeader] by hash alone finds the header, and for a
    block with transactions or uncles [getBlock] by hash returns the block
    that was put. *)
Theorem put_then_get (fuel : nat) (cfg : Config) (item : Item) (bc bc' : Blockchain) :
  let block := item_block item in
  reachable bc ->
  1 <= number (header block) ->
  _putBlockOrHeader fuel cfg item false bc = Ok tt bc' ->
  dbm_hashToNumber (hash (header block)) bc' = Some (number (header block))
  /\ _getHeader (hash (header block)) None bc' = Some (header block)
  /\ (has_body false block = true ->
      dbm_getBlock (TagHash (hash (header block))) bc' = inr block).
Proof.
  intros block Hreach Hnum Hput.
  pose proof (put_preserves_Inv _ _ _ _ _ (reachable_Inv _ Hreach) Hnum Hput)
    as (Hc & Hwf & _).
  destruct (put_persists_block _ _ _ _ _ _ Hput) as [Hhdr Hbody].
  fold block in Hhdr, Hbody.
  destruct (wf_header _ Hwf _ _ _ Hhdr) as (_ & _ & _ & _ & Hix & _).
  assert (Hn : dbm_hashToNumber (hash (header block)) bc' = Some (number (header block))).
  { unfold dbm_hashToNumber. rewrite (coherent_db_get _ _ Hc), Hix. reflexivity. }
  assert (Hh : dbm_getHeader (hash (header block)) (number (header block)) bc'
               = Some (header block)).
  { unfold dbm_getHeader. rewrite (coherent_db_get _ _ Hc), Hhdr. reflexivity. }
  split; [exact Hn|]. split.
  - unfold _getHeader, _lookupByHashNumber. rewrite Hn. exact Hh.
  - intros Hb. unfold dbm_getBlock. rewrite Hn, Hh.
    unfold dbm_getBody. rewrite (coherent_db_get _ _ Hc), (Hbody Hb).
    destruct block; reflexivity.
Qed.

Lemma put_then_get_witness :
  dbm_getBlock (TagHash (hash Scenario.A2)) Scenario.linear2
  = inr (Scenario.full Scenario.A2).
Proof.
  assert (Hr : reachable Scenario.linear1).
  { exists 8%nat, Scenario.cfg, (mkBlock Scenario.G [] []), 4%nat,
      [ItemBlock 1 (Scenario.full Scenario.A1)], Scenario.fresh.
    split; [reflexivity|].
    split; [apply ok_state_of; vm_compute; reflexivity|].
    split; [repeat constructor; simpl; lia|].
    rewrite (put_all_cons_ok _ _ _ _ _ Scenario.linear1)
      by (apply ok_state_of; vm_compute; reflexivity).
    reflexivity. }
  destruct (put_then_get 8 Scenario.cfg (ItemBlock 1 (Scenario.full Scenario.A2))
              Scenario.linear1 Scenario.linear2 Hr) as (_ & _ & Hb).
  - simpl. lia.
  - apply ok_state_of. vm_compute. reflexivity.
  - apply Hb. reflexivity.
Defined.

(** ** Invariants of the states reached from a fresh store *)

(** The caches never disagree with the store: every read through a cache
    returns what the store holds. *)
Theorem reachable_reads_store (bc : Blockchain) (k : Key) :
  reachable bc -> db_get k bc = db bc !! k.
Proof. intros H. apply coherent_db_get. apply (reachable_Inv _ H). Qed.

Lemma reachable_reads_store_witness :
  db_get (numberToHashKey 2) Scenario.linear2 = db Scenario.linear2 !! numberToHashKey 2.
Proof. apply reachable_reads_store, reachable_linear2. Defined.

(** Lookup round trip: a stored header sits under its own number and hash
    and [hashToNumber] of its hash is that number; a canonical assignment
    [numberToHash(n) = h] resolves to a stored header of number [n] and
    hash [h]. *)
Theorem reachable_lookups (bc : Blockchain) :
  reachable bc ->
  (forall n h x, db bc !! headerKey n h = Some (VHeader x) ->
     hash x = h /\ number x = n
     /\ dbm_hashToNumber h bc = Some n
     /\ _getHeader h None bc = Some x)
  /\ (forall n h, dbm_numberToHash n bc = Some h ->
        exists x, _getCanonicalHeader n bc = Some x /\ hash x = h /\ number x = n
                  /\ dbm_hashToNumber h bc = Some n).
Proof.
  intros Hreach. destruct (reachable_Inv _ Hreach) as (Hc & Hwf & _).
  assert (Hstored : forall n h x, db bc !! headerKey n h = Some (VHeader x) ->
            hash x = h /\ number x = n /\ dbm_hashToNumber h bc = Some n
            /\ _getHeader h None bc = Some x).
  { intros n h x Hx.
    destruct (wf_header _ Hwf _ _ _ Hx) as (x' & [= <-] & Hh & Hn & Hix & _).
    assert (Hnum : dbm_hashToNumber h bc = Some n).
    { unfold dbm_hashToNumber. rewrite (coherent_db_get _ _ Hc), Hix. reflexivity. }
    split; [assumption|]. split; [assumption|]. split; [assumption|].
    unfold _getHeader, _lookupByHashNumber. rewrite Hnum.
    unfold dbm_getHeader. rewrite (coherent_db_get _ _ Hc), Hx. reflexivity. }
  split; [exact Hstored|].
  intros n h Hn. pose proof Hn as Hn'. apply dbm_numberToHash_Some in Hn'.
  rewrite (coherent_db_get _ _ Hc) in Hn'.
  destruct (wf_canonical _ Hwf _ _ Hn') as (x & [= ->] & Hx).
  destruct (Hstored _ _ _ Hx) as (_ & Hnum & Hix & _).
  exists x. split; [|auto].
  unfold _getCanonicalHeader. rewrite Hn. unfold _getHeader. simpl.
  unfold dbm_getHeader. rewrite (coherent_db_get _ _ Hc), Hx. reflexivity.
Qed.

Lemma reachable_lookups_witness :
  exists x, _getCanonicalHeader 2 Scenario.linear2 = Some x
            /\ hash x = hash Scenario.A2 /\ number x = 2.
Proof.
  destruct (reachable_lookups Scenario.linear2 reachable_linear2) as [_ Hcan].
  destruct (Hcan 2 (hash Scenario.A2)) as (x & Hx & Hh & Hn & _).
  - vm_compute. reflexivity.
  - exists x. auto.
Defined.

(** Total difficulties add up: for every stored header of number [n], 1 or
    more, the total difficulty of (parentHash, n - 1) is stored and the
    total difficulty of the header is that plus its own difficulty. *)
Theorem reachable_td_sum (bc : Blockchain) (n : Z) (h : Hash) (x : Header) :
  reachable bc ->
  db bc !! headerKey n h = Some (VHeader x) ->
  n <> 0 ->
  exists tp,
    _getTd (parentHash x) (Some (n - 1)) bc = Some tp
    /\ _getTd h None bc = Some (difficulty x + tp).
Proof.
  intros Hreach Hx Hn. destruct (reachable_Inv _ Hreach) as (Hc & Hwf & _).
  destruct (wf_sum _ Hwf _ _ _ Hx Hn) as (tp & Htp & Htd).
  destruct (wf_header _ Hwf _ _ _ Hx) as (_ & _ & _ & _ & Hix & _).
  exists tp. unfold _getTd, _lookupByHashNumber, dbm_hashToNumber, dbm_getTd.
  rewrite (coherent_db_get _ _ Hc), Htp.
  rewrite (coherent_db_get _ _ Hc), Hix.
  rewrite (coherent_db_get _ _ Hc), Htd. auto.
Qed.

Lemma reachable_td_sum_witness :
  exists tp,
    _getTd (parentHash Scenario.A2) (Some (2 - 1)) Scenario.linear2 = Some tp
    /\ _getTd (hash Scenario.A2) None Scenario.linear2
       = Some (difficulty Scenario.A2 + tp).
Proof.
  apply (reachable_td_sum Scenario.linear2 2 (hash Scenario.A2) Scenario.A2).
  - exact reachable_linear2.
  - vm_compute. reflexivity.
  - discriminate.
Defined.

(** ** Failed puts *)

Lemma deleteStale_err_db fuel :
  forall num p ops bc e bc',
    _deleteStaleAssignments fuel num p ops bc = Err e bc' -> db bc' = db bc.
Proof.
  induction fuel as [|fuel IH]; intros num p ops bc e bc' H; [discriminate|].
  rewrite _deleteStaleAssignments_S in H. cbv zeta in H.
  destruct (dbm_numberToHash num bc) as [stale|]; [|discriminate].
  set (bc1 := with_heads _ _) in H.
  assert (Hdb1 : db bc1 = db bc) by apply (cache_del_fields (numberToHashKey num) bc).
  destruct (_headBlock bc1) as [hb|].
  - apply IH in H. rewrite H. destruct (decide (hb = stale)); assumption.
  - injection H as _ <-. assumption.
Qed.

Lemma rebuild_err_db fuel :
  forall hd ops bc e bc',
    _rebuildCanonical fuel hd ops bc = Err e bc' -> db bc' = db bc.
Proof.
  induction fuel as [|fuel IH]; intros hd ops bc e bc' H; [discriminate|].
  rewrite _rebuildCanonical_S in H. cbv zeta in H.
  set (bc1 := cache_set (hashToNumberKey _) _ _) in H.
  assert (Hdb1 : db bc1 = db bc).
  { unfold bc1.
    destruct (cache_set_fields (hashToNumberKey (hash hd)) (VNumber (number hd))
                (cache_set (numberToHashKey (number hd)) (VHash (hash hd)) bc)) as [-> _].
    apply (cache_set_fields (numberToHashKey (number hd)) (VHash (hash hd)) bc). }
  destruct (number hd =? 0); [discriminate|].
  destruct (bool_decide _); [discriminate|].
  set (bc2 := flag_stale_heads _ _) in H.
  assert (Hdb2 : db bc2 = db bc).
  { unfold bc2. destruct (flag_stale_heads_core (dbm_numberToHash (number hd) bc) bc1)
      as [-> _]. assumption. }
  destruct (flag_stale_headBlock _ bc2) as [bc3|] eqn:Hflag.
  - apply flag_stale_headBlock_core in Hflag as [Hdb3 _].
    destruct (_getHeader (parentHash hd) (Some (number hd - 1)) bc3) as [parent|].
    + apply IH in H. congruence.
    + injection H as _ <-. simpl. congruence.
  - injection H as _ <-. assumption.
Qed.

(** The last tasks of a put write to the store only when they commit. *)
Lemma tasks_failure_db fuel isGenesis isHeader block bc bc' e :
  put_tasks fuel isGenesis isHeader block bc = Err e bc' ->
  db bc' = db bc.
Proof.
  unfold put_tasks.
  destruct (getCurrentTd isGenesis bc) as [cur|]; [|intros [= _ <-]; reflexivity].
  destruct (getBlockTd _ _ _) as [td|]; [|intros [= _ <-]; reflexivity].
  destruct (rebuildInfo _ _ _ _ _ _ _) as [ops bc1|e1 bc1|] eqn:Hr; try discriminate.
  intros [= _ <-]. unfold rebuildInfo in Hr.
  destruct (save_block_inv isGenesis block td bc)
    as (body_ops & bc0 & Hs & _ & (Hdb0 & _)).
  rewrite Hs in Hr.
  destruct (winsHeader _ _ _); [|discriminate].
  set (bcw := if block_isGenesis _ then _ else _) in Hr.
  assert (Hdbw : db bcw = db bc).
  { unfold bcw. destruct (block_isGenesis _), isHeader; simpl; assumption. }
  destruct (_deleteStaleAssignments _ _ _ _ bcw) as [ops1 bcd|e2 bcd|] eqn:Hdel;
    try discriminate.
  - apply rebuild_err_db in Hr.
    apply deleteStale_frame in Hdel as (_ & _ & _ & (Hd & _)). congruence.
  - injection Hr as _ <-. apply deleteStale_err_db in Hdel. congruence.
Qed.

(** A put that fails commits nothing, at whatever task of the series it
    fails: the store is as it was under every key of the chain.  What the
    store may have received are the epoch entries of the verifier, and
    with validation off it is the store as it was. *)
Theorem put_failure_keeps_store (fuel : nat) (cfg : Config) (item : Item)
    (isGenesis : bool) (bc bc' : Blockchain) (e : Error) :
  _putBlockOrHeader fuel cfg item isGenesis bc = Err e bc' ->
  (exists epochs, db bc' = ethash_writes epochs (db bc))
  /\ (forall k, chain_key k -> db bc' !! k = db bc !! k)
  /\ (validate cfg = false -> db bc' = db bc).
Proof.
  intros H.
  assert (Hcore : exists epochs, db bc' = ethash_writes epochs (db bc)
                                 /\ (validate cfg = false -> db bc' = db bc)).
  { unfold _putBlockOrHeader in H.
    destruct (negb _); [injection H as _ <-; exists []; auto|].
    destruct (verify _ _ _ _); [injection H as _ <-; exists []; auto|].
    destruct (verifyPOW cfg (item_block item) bc) as [e1 bc1] eqn:Hpow.
    apply verifyPOW_inv in Hpow as [[epochs ->] Hoff].
    assert (Hdb : db bc' = db (after_verifier epochs bc)).
    { destruct e1; [injection H as _ <-; reflexivity|].
      apply tasks_failure_db in H. assumption. }
    exists epochs. split; [exact Hdb|].
    intros Hv. destruct (Hoff Hv) as [_ Heq]. rewrite Hdb, Heq. reflexivity. }
  destruct Hcore as (epochs & Hdb & Hoff).
  split; [eauto|]. split; [|assumption].
  intros k Hk. rewrite Hdb. apply ethash_writes_lookup. assumption.
Qed.

(** The block C2 put on a chain that does not hold its parent B1, and the
    block A1 put on a fresh object whose verifier refuses it. *)
Lemma put_failure_keeps_store_witness :
  (exists bc',
     _putBlockOrHeader 8 Scenario.cfg (ItemBlock 1 (Scenario.full Scenario.C2)) false
       Scenario.linear1 = Err NotFoundError bc'
     /\ db bc' = db Scenario.linear1)
  /\ (exists bc',
        _putBlockOrHeader 8 Scenario.cfg_strict (ItemBlock 1 (Scenario.full Scenario.A1))
          false Scenario.fresh = Err InvalidPOW bc'
        /\ db bc' !! numberToHashKey 0 = db Scenario.fresh !! numberToHashKey 0).
Proof.
  split.
  - assert (H : _putBlockOrHeader 8 Scenario.cfg (ItemBlock 1 (Scenario.full Scenario.C2))
                  false Scenario.linear1 = Err NotFoundError Scenario.linear1).
    { unfold _putBlockOrHeader, put_tasks. simpl negb. cbv iota.
      assert (Hc : getCurrentTd false Scenario.linear1 = Some (15, 15))
        by (vm_compute; reflexivity).
      assert (Ht : getBlockTd false
                     (header (item_block (ItemBlock 1 (Scenario.full Scenario.C2))))
                     Scenario.linear1 = None) by (vm_compute; reflexivity).
      change (verify Scenario.cfg false _ Scenario.linear1) with (@None Error).
      change (verifyPOW Scenario.cfg _ Scenario.linear1)
        with (@None Error, Scenario.linear1).
      cbv iota beta. rewrite Hc, Ht. reflexivity. }
    exists Scenario.linear1. split; [exact H|].
    destruct (put_failure_keeps_store _ _ _ _ _ _ _ H) as (_ & _ & Hoff).
    apply Hoff. reflexivity.
  - eexists. split; [reflexivity|].
    assert (H : _putBlockOrHeader 8 Scenario.cfg_strict
                  (ItemBlock 1 (Scenario.full Scenario.A1)) false Scenario.fresh
                = Err InvalidPOW (after_verifier [(0, 1)] Scenario.fresh)) by reflexivity.
    destruct (put_failure_keeps_store _ _ _ _ _ _ _ H) as (_ & Hchain & _).
    apply Hchain. discriminate.
Defined.

(** ** The canonical chain *)

Lemma lockstep_read d ops bc k :
  lockstep d ops bc -> (forall v, OpPut k v ∉ ops) -> db_get k bc = d !! k.
Proof.
  intros Hl Hno. destruct (db_get k bc) as [v|] eqn:Hg.
  - destruct (lockstep_get _ _ _ _ _ Hl Hg) as [?|Hin]; [congruence|].
    exfalso. apply (Hno v). assumption.
  - unfold db_get in Hg. destruct (cache_get k bc); [discriminate|].
    destruct Hl as [<- _]. congruence.
Qed.

Lemma assignments_above_no_put m ops j v :
  assignments_above m ops -> j <= m -> OpPut (numberToHashKey j) v ∉ ops.
Proof.
  intros Hall Hj Hin. unfold assignments_above in Hall. rewrite Forall_forall in Hall.
  specialize (Hall _ Hin j eq_refl). lia.
Qed.

Lemma assignments_above_untouched m ops j d :
  assignments_above m ops -> j <= m ->
  batch ops d !! numberToHashKey j = d !! numberToHashKey j.
Proof.
  intros Hall Hj. apply batch_untouched.
  eapply Forall_impl; [exact Hall|]. intros o Ho Heq. specialize (Ho _ Heq). lia.
Qed.

Lemma assignments_above_weaken m m' ops :
  assignments_above m ops -> m' <= m -> assignments_above m' ops.
Proof.
  intros Hall Hm. eapply Forall_impl; [exact Hall|].
  intros o Ho j Hj. specialize (Ho _ Hj). lia.
Qed.

(** Over a store whose assignments are the numbers 0 to [top],
    [_deleteStaleAssignments] from [num] on leaves no assignment at [num]
    or above in the batch. *)
Lemma deleteStale_chain d top fuel :
  (forall j, 0 <= j <= top -> exists s, d !! numberToHashKey j = Some (VHash s)) ->
  (forall j, j < 0 \/ top < j -> d !! numberToHashKey j = None) ->
  forall num p ops bc ops' bc',
    0 <= num ->
    lockstep d ops bc ->
    Forall (fun o => forall j v, o <> OpPut (numberToHashKey j) v) ops ->
    _deleteStaleAssignments fuel num p ops bc = Ok ops' bc' ->
    exists dels,
      ops' = ops ++ dels
      /\ assignments_above (num - 1) dels
      /\ Forall is_n2h_del dels
      /\ forall j, num <= j -> batch ops' d !! numberToHashKey j = None.
Proof.
  intros Hin Hout. induction fuel as [|fuel IH];
    intros num p ops bc ops' bc' Hnum Hl Hnon H; [discriminate|].
  assert (Hread : db_get (numberToHashKey num) bc = d !! numberToHashKey num).
  { apply (lockstep_read _ _ _ _ Hl). intros v Hv.
    rewrite Forall_forall in Hnon. apply (Hnon _ Hv num v). reflexivity. }
  rewrite _deleteStaleAssignments_S in H. cbv zeta in H.
  unfold dbm_numberToHash in H. rewrite Hread in H.
  destruct (decide (num <= top)) as [Hle|Hgt].
  - destruct (Hin num) as [s Hs]; [lia|]. rewrite Hs in H.
    set (bc1 := with_heads _ _) in H.
    destruct (_headBlock bc1) as [hb|]; [|discriminate].
    assert (Hl2 : lockstep d (ops ++ [OpDel (numberToHashKey num)])
                    (if decide (hb = s) then with_headBlock (Some p) bc1 else bc1)).
    { destruct (decide (hb = s));
        (eapply lockstep_fields; [| |apply lockstep_del, Hl]; reflexivity). }
    apply IH in H as (dels & -> & Habove & Hdels & Hnone); [|lia|exact Hl2|].
    + exists (OpDel (numberToHashKey num) :: dels).
      split; [rewrite <- app_assoc; reflexivity|].
      split.
      { constructor; [intros j [= <-]; lia|].
        eapply assignments_above_weaken; [exact Habove|lia]. }
      split; [constructor; [eexists; reflexivity|assumption]|].
      intros j Hj. destruct (decide (j = num)) as [->|Hne]; [|apply Hnone; lia].
      rewrite batch_app.
      rewrite (assignments_above_untouched (num + 1 - 1) dels) by (assumption || lia).
      rewrite batch_snoc. apply lookup_delete_eq.
    + apply Forall_app. split; [assumption|]. repeat constructor. discriminate.
  - rewrite Hout in H by lia. injection H as <- <-. exists [].
    rewrite app_nil_r. split; [reflexivity|]. split; [constructor|]. split; [constructor|].
    intros j Hj. destruct (batch ops d !! numberToHashKey j) as [v|] eqn:Hb; [|reflexivity].
    exfalso. apply batch_origin in Hb as [Hb|Hb].
    + rewrite Hout in Hb by lia. discriminate.
    + rewrite Forall_forall in Hnon. apply (Hnon _ Hb j v). reflexivity.
Qed.

Lemma batch_saveLookups ops d m h n j :
  batch (ops ++ [OpPut (numberToHashKey m) (VHash h);
                 OpPut (hashToNumberKey h) (VNumber n)]) d !! numberToHashKey j
  = if decide (j = m) then Some (VHash h) else batch ops d !! numberToHashKey j.
Proof.
  rewrite batch_app.
  change (<[hashToNumberKey h := VNumber n]>
            (<[numberToHashKey m := VHash h]> (batch ops d)) !! numberToHashKey j
          = if decide (j = m) then Some (VHash h) else batch ops d !! numberToHashKey j).
  rewrite lookup_insert_ne by discriminate.
  destruct (decide (j = m)) as [->|Hne].
  - apply lookup_insert_eq.
  - apply lookup_insert_ne. congruence.
Qed.

(** Over a store whose assignments are a linked chain from 0 to [top],
    [_rebuildCanonical] from the header [y] leaves in the batch a linked
    chain from 0 to the number of [y], with [y] on top, and touches no
    assignment above. *)
Lemma rebuild_chain d hd t top fuel :
  WfDb d ->
  (forall j, 0 <= j <= top -> linked d d hd j) ->
  (forall j, j < 0 \/ top < j -> d !! numberToHashKey j = None) ->
  forall y ops bc ops' bc',
    lockstep d ops bc -> Forall (good_op d hd t) ops -> known d hd y ->
    0 <= number y -> assignments_above (number y) ops ->
    _rebuildCanonical fuel y ops bc = Ok ops' bc' ->
    (forall j, j < 0 \/ number y < j ->
       batch ops' d !! numberToHashKey j = batch ops d !! numberToHashKey j)
    /\ (forall j, 0 <= j <= number y -> linked (batch ops' d) d hd j)
    /\ batch ops' d !! numberToHashKey (number y) = Some (VHash (hash y)).
Proof.
  intros Hwf Hin Hout. induction fuel as [|fuel IH];
    intros y ops bc ops' bc' Hl Hgood Hy Hpos Habove H; [discriminate|].
  rewrite _rebuildCanonical_S in H. cbv zeta in H.
  set (a := OpPut (numberToHashKey (number y)) (VHash (hash y))) in H.
  set (b := OpPut (hashToNumberKey (hash y)) (VNumber (number y))) in H.
  set (bc1 := cache_set (hashToNumberKey _) _ _) in H.
  assert (Hl1 : lockstep d (ops ++ [a; b]) bc1).
  { change (ops ++ [a; b]) with (ops ++ [a] ++ [b]). rewrite app_assoc.
    apply lockstep_set, lockstep_set, Hl. }
  assert (Hab : Forall (good_op d hd t) [a; b]).
  { constructor; [|constructor; [|constructor]].
    - exists y. auto.
    - exists y. auto. }
  destruct (number y =? 0) eqn:Hzero.
  { apply Z.eqb_eq in Hzero. injection H as <- <-.
    split; [|split].
    - intros j Hj. unfold a, b. rewrite batch_saveLookups.
      destruct (decide (j = number y)); [lia|reflexivity].
    - intros j Hj. assert (j = number y) as -> by lia.
      exists y. unfold a, b. rewrite batch_saveLookups.
      rewrite decide_True by reflexivity. repeat split; [assumption|lia].
    - unfold a, b. rewrite batch_saveLookups. rewrite decide_True by reflexivity.
      reflexivity. }
  apply Z.eqb_neq in Hzero.
  assert (Hread : db_get (numberToHashKey (number y)) bc = d !! numberToHashKey (number y)).
  { apply (lockstep_read _ _ _ _ Hl). intros v.
    apply (assignments_above_no_put (number y)); [assumption|lia]. }
  destruct (bool_decide (dbm_numberToHash (number y) bc = Some (hash y))) eqn:Hstop.
  { injection H as <- <-. apply bool_decide_eq_true in Hstop.
    apply dbm_numberToHash_Some in Hstop. rewrite Hread in Hstop.
    assert (Htop : number y <= top).
    { destruct (decide (number y <= top)) as [?|Hgt]; [assumption|].
      rewrite Hout in Hstop by lia. discriminate. }
    split; [reflexivity|]. split.
    - intros j Hj. destruct (Hin j) as (x & Hx1 & Hx2 & Hx3 & Hx4); [lia|].
      exists x. rewrite (assignments_above_untouched (number y)) by (assumption || lia).
      repeat split; try assumption.
      intros Hj1. rewrite (assignments_above_untouched (number y)) by (assumption || lia).
      auto.
    - rewrite (assignments_above_untouched (number y)) by (assumption || lia).
      assumption. }
  set (bc2 := flag_stale_heads _ _) in H.
  destruct (flag_stale_heads_core (dbm_numberToHash (number y) bc) bc1) as (Hdb2 & Hc2 & _).
  fold bc2 in Hdb2, Hc2.
  destruct (flag_stale_headBlock _ bc2) as [bc3|] eqn:Hflag; [|discriminate].
  apply flag_stale_headBlock_core in Hflag as (Hdb3 & Hc3 & _).
  assert (Hl3 : lockstep d (ops ++ [a; b]) bc3).
  { eapply lockstep_fields; [| |exact Hl1]; congruence. }
  destruct (_getHeader (parentHash y) (Some (number y - 1)) bc3) as [x|] eqn:Hparent;
    [|discriminate].
  assert (Hx : known d hd x /\ hash x = parentHash y /\ number x = number y - 1).
  { unfold _getHeader in Hparent. simpl in Hparent.
    apply dbm_getHeader_Some in Hparent.
    destruct (lockstep_get _ _ _ _ _ Hl3 Hparent) as [Hd|Hput].
    - destruct (wf_header d Hwf _ _ _ Hd) as (x' & [= <-] & Hh & Hn & _).
      split; [|auto]. right. rewrite Hh, Hn. assumption.
    - assert (Hall : Forall (good_op d hd t) (ops ++ [a; b]))
        by (apply Forall_app; split; assumption).
      rewrite Forall_forall in Hall. apply Hall in Hput.
      simpl in Hput. destruct Hput as (Hn & Hh & [= ->]).
      split; [left; reflexivity|]. split; congruence. }
  destruct Hx as (Hx & Hxh & Hxn).
  apply IH in H as (Hfar & Hlinked & Htopx);
    [|assumption|apply Forall_app; split; assumption|assumption|lia|].
  - assert (Hhere : batch ops' d !! numberToHashKey (number y) = Some (VHash (hash y))).
    { rewrite Hfar by lia. unfold a, b. rewrite batch_saveLookups.
      rewrite decide_True by reflexivity. reflexivity. }
    split; [|split].
    + intros j Hj. rewrite Hfar by lia. unfold a, b. rewrite batch_saveLookups.
      destruct (decide (j = number y)); [lia|reflexivity].
    + intros j Hj. destruct (decide (j = number y)) as [->|Hne].
      * exists y. repeat split; try assumption.
        intros _. rewrite <- Hxn, <- Hxh. assumption.
      * apply Hlinked. lia.
    + assumption.
  - apply Forall_app. split.
    + eapply assignments_above_weaken; [exact Habove|lia].
    + constructor; [intros j [= <-]; lia|]. constructor; [|constructor].
      intros j Hj. discriminate Hj.
Qed.

(** ** The fix-up of stale heads *)












(** A put deletes no header: the headers of the store and the header of
    the item are in the store afterwards. *)
Lemma tasks_keeps_headers fuel isGenesis isHeader block bc bc' x :
  put_tasks fuel isGenesis isHeader block bc = Ok tt bc' ->
  known (db bc) (header block) x ->
  db bc' !! headerKey (number x) (hash x) = Some (VHeader x).
Proof.
  intros Hput Hx.
  pose proof (tasks_persists_block _ _ _ _ _ _ Hput) as [Hhd _].
  destruct Hx as [->|Hx]; [exact Hhd|].
  destruct (decide (hash x = hash (header block))) as [Heq|Hne].
  { apply hash_inj in Heq. subst x. exact Hhd. }
  apply tasks_ok_inv in Hput as (cur & td & ops & bc1 & _ & _ & Hr & ->).
  apply rebuildInfo_inv in Hr as (body_ops & extra & -> & Hbody & Hextra & Hdb1 & _).
  unfold _batchDbOps. cbn [db with_db]. rewrite Hdb1.
  rewrite batch_untouched; [assumption|].
  rewrite !Forall_app. split; [split; [|split]|].
  - constructor; [discriminate|]. constructor; [|constructor].
    simpl. intros [= _ Heq]. apply Hne. symmetry. exact Heq.
  - eapply Forall_impl; [exact Hbody|]. simpl. intros o ->. discriminate.
  - eapply Forall_impl; [exact Hextra|]. simpl. intros o Ho.
    apply index_op_key; [assumption|discriminate|discriminate].
  - apply saveHeadOps_keys. discriminate.
Qed.

Lemma canonical_linked d hd top :
  WfDb d ->
  (forall n, 0 <= n <= top ->
     exists x, d !! numberToHashKey n = Some (VHash (hash x))
               /\ d !! headerKey n (hash x) = Some (VHeader x)
               /\ (1 <= n -> d !! numberToHashKey (n - 1) = Some (VHash (parentHash x)))) ->
  forall j, 0 <= j <= top -> linked d d hd j.
Proof.
  intros Hwf Hin j Hj. destruct (Hin j Hj) as (x & Hx1 & Hx2 & Hx3).
  destruct (wf_header d Hwf _ _ _ Hx2) as (x' & [= <-] & _ & Hn & _).
  exists x. repeat split; try assumption. right. rewrite Hn. assumption.
Qed.

Lemma canonical_chain_after_verifier epochs bc :
  canonical_chain bc -> canonical_chain (after_verifier epochs bc).
Proof.
  intros (top & hh & Htop & Hhh & Hn2h & Hout & Hin).
  assert (E : forall k, chain_key k -> db (after_verifier epochs bc) !! k = db bc !! k)
    by (intros k; apply after_verifier_db).
  exists top, hh. split; [assumption|]. split; [exact Hhh|].
  split; [rewrite (E (numberToHashKey top)) by discriminate; assumption|].
  split.
  - intros n Hn. rewrite (E (numberToHashKey n)) by discriminate. auto.
  - intros n Hn. destruct (Hin n Hn) as (x & Hx1 & Hx2 & Hx3). exists x.
    rewrite (E (numberToHashKey n)), (E (headerKey n (hash x))),
      (E (numberToHashKey (n - 1))) by discriminate.
    auto.
Qed.

(** The last tasks of a successful put of a block or header of number 1
    or more keep the canonical chain a chain; when the item wins, it is the
    assignment of its number and no number above is assigned. *)
Lemma tasks_chain fuel isHeader block bc bc' cur0 td0 :
  Inv bc -> canonical_chain bc ->
  1 <= number (header block) ->
  getCurrentTd false bc = Some cur0 ->
  getBlockTd false (header block) bc = Some td0 ->
  put_tasks fuel false isHeader block bc = Ok tt bc' ->
  canonical_chain bc'
  /\ (winsHeader block td0 cur0.1 = true ->
      db bc' !! numberToHashKey (number (header block)) = Some (VHash (hash (header block)))
      /\ forall j, number (header block) < j -> db bc' !! numberToHashKey j = None).
Proof.
  intros (Hc & Hwf & _) (top & hh & Htop & Hhh & Hn2h & Hout & Hin) Hnum Hcur0 Htd0 Hput.
  pose proof (fun x => tasks_keeps_headers _ _ _ _ _ _ x Hput) as Hkeep.
  apply tasks_ok_inv in Hput as (cur & td & ops & bc1 & Hcur & Htd & Hr & ->).
  rewrite Hcur0 in Hcur. injection Hcur as <-.
  rewrite Htd0 in Htd. injection Htd as <-.
  rename cur0 into cur, td0 into td.
  set (hd := header block) in *.
  pose proof (rebuildInfo_inv _ _ _ _ _ _ _ _ _ Hr)
    as (body_ops & extra & Hops & Hbody & Hextra & Hdb1 & Hwin & Hlose).
  assert (Hassign : forall j,
    db (_batchDbOps (ops ++ _saveHeadOps bc1) bc1) !! numberToHashKey j
    = batch ops (db bc) !! numberToHashKey j).
  { intros j. unfold _batchDbOps. cbn [db with_db]. rewrite Hdb1, batch_app.
    apply batch_untouched, saveHeadOps_keys. discriminate. }
  assert (Hhead : _headHeader (_batchDbOps (ops ++ _saveHeadOps bc1) bc1) = _headHeader bc1)
    by reflexivity.
  pose proof (canonical_linked _ hd _ Hwf Hin) as Hlinked.
  destruct (winsHeader block td cur.1) eqn:Hw.
  - clear Hops Hbody Hextra Hlose. unfold rebuildInfo in Hr.
    destruct (save_block_spec false block td bc Hc)
      as (ops0 & bc0 & Hs & Hgood0 & Hl0 & _ & _ & Hnon & _).
    rewrite Hs, Hw in Hr. fold hd in Hr, Hgood0.
    set (bcw := if block_isGenesis block then _ else _) in Hr.
    assert (Hlw : lockstep (db bc) ops0 bcw).
    { eapply lockstep_fields; [| |exact Hl0];
        unfold bcw; destruct (block_isGenesis block), isHeader; reflexivity. }
    destruct (_deleteStaleAssignments fuel (number hd + 1) (hash hd) ops0 bcw)
      as [ops1 bcd| |] eqn:Hdel; try discriminate.
    destruct (deleteStale_spec _ _ _ _ _ _ _ _ Hlw Hdel) as (dels & -> & Hdels & Hld & _).
    assert (Hnoput : Forall (fun o => forall j v, o <> OpPut (numberToHashKey j) v) ops0).
    { eapply Forall_impl; [exact Hnon|]. intros o Ho j v ->. apply Ho. reflexivity. }
    assert (Hin' : forall j, 0 <= j <= top ->
                     exists s, db bc !! numberToHashKey j = Some (VHash s)).
    { intros j Hj. destruct (Hin j Hj) as (x & Hx & _). eauto. }
    assert (Hpos1 : 0 <= number hd + 1) by lia.
    assert (Hpos : 0 <= number hd) by lia.
    assert (Hknown : known (db bc) hd hd) by (left; reflexivity).
    destruct (deleteStale_chain _ top _ Hin' Hout _ _ _ _ _ _ Hpos1 Hlw Hnoput Hdel)
      as (dels' & Heq & Habove & _ & Hnone).
    apply app_inv_head in Heq. subst dels'.
    assert (Habove1 : assignments_above (number hd) (ops0 ++ dels)).
    { apply Forall_app. split.
      - eapply Forall_impl; [exact Hnon|]. intros o Ho j Hj. exfalso. apply Ho.
        rewrite Hj. reflexivity.
      - eapply assignments_above_weaken; [exact Habove|lia]. }
    assert (Hgood1 : Forall (good_op (db bc) hd td) (ops0 ++ dels)).
    { apply Forall_app. split; [assumption|]. apply is_n2h_del_good. assumption. }
    destruct (rebuild_chain _ hd td top fuel Hwf Hlinked Hout hd _ _ _ _ Hld Hgood1
                Hknown Hpos Habove1 Hr)
      as (Hfar & Hlk & Htopn).
    assert (Habove' : forall j, number hd < j ->
              db (_batchDbOps (ops ++ _saveHeadOps bc1) bc1) !! numberToHashKey j = None).
    { intros j Hj. rewrite Hassign, Hfar by lia. apply Hnone. lia. }
    split; [|intros _; split; [rewrite Hassign; exact Htopn|exact Habove']].
    exists (number hd), (hash hd).
    split; [lia|]. split; [rewrite Hhead; auto|].
    split; [rewrite Hassign; exact Htopn|]. split.
    + intros j [Hj|Hj]; [|apply Habove'; assumption].
      rewrite Hassign, Hfar by lia.
      rewrite (assignments_above_untouched (number hd)) by (assumption || lia).
      apply Hout. lia.
    + intros j Hj. destruct (Hlk j Hj) as (x & Hx1 & Hx2 & Hx3 & Hx4).
      exists x. rewrite !Hassign. split; [assumption|].
      split; [rewrite <- Hx2; apply Hkeep; assumption|assumption].
  - split; [|discriminate].
    destruct (Hlose eq_refl) as [Hhh1 ->].
    assert (Hsame : forall j, batch ops (db bc) !! numberToHashKey j
                              = db bc !! numberToHashKey j).
    { intros j. apply batch_untouched. rewrite Hops, !Forall_app. split; [|split].
      - repeat constructor; discriminate.
      - eapply Forall_impl; [exact Hbody|]. simpl. intros o ->. discriminate.
      - repeat constructor. discriminate. }
    exists top, hh. split; [assumption|]. split; [congruence|].
    split; [rewrite Hassign, Hsame; assumption|]. split.
    + intros j Hj. rewrite Hassign, Hsame. auto.
    + intros j Hj. destruct (Hlinked j Hj) as (x & Hx1 & Hx2 & Hx3 & Hx4).
      exists x. rewrite !Hassign, !Hsame. split; [assumption|].
      split; [rewrite <- Hx2; apply Hkeep; assumption|assumption].
Qed.

(** A successful put of a block or header of number 1 or more keeps the
    canonical chain a chain. *)
Lemma put_preserves_chain fuel cfg item bc bc' :
  Inv bc -> canonical_chain bc ->
  1 <= number (header (item_block item)) ->
  _putBlockOrHeader fuel cfg item false bc = Ok tt bc' ->
  canonical_chain bc'.
Proof.
  intros Hinv Hchain Hnum Hput.
  destruct (put_ok_inv _ _ _ _ _ _ Hput)
    as (_ & cur & td & _ & _ & Hcur & Htd & _).
  apply put_pow_inv in Hput as [epochs Hput].
  rewrite <- (after_verifier_getCurrentTd epochs) in Hcur.
  rewrite <- (after_verifier_getBlockTd epochs) in Htd.
  apply (tasks_chain _ _ _ _ _ _ _ (Inv_after_verifier epochs _ Hinv)
           (canonical_chain_after_verifier epochs _ Hchain) Hnum Hcur Htd Hput).
Qed.

Lemma put_all_preserves_chain fuel cfg items :
  forall bc bc',
    Inv bc -> canonical_chain bc ->
    Forall (fun item => 1 <= number (header (item_block item))) items ->
    put_all fuel cfg items bc = Some bc' ->
    canonical_chain bc'.
Proof.
  induction items as [|item items IH]; intros bc bc' Hinv Hch Hall Hrun; simpl in Hrun.
  - injection Hrun as <-. assumption.
  - inversion Hall as [|? ? Hitem Hrest]; subst.
    destruct (_putBlockOrHeader fuel cfg item false bc) as [[] bc1| |] eqn:Hput;
      try discriminate.
    eapply IH; [| |eassumption|eassumption].
    + eapply put_preserves_Inv; eassumption.
    + eapply put_preserves_chain; eassumption.
Qed.

(** The canonical chain of an object initialised over an empty store is
    the genesis block alone. *)
Lemma init_chain fuel cfg g max bc0 :
  number (header g) = 0 ->
  _init fuel cfg g (new_Blockchain ∅ max) = Ok tt bc0 ->
  canonical_chain bc0.
Proof.
  intros Hnum Hinit. unfold _init in Hinit.
  assert (Hnone : dbm_numberToHash 0 (new_Blockchain ∅ max) = None).
  { unfold dbm_numberToHash, db_get. simpl. rewrite lookup_empty. reflexivity. }
  rewrite Hnone in Hinit.
  destruct (_putBlockOrHeader _ _ _ _ _) as [[] bcp| |] eqn:Hput; try discriminate.
  injection Hinit as <-.
  apply put_ok_inv in Hput as (epochs & cur & td & ops & bc1 & Hcur & Htd & Hr & ->).
  simpl item_block in *. simpl item_isHeader in *.
  assert (Hgen : block_isGenesis g = true) by (apply Z.eqb_eq; assumption).
  pose proof (rebuildInfo_genesis _ _ _ _ _ _ _ _ _ Hr Hgen) as Hg.
  rewrite fresh_after_verifier in Hr.
  pose proof (rebuildInfo_fresh _ _ _ _ _ _ _ _ (ethash_writes_empty epochs) Hnum Hr) as ->.
  pose proof (rebuildInfo_inv _ _ _ _ _ _ _ _ _ Hr) as (_ & _ & _ & _ & _ & Hdb1 & _).
  set (bcp := _batchDbOps _ bc1) in *.
  assert (Hdb : db bcp
    = <[headBlockKey := VHead (_headBlock bc1)]>
       (<[headHeaderKey := VHead (_headHeader bc1)]>
         (<[headsKey := VHeads (_heads bc1)]>
           (<[hashToNumberKey (hash (header g)) := VNumber 0]>
             (<[numberToHashKey 0 := VHash (hash (header g))]>
               (<[bodyKey 0 (hash (header g)) := VBody (transactions g) (uncleHeaders g)]>
                 (<[headerKey 0 (hash (header g)) := VHeader (header g)]>
                   (<[tdKey 0 (hash (header g)) := VTd td]>
                      (ethash_writes epochs ∅))))))))).
  { unfold bcp, _batchDbOps. simpl. rewrite Hdb1. reflexivity. }
  exists 0, (hash (header g)). cbn [db with_headBlock with_headHeader with_heads _headHeader].
  split; [lia|]. split; [exact Hg|]. split; [|split].
  - rewrite Hdb. rewrite !lookup_insert_ne by discriminate. apply lookup_insert_eq.
  - intros n Hn. rewrite Hdb. rewrite !lookup_insert_ne by discriminate.
    rewrite lookup_insert_ne by (intros [= ?]; lia).
    rewrite !lookup_insert_ne by discriminate.
    apply ethash_writes_empty. discriminate.
  - intros n Hn. assert (n = 0) as -> by lia. exists (header g). rewrite Hdb.
    split; [rewrite !lookup_insert_ne by discriminate; apply lookup_insert_eq|].
    split; [rewrite !lookup_insert_ne by discriminate; apply lookup_insert_eq|lia].
Qed.

Lemma reachable_chain bc : reachable bc -> canonical_chain bc.
Proof.
  intros (fuel & cfg & g & max & items & bc0 & Hg & Hinit & Hitems & Hrun).
  eapply put_all_preserves_chain; [| |eassumption|eassumption].
  - eapply init_Inv; eassumption.
  - eapply init_chain; eassumption.
Qed.

(** Canonical chain: in a state reached from a fresh store by successful
    puts of blocks and headers of number 1 or more, the numbers from 0 to
    some top number, and no others, have a canonical assignment; each
    assigned hash is the hash of a stored header of that number whose
    parent hash is the assignment of the number below; and [_headHeader]
    is the assignment of the top number. *)
Theorem reachable_canonical_chain (bc : Blockchain) :
  reachable bc -> canonical_chain bc.
Proof. apply reachable_chain. Qed.

Lemma reachable_canonical_chain_witness : canonical_chain Scenario.linear2.
Proof. apply reachable_canonical_chain. exact reachable_linear2. Defined.

Lemma reachable_linear1 : reachable Scenario.linear1.
Proof.
  exists 8%nat, Scenario.cfg, (mkBlock Scenario.G [] []), 4%nat,
    [ItemBlock 1 (Scenario.full Scenario.A1)], Scenario.fresh.
  split; [reflexivity|].
  split; [apply ok_state_of; vm_compute; reflexivity|].
  split; [repeat constructor; simpl; lia|].
  rewrite (put_all_cons_ok _ _ _ _ _ Scenario.linear1)
    by (apply ok_state_of; vm_compute; reflexivity).
  reflexivity.
Qed.

(** C2. A successful put makes the item the canonical head exactly when
    the item is a genesis block or its total difficulty is strictly greater
    than the current total difficulty of [_headHeader] (the one [_getTd]
    finds for [_headHeader]; a put with the genesis flag takes 0).  Then
    [_headHeader] is the item's hash, in the object and in the store, and,
    for a put of a block or header of number 1 or more in a state reached
    from a fresh store, [_deleteStaleAssignments] and [_rebuildCanonical]
    have made the item the top of the canonical chain: it is the
    assignment of its number, no number above is assigned any more, and
    the assignments from 0 to its number are a chain linked by the parent
    hashes.  Otherwise, so also when the two total difficulties are equal,
    [_headHeader] and every numberToHash entry stay as they were. *)
Theorem put_canonical_decision (fuel : nat) (cfg : Config) (item : Item)
    (isGenesis : bool) (bc bc' : Blockchain) :
  let hd := header (item_block item) in
  _putBlockOrHeader fuel cfg item isGenesis bc = Ok tt bc' ->
  exists currentTd td,
    getCurrentTd isGenesis bc = Some currentTd
    /\ getBlockTd isGenesis hd bc = Some td
    /\ (isGenesis = false ->
        exists hh, _headHeader bc = Some hh /\ _getTd hh None bc = Some currentTd.1)
    /\ (number hd = 0 \/ currentTd.1 < td ->
        _headHeader bc' = Some (hash hd)
        /\ db bc' !! headHeaderKey = Some (VHead (Some (hash hd)))
        /\ (reachable bc -> isGenesis = false -> 1 <= number hd ->
            db bc' !! numberToHashKey (number hd) = Some (VHash (hash hd))
            /\ (forall n, number hd < n -> db bc' !! numberToHashKey n = None)
            /\ canonical_chain bc'))
    /\ (number hd <> 0 -> td <= currentTd.1 ->
        _headHeader bc' = _headHeader bc
        /\ forall n, db bc' !! numberToHashKey n = db bc !! numberToHashKey n).
Proof.
  intros hd H.
  destruct (put_head_decision _ _ _ _ _ _ H) as (cur & td & Hcur & Htd & Hhh & Hwin & Hlose).
  fold hd in Htd, Hwin, Hlose.
  exists cur, td. split; [assumption|]. split; [assumption|]. split; [assumption|].
  split; [|assumption].
  intros Hyes. destruct (Hwin Hyes) as [Hhead Hrecord].
  split; [assumption|]. split; [assumption|].
  intros Hreach -> Hnum.
  apply put_pow_inv in H as [epochs H].
  rewrite <- (after_verifier_getCurrentTd epochs) in Hcur.
  rewrite <- (after_verifier_getBlockTd epochs) in Htd.
  destruct (tasks_chain _ _ _ _ _ _ _
              (Inv_after_verifier epochs _ (reachable_Inv _ Hreach))
              (canonical_chain_after_verifier epochs _ (reachable_chain _ Hreach))
              Hnum Hcur Htd H) as [Hchain Htop].
  destruct Htop as [Hassigned Hnone].
  { unfold winsHeader, block_isGenesis. fold hd.
    rewrite orb_true_iff, Z.eqb_eq, Z.gtb_ltb, Z.ltb_lt. assumption. }
  auto.
Qed.

(** The header E1 (total difficulty 30) overtakes the chain genesis, A1,
    A2 (20): it is the assignment of number 1 and the assignment of
    number 2 is gone.  A sibling of A1 with the same total difficulty 15
    stays outside the canonical chain. *)
Lemma put_canonical_decision_witness :
  (_headHeader shortened = Some (hash E1)
   /\ db Scenario.linear2 !! numberToHashKey 2 = Some (VHash (hash Scenario.A2))
   /\ db shortened !! numberToHashKey 1 = Some (VHash (hash E1))
   /\ db shortened !! numberToHashKey 2 = None)
  /\ (_headHeader tied = Some (hash Scenario.A1)
      /\ db tied !! numberToHashKey 1 = Some (VHash (hash Scenario.A1))).
Proof.
  split.
  - destruct (put_canonical_decision 8 Scenario.cfg (ItemHeader 1 E1) false
                Scenario.linear2 shortened)
      as (cur & td & Hcur & Htd & _ & Hwin & _).
    { apply ok_state_of. vm_compute. reflexivity. }
    assert (Hc : getCurrentTd false Scenario.linear2 = Some (20, 20))
      by (vm_compute; reflexivity).
    assert (Ht : getBlockTd false E1 Scenario.linear2 = Some 30)
      by (vm_compute; reflexivity).
    change (getBlockTd false E1 Scenario.linear2 = Some td) in Htd.
    rewrite Hc in Hcur. rewrite Ht in Htd.
    injection Hcur as <-. injection Htd as <-.
    destruct Hwin as (Hhead & _ & Hchain); [right; simpl; lia|].
    destruct (Hchain reachable_linear2 eq_refl) as (Htop & Hnone & _); [simpl; lia|].
    split; [exact Hhead|]. split; [vm_compute; reflexivity|].
    split; [exact Htop|]. apply Hnone. simpl. lia.
  - destruct (put_canonical_decision 8 Scenario.cfg (ItemHeader 1 A1_twin) false
                Scenario.linear1 tied)
      as (cur & td & Hcur & Htd & _ & _ & Hlose).
    { apply ok_state_of. vm_compute. reflexivity. }
    assert (Hc : getCurrentTd false Scenario.linear1 = Some (15, 15))
      by (vm_compute; reflexivity).
    assert (Ht : getBlockTd false A1_twin Scenario.linear1 = Some 15)
      by (vm_compute; reflexivity).
    change (getBlockTd false A1_twin Scenario.linear1 = Some td) in Htd.
    rewrite Hc in Hcur. rewrite Ht in Htd.
    injection Hcur as <-. injection Htd as <-.
    destruct Hlose as [Hhead Hsame]; [discriminate|simpl; lia|].
    split.
    + rewrite Hhead. vm_compute. reflexivity.
    + rewrite Hsame. vm_compute. reflexivity.
Defined.

(** ** Deleting a block of the canonical chain *)

Lemma block_del_from_is_del n ops : Forall (block_del_from n) ops -> Forall is_del ops.
Proof.
  intros H. eapply Forall_impl; [exact H|]. intros o (h & j & k & _ & Hk & ->).
  exists k. split; [reflexivity|].
  unfold del_keys in Hk. rewrite !elem_of_cons, elem_of_nil in Hk.
  destruct Hk as [->|[->|[->|[->|[]]]]]; discriminate.
Qed.

Lemma block_del_from_weaken n n' ops :
  Forall (block_del_from n) ops -> n' <= n -> Forall (block_del_from n') ops.
Proof.
  intros H Hn. eapply Forall_impl; [exact H|]. intros o (h & j & k & Hj & Hk & ->).
  exists h, j, k. split; [lia|auto].
Qed.

Lemma block_del_from_keys n h j :
  n <= j -> Forall (block_del_from n) (map OpDel (del_keys h j)).
Proof.
  intros Hj. apply Forall_forall. intros o Ho.
  apply list_elem_of_fmap in Ho as (k & -> & Hk). exists h, j, k. auto.
Qed.

Lemma block_del_from_assignment n ops j :
  Forall (block_del_from n) ops -> Forall (fun o => op_key o <> numberToHashKey j) ops.
Proof.
  intros H. eapply Forall_impl; [exact H|]. intros o (h & i & k & _ & Hk & ->). simpl.
  unfold del_keys in Hk. rewrite !elem_of_cons, elem_of_nil in Hk.
  destruct Hk as [->|[->|[->|[->|[]]]]]; discriminate.
Qed.

Lemma block_del_from_header n ops j h :
  Forall (block_del_from n) ops -> j < n ->
  Forall (fun o => op_key o <> headerKey j h) ops.
Proof.
  intros H Hj. eapply Forall_impl; [exact H|]. intros o (h' & i & k & Hi & Hk & ->). simpl.
  unfold del_keys in Hk. rewrite !elem_of_cons, elem_of_nil in Hk.
  destruct Hk as [->|[->|[->|[->|[]]]]]; try discriminate.
  intros [= -> _]. lia.
Qed.

Lemma is_del_no_put ops k v : Forall is_del ops -> OpPut k v ∉ ops.
Proof.
  intros H Hin. rewrite Forall_forall in H. destruct (H _ Hin) as (k' & Hk & _).
  discriminate.
Qed.

(** Over a store whose canonical chain runs from 0 to [top], with
    [_headHeader] on top: [_delChild] from the canonical header [x] deletes
    the records of every header of the chain from [x] to the top, and
    leaves [_headHeader] at [p]. *)
Lemma delChild_chain d top hh p fuel :
  WfDb d ->
  (forall n, 0 <= n <= top ->
     exists x, d !! numberToHashKey n = Some (VHash (hash x))
               /\ d !! headerKey n (hash x) = Some (VHeader x)
               /\ (1 <= n -> d !! numberToHashKey (n - 1) = Some (VHash (parentHash x)))) ->
  (forall n, n < 0 \/ top < n -> d !! numberToHashKey n = None) ->
  d !! numberToHashKey top = Some (VHash hh) ->
  forall x ops bc ops' bc',
    lockstep d ops bc -> Forall is_del ops ->
    0 <= number x <= top ->
    d !! numberToHashKey (number x) = Some (VHash (hash x)) ->
    _headHeader bc = Some hh ->
    _delChild fuel (hash x) (number x) (Some p) ops bc = Ok ops' bc' ->
    exists extra,
      ops' = ops ++ extra /\ Forall (block_del_from (number x)) extra
      /\ lockstep d ops' bc' /\ _headHeader bc' = Some p
      /\ (forall j y, number x <= j <= top ->
            d !! numberToHashKey j = Some (VHash (hash y)) ->
            OpDel (headerKey j (hash y)) ∈ extra).
Proof.
  intros Hwf Hin Hout Htop. induction fuel as [|fuel IH];
    intros x ops bc ops' bc' Hl Hdels Hx Hxa Hhh H; [discriminate|].
  rewrite _delChild_S in H. cbv zeta in H.
  set (ks := del_keys (hash x) (number x)) in *.
  set (bc1 := foldl (fun b k => cache_del k b) bc ks) in H.
  destruct (cache_dels_fields ks bc) as (Hdb1 & _ & _ & _ & Hhh1 & _).
  fold bc1 in Hdb1, Hhh1. rewrite Hhh1, Hhh in H.
  destruct (_headBlock bc1) as [curb|] eqn:Hcurb; [|discriminate].
  set (bc2 := if decide (hash x = hh) then _ else _) in H.
  set (bc3 := if decide (hash x = curb) then _ else _) in H.
  assert (H3 : db bc3 = db bc1 /\ cache bc3 = cache bc1
               /\ _headHeader bc3 = if decide (hash x = hh) then Some p else Some hh).
  { unfold bc3, bc2.
    destruct (decide (hash x = hh)), (decide (hash x = curb)); simpl;
      rewrite ?Hhh1, ?Hhh; auto. }
  destruct H3 as (Hdb3 & Hc3 & Hhh3).
  assert (Hl3 : lockstep d (ops ++ map OpDel ks) bc3).
  { eapply lockstep_fields; [exact Hdb3|exact Hc3|]. apply lockstep_dels. assumption. }
  assert (Hdels1 : Forall is_del (ops ++ map OpDel ks)).
  { apply Forall_app. split; [assumption|apply del_keys_is_del]. }
  assert (Hread : forall k, db_get k bc3 = d !! k).
  { intros k. apply (lockstep_read _ _ _ _ Hl3). intros v. apply is_del_no_put. assumption. }
  assert (Hhere : forall y, d !! numberToHashKey (number x) = Some (VHash (hash y)) ->
                            OpDel (headerKey (number x) (hash y)) ∈ map OpDel ks).
  { intros y Hy. rewrite Hxa in Hy. injection Hy as <-.
    apply list_elem_of_fmap. exists (headerKey (number x) (hash x)).
    split; [reflexivity|]. unfold ks, del_keys. left. }
  unfold _getCanonicalHeader, dbm_numberToHash in H. rewrite Hread in H.
  destruct (decide (number x = top)) as [Heq|Hne].
  - rewrite Hout in H by lia. injection H as <- <-.
    exists (map OpDel ks). split; [reflexivity|].
    split; [apply block_del_from_keys; lia|]. split; [assumption|].
    split.
    + rewrite Hhh3. rewrite decide_True; [reflexivity|]. rewrite Heq in Hxa. congruence.
    + intros j y Hj Hy. assert (j = number x) as -> by lia. apply Hhere. assumption.
  - destruct (Hin (number x + 1)) as (c & Hc1 & Hc2 & _); [lia|].
    rewrite Hc1 in H. unfold _getHeader in H. simpl in H.
    unfold dbm_getHeader in H. rewrite Hread, Hc2 in H.
    destruct (wf_header d Hwf _ _ _ Hc2) as (c' & [= <-] & _ & Hcn & _).
    assert (Hnot : hash x <> hh).
    { intros Heq. destruct (Hin top) as (t & Ht1 & Ht2 & _); [lia|].
      destruct (wf_header d Hwf _ _ _ Ht2) as (t' & [= <-] & _ & Htn & _).
      rewrite Htop in Ht1. injection Ht1 as Ht1. rewrite <- Heq in Ht1.
      apply hash_inj in Ht1. subst t. lia. }
    rewrite decide_False in Hhh3 by assumption.
    apply IH in H as (extra & -> & Hextra & Hl' & Hhh' & Hmem);
      [|assumption|assumption|lia|rewrite Hcn; assumption|assumption].
    exists (map OpDel ks ++ extra).
    split; [rewrite app_assoc; reflexivity|].
    split.
    { apply Forall_app. split; [apply block_del_from_keys; lia|].
      eapply block_del_from_weaken; [exact Hextra|lia]. }
    split; [assumption|]. split; [assumption|].
    intros j y Hj Hy. apply elem_of_app.
    destruct (decide (j = number x)) as [->|Hj'].
    + left. apply Hhere. assumption.
    + right. apply Hmem; [lia|assumption].
Qed.

Lemma getHeader_stored bc h hd :
  coherent bc -> WfDb (db bc) -> _getHeader h None bc = Some hd ->
  hash hd = h /\ db bc !! headerKey (number hd) h = Some (VHeader hd).
Proof.
  intros Hc Hwf. unfold _getHeader, _lookupByHashNumber.
  destruct (dbm_hashToNumber h bc) as [n|]; [|discriminate].
  intros H. apply dbm_getHeader_Some in H. rewrite (coherent_db_get _ _ Hc) in H.
  destruct (wf_header _ Hwf _ _ _ H) as (x & [= <-] & Hh & Hn & _).
  rewrite Hn. auto.
Qed.

(** [_delBlock] of a block of the canonical chain, of number 1 or more,
    cuts the chain below it. *)
Lemma delBlock_chain fuel h hd bc bc' :
  Inv bc -> canonical_chain bc ->
  _getHeader h None bc = Some hd ->
  1 <= number hd ->
  dbm_numberToHash (number hd) bc = Some h ->
  _delBlock fuel h bc = Ok tt bc' ->
  canonical_chain bc'
  /\ _headHeader bc' = Some (parentHash hd)
  /\ db bc' !! numberToHashKey (number hd - 1) = Some (VHash (parentHash hd))
  /\ (forall j, number hd <= j -> db bc' !! numberToHashKey j = None)
  /\ (forall j y, number hd <= j ->
        db bc !! numberToHashKey j = Some (VHash (hash y)) ->
        db bc' !! headerKey j (hash y) = None).
Proof.
  intros (Hc & Hwf & _) (top & hh & Htop0 & Hhh & Htop & Hout & Hin) Hget Hnum Hcan Hdel.
  destruct (getHeader_stored _ _ _ Hc Hwf Hget) as [Hh Hstored]. subst h.
  pose proof Hcan as Hxa. apply dbm_numberToHash_Some in Hxa.
  rewrite (coherent_db_get _ _ Hc) in Hxa.
  assert (Hrange : 0 <= number hd <= top).
  { split; [lia|]. destruct (decide (number hd <= top)) as [?|Hgt]; [assumption|].
    rewrite Hout in Hxa by lia. discriminate. }
  assert (Hparent : db bc !! numberToHashKey (number hd - 1) = Some (VHash (parentHash hd))).
  { destruct (Hin (number hd) Hrange) as (x & Hx1 & _ & Hx3).
    rewrite Hxa in Hx1. injection Hx1 as Hx1. apply hash_inj in Hx1. subst x.
    apply Hx3. assumption. }
  unfold _delBlock in Hdel. rewrite Hget in Hdel.
  rewrite (bool_decide_eq_true_2 _ Hcan) in Hdel.
  destruct (_delChild fuel (hash hd) (number hd) (Some (parentHash hd)) [] bc)
    as [ops1 bc1| |] eqn:Hchild; try discriminate.
  destruct (delChild_chain _ top hh (parentHash hd) fuel Hwf Hin Hout Htop hd [] bc ops1 bc1
              (coherent_lockstep _ Hc) (Forall_nil_2 _) Hrange Hxa Hhh Hchild)
    as (extra & Hops1 & Hextra & Hl1 & Hhh1 & Hmem).
  rewrite app_nil_l in Hops1. subst ops1.
  destruct (_deleteStaleAssignments fuel (number hd) (parentHash hd) extra bc1)
    as [ops2 bc2| |] eqn:Hds; try discriminate.
  injection Hdel as <-.
  destruct (deleteStale_spec _ _ _ _ _ _ _ _ Hl1 Hds) as (dels & -> & Hdels & Hl2 & Hhh2 & _).
  assert (Hextra_del : Forall is_del extra) by (eapply block_del_from_is_del; eassumption).
  assert (Hnoput : Forall (fun o => forall j v, o <> OpPut (numberToHashKey j) v) extra).
  { eapply Forall_impl; [exact Hextra_del|]. intros o (k & -> & _) j v. discriminate. }
  assert (Hin' : forall j, 0 <= j <= top ->
                   exists s, db bc !! numberToHashKey j = Some (VHash s)).
  { intros j Hj. destruct (Hin j Hj) as (x & Hx & _). eauto. }
  assert (Hpos : 0 <= number hd) by lia.
  destruct (deleteStale_chain _ top _ Hin' Hout _ _ _ _ _ _ Hpos Hl1 Hnoput Hds)
    as (dels' & Heq & Habove & _ & Hnone).
  apply app_inv_head in Heq. subst dels'.
  assert (Hdb : db (_batchDbOps (extra ++ dels) bc2) = batch (extra ++ dels) (db bc)).
  { unfold _batchDbOps. cbn [db with_db]. destruct Hl2 as [-> _]. reflexivity. }
  assert (Hlow : forall j, j < number hd ->
                   batch (extra ++ dels) (db bc) !! numberToHashKey j
                   = db bc !! numberToHashKey j).
  { intros j Hj. apply batch_untouched, Forall_app. split.
    - eapply block_del_from_assignment; eassumption.
    - eapply Forall_impl; [exact Habove|]. intros o Ho Hk. specialize (Ho _ Hk). lia. }
  assert (Hheaders : forall j h', j < number hd ->
                       batch (extra ++ dels) (db bc) !! headerKey j h'
                       = db bc !! headerKey j h').
  { intros j h' Hj. apply batch_untouched, Forall_app. split.
    - eapply block_del_from_header; eassumption.
    - eapply Forall_impl; [exact Hdels|]. intros o [n ->]. discriminate. }
  assert (Hhead : _headHeader (_batchDbOps (extra ++ dels) bc2) = Some (parentHash hd)).
  { change (_headHeader bc2 = Some (parentHash hd)). congruence. }
  assert (Hgone : forall j, number hd <= j ->
                    db (_batchDbOps (extra ++ dels) bc2) !! numberToHashKey j = None).
  { intros j Hj. rewrite Hdb. apply Hnone. assumption. }
  assert (Hbelow : db (_batchDbOps (extra ++ dels) bc2) !! numberToHashKey (number hd - 1)
                   = Some (VHash (parentHash hd))).
  { rewrite Hdb, Hlow by lia. assumption. }
  split; [|split; [assumption|split; [assumption|split; [assumption|]]]].
  - exists (number hd - 1), (parentHash hd).
    split; [lia|]. split; [assumption|]. split; [assumption|]. split.
    + intros j [Hj|Hj].
      * rewrite Hdb, Hlow by lia. apply Hout. lia.
      * apply Hgone. lia.
    + intros j Hj. destruct (Hin j) as (x & Hx1 & Hx2 & Hx3); [lia|].
      exists x. rewrite Hdb, Hlow, Hheaders by lia.
      split; [assumption|]. split; [assumption|].
      intros Hj1. rewrite Hlow by lia. auto.
  - intros j y Hj Hy. rewrite Hdb.
    apply batch_deleted.
    + apply Forall_app. split; [assumption|apply is_n2h_del_is_del; assumption].
    + apply elem_of_app. left. apply Hmem; [|assumption].
      split; [assumption|]. destruct (decide (j <= top)) as [?|Hgt]; [assumption|].
      rewrite Hout in Hy by lia. discriminate.
Qed.

(** Deleting a block of the canonical chain.  In a state reached from a
    fresh store, a successful [delBlock] of the block the canonical chain
    has at its number, 1 or more, leaves a canonical chain that ends with
    the parent of the block: [_headHeader] is the parent hash, it is the
    assignment of the number below, no number from the block's on is
    assigned, and the headers the chain had from there on are no longer in
    the store. *)
Theorem delBlock_truncates_chain (fuel : nat) (h : Hash) (hd : Header)
    (bc bc' : Blockchain) :
  reachable bc ->
  _getHeader h None bc = Some hd ->
  1 <= number hd ->
  dbm_numberToHash (number hd) bc = Some h ->
  _delBlock fuel h bc = Ok tt bc' ->
  canonical_chain bc'
  /\ _headHeader bc' = Some (parentHash hd)
  /\ db bc' !! numberToHashKey (number hd - 1) = Some (VHash (parentHash hd))
  /\ (forall j, number hd <= j -> db bc' !! numberToHashKey j = None)
  /\ (forall j y, number hd <= j ->
        db bc !! numberToHashKey j = Some (VHash (hash y)) ->
        db bc' !! headerKey j (hash y) = None).
Proof.
  intros Hr. apply delBlock_chain; [apply reachable_Inv|apply reachable_chain]; assumption.
Qed.

Lemma delBlock_truncates_chain_witness :
  _headHeader linear2_without_A1 = Some (hash Scenario.G)
  /\ db linear2_without_A1 !! headerKey 2 (hash Scenario.A2) = None.
Proof.
  destruct (delBlock_truncates_chain 8 (hash Scenario.A1) Scenario.A1 Scenario.linear2
              linear2_without_A1) as (_ & Hh & _ & _ & Hgone).
  - exact reachable_linear2.
  - vm_compute. reflexivity.
  - simpl. lia.
  - vm_compute. reflexivity.
  - exact delBlock_A1_ok.
  - split; [exact Hh|]. apply Hgone; [simpl; lia|]. vm_compute. reflexivity.
Defined.

(** ** Puts that succeed *)

(** With a head block, and fuel for the assignments from [num] to [top],
    [_deleteStaleAssignments] ends without error. *)
Lemma deleteStale_succeeds d top fuel :
  (forall j, 0 <= j <= top -> exists s, d !! numberToHashKey j = Some (VHash s)) ->
  (forall j, j < 0 \/ top < j -> d !! numberToHashKey j = None) ->
  forall num p ops bc,
    0 <= num ->
    lockstep d ops bc ->
    Forall (fun o => forall j v, o <> OpPut (numberToHashKey j) v) ops ->
    is_Some (_headBlock bc) ->
    (Z.to_nat (top + 1 - num) < fuel)%nat ->
    exists ops' bc',
      _deleteStaleAssignments fuel num p ops bc = Ok ops' bc' /\ is_Some (_headBlock bc').
Proof.
  intros Hin Hout. induction fuel as [|fuel IH];
    intros num p ops bc Hnum Hl Hnon Hhb Hfuel; [lia|].
  assert (Hread : db_get (numberToHashKey num) bc = d !! numberToHashKey num).
  { apply (lockstep_read _ _ _ _ Hl). intros v Hv.
    rewrite Forall_forall in Hnon. apply (Hnon _ Hv num v). reflexivity. }
  rewrite _deleteStaleAssignments_S. cbv zeta.
  unfold dbm_numberToHash. rewrite Hread.
  destruct (decide (num <= top)) as [Hle|Hgt].
  - destruct (Hin num) as [s Hs]; [lia|]. rewrite Hs.
    set (bc1 := with_heads _ _).
    assert (Hhb1 : _headBlock bc1 = _headBlock bc).
    { unfold bc1. cbn [_headBlock with_heads].
      destruct (cache_del_fields (numberToHashKey num) bc) as (_ & _ & _ & _ & _ & E & _).
      exact E. }
    destruct Hhb as [hb Hhb]. rewrite Hhb1, Hhb.
    apply IH; [lia| | | |lia].
    + destruct (decide (hb = s));
        (eapply lockstep_fields; [| |apply lockstep_del, Hl]; reflexivity).
    + apply Forall_app. split; [assumption|]. repeat constructor. discriminate.
    + destruct (decide (hb = s)); [eexists; reflexivity|].
      rewrite Hhb1, Hhb. eexists; reflexivity.
  - rewrite Hout by lia. eauto.
Qed.

(** With a head block, every parent on the way in the store, and fuel for
    the numbers from that of [y] down to 0, [_rebuildCanonical] ends
    without error. *)
Lemma rebuild_succeeds d hd t fuel :
  WfDb d ->
  is_Some (d !! headerKey (number hd - 1) (parentHash hd)) ->
  forall y ops bc,
    lockstep d ops bc -> Forall (good_op d hd t) ops -> known d hd y ->
    0 <= number y -> is_Some (_headBlock bc) ->
    (Z.to_nat (number y) < fuel)%nat ->
    exists ops' bc', _rebuildCanonical fuel y ops bc = Ok ops' bc'.
Proof.
  intros Hwf Hpar. induction fuel as [|fuel IH];
    intros y ops bc Hl Hgood Hy Hpos Hhb Hfuel; [lia|].
  rewrite _rebuildCanonical_S. cbv zeta.
  set (a := OpPut (numberToHashKey (number y)) (VHash (hash y))).
  set (b := OpPut (hashToNumberKey (hash y)) (VNumber (number y))).
  set (bc1 := cache_set (hashToNumberKey _) _ _).
  assert (Hl1 : lockstep d (ops ++ [a; b]) bc1).
  { change (ops ++ [a; b]) with (ops ++ [a] ++ [b]). rewrite app_assoc.
    apply lockstep_set, lockstep_set, Hl. }
  assert (Hab : Forall (good_op d hd t) [a; b]).
  { constructor; [|constructor; [|constructor]].
    - exists y. auto.
    - exists y. auto. }
  assert (Hall : Forall (good_op d hd t) (ops ++ [a; b]))
    by (apply Forall_app; split; assumption).
  assert (Hhb1 : _headBlock bc1 = _headBlock bc).
  { destruct (cache_set_fields (hashToNumberKey (hash y)) (VNumber (number y))
                (cache_set (numberToHashKey (number y)) (VHash (hash y)) bc))
      as (_ & _ & _ & _ & _ & H2 & _).
    destruct (cache_set_fields (numberToHashKey (number y)) (VHash (hash y)) bc)
      as (_ & _ & _ & _ & _ & H4 & _).
    fold bc1 in H2. congruence. }
  destruct (number y =? 0) eqn:Hzero; [eauto|].
  apply Z.eqb_neq in Hzero.
  destruct (bool_decide (dbm_numberToHash (number y) bc = Some (hash y))); [eauto|].
  set (s := dbm_numberToHash (number y) bc).
  set (bc2 := flag_stale_heads s bc1).
  destruct (flag_stale_heads_core s bc1) as (Hdb2 & Hc2 & Hhb2). fold bc2 in Hdb2, Hc2, Hhb2.
  assert (Hhb2' : is_Some (_headBlock bc2)) by (rewrite Hhb2, Hhb1; assumption).
  destruct (flag_stale_headBlock s bc2) as [bc3|] eqn:Hflag.
  2: { exfalso. unfold flag_stale_headBlock in Hflag. destruct s; [|discriminate].
       destruct Hhb2' as [hb Hb]. rewrite Hb in Hflag. discriminate. }
  apply flag_stale_headBlock_core in Hflag as (Hdb3 & Hc3 & Hhb3).
  assert (Hl3 : lockstep d (ops ++ [a; b]) bc3).
  { eapply lockstep_fields; [| |exact Hl1]; congruence. }
  assert (Hstored : is_Some (d !! headerKey (number y - 1) (parentHash y))).
  { destruct Hy as [->|Hy]; [assumption|].
    destruct (wf_sum d Hwf _ _ _ Hy Hzero) as (tp & Htp & _).
    eapply wf_td; eassumption. }
  assert (Hparent : exists x, _getHeader (parentHash y) (Some (number y - 1)) bc3 = Some x
                              /\ known d hd x /\ number x = number y - 1).
  { unfold _getHeader. simpl. unfold dbm_getHeader.
    destruct (db_get (headerKey (number y - 1) (parentHash y)) bc3) as [v|] eqn:Hg.
    - destruct (lockstep_get _ _ _ _ _ Hl3 Hg) as [Hd|Hput].
      + destruct (wf_header d Hwf _ _ _ Hd) as (x & -> & Hh & Hn & _).
        exists x. split; [reflexivity|]. split; [|assumption].
        right. rewrite Hh, Hn. assumption.
      + rewrite Forall_forall in Hall. apply Hall in Hput.
        simpl in Hput. destruct Hput as (Hn & Hh & ->).
        exists hd. split; [reflexivity|]. split; [left; reflexivity|congruence].
    - exfalso. unfold db_get in Hg. destruct (cache_get _ bc3); [discriminate|].
      destruct Hl3 as [Hd _]. rewrite Hd in Hg. destruct Hstored as [v Hv]. congruence. }
  destruct Hparent as (x & -> & Hx & Hxn).
  apply IH; try assumption; [lia| |lia].
  rewrite Hhb3, Hhb2, Hhb1. assumption.
Qed.

Lemma rebuildInfo_succeeds fuel isHeader block td cur bc top :
  coherent bc -> WfDb (db bc) ->
  (forall j, 0 <= j <= top -> exists s, db bc !! numberToHashKey j = Some (VHash s)) ->
  (forall j, j < 0 \/ top < j -> db bc !! numberToHashKey j = None) ->
  is_Some (_headBlock bc) ->
  0 <= number (header block) ->
  is_Some (db bc !! headerKey (number (header block) - 1) (parentHash (header block))) ->
  (Z.to_nat (Z.max top (number (header block))) < fuel)%nat ->
  exists ops bc1, rebuildInfo fuel false isHeader block td cur bc = Ok ops bc1.
Proof.
  intros Hc Hwf Hin Hout Hhb Hnum Hpar Hfuel. unfold rebuildInfo.
  destruct (save_block_spec false block td bc Hc)
    as (ops0 & bc0 & -> & Hgood0 & Hl0 & _ & _ & Hnon & Hf0).
  destruct Hf0 as (_ & _ & _ & _ & _ & Hhb0 & _).
  destruct (winsHeader block td cur.1); [|eauto].
  set (bcw := if block_isGenesis block then _ else _).
  assert (Hlw : lockstep (db bc) ops0 bcw).
  { eapply lockstep_fields; [| |exact Hl0];
      unfold bcw; destruct (block_isGenesis block), isHeader; reflexivity. }
  assert (Hhbw : is_Some (_headBlock bcw)).
  { unfold bcw. destruct (block_isGenesis block), isHeader; simpl;
      try (eexists; reflexivity); rewrite Hhb0; assumption. }
  assert (Hnoput : Forall (fun o => forall j v, o <> OpPut (numberToHashKey j) v) ops0).
  { eapply Forall_impl; [exact Hnon|]. intros o Ho j v ->. apply Ho. reflexivity. }
  assert (Hpos1 : 0 <= number (header block) + 1) by lia.
  assert (Hfuel1 : (Z.to_nat (top + 1 - (number (header block) + 1)) < fuel)%nat) by lia.
  destruct (deleteStale_succeeds _ top fuel Hin Hout _ (hash (header block)) _ _
              Hpos1 Hlw Hnoput Hhbw Hfuel1) as (ops1 & bcd & Hdel & Hhbd).
  rewrite Hdel.
  destruct (deleteStale_spec _ _ _ _ _ _ _ _ Hlw Hdel) as (dels & -> & Hdels & Hld & _).
  apply (rebuild_succeeds (db bc) (header block) td fuel Hwf Hpar); try assumption.
  - apply Forall_app. split; [assumption|]. apply is_n2h_del_good. assumption.
  - left. reflexivity.
  - lia.
Qed.

Lemma tasks_succeed_from fuel isHeader block bc top :
  Inv bc ->
  (forall j, 0 <= j <= top -> exists s, db bc !! numberToHashKey j = Some (VHash s)) ->
  (forall j, j < 0 \/ top < j -> db bc !! numberToHashKey j = None) ->
  0 <= number (header block) ->
  is_Some (db bc !! headerKey (number (header block) - 1) (parentHash (header block))) ->
  (Z.to_nat (Z.max top (number (header block))) < fuel)%nat ->
  exists bc', put_tasks fuel false isHeader block bc = Ok tt bc'.
Proof.
  intros (Hc & Hwf & T & _ & (hh & nh & Hhh & Hhdr & _) & (hb & nb & Hhb & Hbdr))
    Hin Hout Hnum Hpar Hfuel.
  unfold put_tasks.
  destruct (getTd_stored bc nh hh Hc Hwf Hhdr) as (th & _ & Hth).
  destruct (getTd_stored bc nb hb Hc Hwf Hbdr) as (tb & _ & Htb).
  unfold getCurrentTd. rewrite Hhh, Hhb, Hth, Htb.
  assert (Htd : exists t, _getTd (parentHash (header block))
                            (Some (number (header block) - 1)) bc = Some t).
  { destruct Hpar as [v Hv].
    destruct (wf_header _ Hwf _ _ _ Hv) as (_ & _ & _ & _ & _ & t & Ht).
    exists t. unfold _getTd, _lookupByHashNumber, dbm_getTd.
    rewrite (coherent_db_get _ _ Hc), Ht. reflexivity. }
  destruct Htd as [t Ht]. unfold getBlockTd. rewrite Ht.
  assert (Hsome : is_Some (_headBlock bc)) by (rewrite Hhb; eexists; reflexivity).
  destruct (rebuildInfo_succeeds fuel isHeader block
              (difficulty (header block) + t) (th, tb) bc top
              Hc Hwf Hin Hout Hsome Hnum Hpar Hfuel) as (ops & bc1 & ->).
  eauto.
Qed.

Lemma put_succeeds_from fuel cfg item bc top :
  Inv bc ->
  (forall j, 0 <= j <= top -> exists s, db bc !! numberToHashKey j = Some (VHash s)) ->
  (forall j, j < 0 \/ top < j -> db bc !! numberToHashKey j = None) ->
  item_chain item = chainId cfg ->
  verify cfg false (item_block item) bc = None ->
  (verifyPOW cfg (item_block item) bc).1 = None ->
  0 <= number (header (item_block item)) ->
  is_Some (db bc !! headerKey (number (header (item_block item)) - 1)
                       (parentHash (header (item_block item)))) ->
  (Z.to_nat (Z.max top (number (header (item_block item)))) < fuel)%nat ->
  exists bc', _putBlockOrHeader fuel cfg item false bc = Ok tt bc'.
Proof.
  intros Hinv Hin Hout Hchain Hverify Hpow Hnum Hpar Hfuel.
  unfold _putBlockOrHeader. cbv zeta.
  rewrite Hchain, Z.eqb_refl, Hverify. cbn [negb].
  destruct (verifyPOW cfg (item_block item) bc) as [e bcv] eqn:Hv.
  simpl in Hpow. subst e.
  apply verifyPOW_inv in Hv as [[epochs ->] _].
  assert (E : forall k, chain_key k -> db (after_verifier epochs bc) !! k = db bc !! k)
    by (intros k; apply after_verifier_db).
  apply (tasks_succeed_from fuel _ _ _ top); try assumption.
  - apply Inv_after_verifier. assumption.
  - intros j Hj. rewrite (E (numberToHashKey j)) by discriminate. auto.
  - intros j Hj. rewrite (E (numberToHashKey j)) by discriminate. auto.
  - rewrite E by discriminate. assumption.
Qed.

(** A put whose parent is known succeeds.  In a state reached from a fresh
    store, the put of a block or header of the object's chain, of number 1
    or more, that passes the two verifications and whose parent header is
    in the store under the number below, returns without error once the
    fuel covers the two walks. *)
Theorem put_known_parent_succeeds (cfg : Config) (item : Item) (bc : Blockchain) :
  let hd := header (item_block item) in
  reachable bc ->
  item_chain item = chainId cfg ->
  verify cfg false (item_block item) bc = None ->
  (verifyPOW cfg (item_block item) bc).1 = None ->
  1 <= number hd ->
  is_Some (db bc !! headerKey (number hd - 1) (parentHash hd)) ->
  exists fuel0, forall fuel, (fuel0 <= fuel)%nat ->
    exists bc', _putBlockOrHeader fuel cfg item false bc = Ok tt bc'.
Proof.
  intros hd Hr Hchain Hverify Hpow Hnum Hpar.
  destruct (reachable_chain _ Hr) as (top & hh & _ & _ & _ & Hout & Hin).
  exists (S (Z.to_nat (Z.max top (number hd)))). intros fuel Hfuel.
  apply (put_succeeds_from fuel cfg item bc top); try assumption; try (fold hd; lia).
  - apply reachable_Inv. assumption.
  - intros j Hj. destruct (Hin j Hj) as (x & Hx & _). eauto.
Qed.

Lemma put_known_parent_succeeds_witness :
  exists fuel0, forall fuel, (fuel0 <= fuel)%nat ->
    exists bc', _putBlockOrHeader fuel Scenario.cfg
                  (ItemBlock 1 (Scenario.full Scenario.D2)) false Scenario.linear2
                = Ok tt bc'.
Proof.
  apply (put_known_parent_succeeds Scenario.cfg (ItemBlock 1 (Scenario.full Scenario.D2))
           Scenario.linear2).
  - exact reachable_linear2.
  - reflexivity.
  - reflexivity.
  - reflexivity.
  - simpl. lia.
  - vm_compute. eexists. reflexivity.
Defined.

(** ** Deletions that succeed *)

(** With the two heads set and fuel for the numbers from that of [x] to
    [top], [_delChild] along the canonical chain ends without error. *)
Lemma delChild_succeeds d top p fuel :
  WfDb d ->
  (forall n, 0 <= n <= top ->
     exists x, d !! numberToHashKey n = Some (VHash (hash x))
               /\ d !! headerKey n (hash x) = Some (VHeader x)
               /\ (1 <= n -> d !! numberToHashKey (n - 1) = Some (VHash (parentHash x)))) ->
  (forall n, n < 0 \/ top < n -> d !! numberToHashKey n = None) ->
  forall x ops bc,
    lockstep d ops bc -> Forall is_del ops ->
    0 <= number x <= top ->
    is_Some (_headHeader bc) -> is_Some (_headBlock bc) ->
    (Z.to_nat (top - number x) < fuel)%nat ->
    exists ops' bc',
      _delChild fuel (hash x) (number x) (Some p) ops bc = Ok ops' bc'.
Proof.
  intros Hwf Hin Hout. induction fuel as [|fuel IH];
    intros x ops bc Hl Hdels Hx Hhh Hhb Hfuel; [lia|].
  rewrite _delChild_S. cbv zeta.
  set (ks := del_keys (hash x) (number x)) in *.
  set (bc1 := foldl (fun b k => cache_del k b) bc ks).
  destruct (cache_dels_fields ks bc) as (Hdb1 & _ & _ & _ & Hhh1 & Hhb1 & _).
  fold bc1 in Hdb1, Hhh1, Hhb1.
  destruct Hhh as [cur Hcur], Hhb as [curb Hcurb].
  rewrite Hhh1, Hhb1, Hcur, Hcurb.
  set (bc2 := if decide (hash x = cur) then _ else _).
  set (bc3 := if decide (hash x = curb) then _ else _).
  assert (H3 : db bc3 = db bc1 /\ cache bc3 = cache bc1
               /\ is_Some (_headHeader bc3) /\ is_Some (_headBlock bc3)).
  { unfold bc3, bc2.
    destruct (decide (hash x = cur)), (decide (hash x = curb)); simpl;
      rewrite ?Hhh1, ?Hhb1, ?Hcur, ?Hcurb; repeat split; eexists; reflexivity. }
  destruct H3 as (Hdb3 & Hc3 & Hhh3 & Hhb3).
  assert (Hl3 : lockstep d (ops ++ map OpDel ks) bc3).
  { eapply lockstep_fields; [exact Hdb3|exact Hc3|]. apply lockstep_dels. assumption. }
  assert (Hdels1 : Forall is_del (ops ++ map OpDel ks)).
  { apply Forall_app. split; [assumption|apply del_keys_is_del]. }
  assert (Hread : forall k, db_get k bc3 = d !! k).
  { intros k. apply (lockstep_read _ _ _ _ Hl3). intros v. apply is_del_no_put. assumption. }
  unfold _getCanonicalHeader, dbm_numberToHash. rewrite Hread.
  destruct (decide (number x = top)) as [Heq|Hne].
  - rewrite Hout by lia. eauto.
  - destruct (Hin (number x + 1)) as (c & Hc1 & Hc2 & _); [lia|].
    rewrite Hc1. unfold _getHeader. simpl.
    unfold dbm_getHeader. rewrite Hread, Hc2.
    destruct (wf_header d Hwf _ _ _ Hc2) as (c' & [= <-] & _ & Hcn & _).
    apply IH; try assumption; lia.
Qed.

Lemma delChild_headBlock fuel :
  forall h num headHash ops bc ops' bc',
    _delChild fuel h num headHash ops bc = Ok ops' bc' ->
    is_Some (_headBlock bc) -> is_Some (_headBlock bc').
Proof.
  induction fuel as [|fuel IH]; intros h num headHash ops bc ops' bc' H Hhb; [discriminate|].
  rewrite _delChild_S in H. cbv zeta in H.
  set (bc1 := foldl (fun b k => cache_del k b) bc (del_keys h num)) in H.
  destruct (cache_dels_fields (del_keys h num) bc) as (_ & _ & _ & _ & _ & Hhb1 & _).
  fold bc1 in Hhb1.
  destruct headHash as [p|]; [|injection H as <- <-; rewrite Hhb1; assumption].
  destruct (_headHeader bc1) as [cur|]; [|discriminate].
  destruct (_headBlock bc1) as [curb|] eqn:Hcurb; [|discriminate].
  set (bc3 := if decide (h = curb) then _ else _) in H.
  assert (H3 : is_Some (_headBlock bc3)).
  { unfold bc3. destruct (decide (h = cur)), (decide (h = curb));
      cbn [_headBlock with_headBlock with_headHeader];
      rewrite ?Hcurb; eexists; reflexivity. }
  destruct (_getCanonicalHeader (num + 1) bc3) as [child|].
  - eapply IH; eassumption.
  - injection H as <- <-. assumption.
Qed.

Lemma delBlock_succeeds_from fuel h hd bc top hh :
  Inv bc ->
  (forall n, 0 <= n <= top ->
     exists x, db bc !! numberToHashKey n = Some (VHash (hash x))
               /\ db bc !! headerKey n (hash x) = Some (VHeader x)
               /\ (1 <= n ->
                   db bc !! numberToHashKey (n - 1) = Some (VHash (parentHash x)))) ->
  (forall n, n < 0 \/ top < n -> db bc !! numberToHashKey n = None) ->
  _headHeader bc = Some hh ->
  _getHeader h None bc = Some hd ->
  (Z.to_nat (top + 1) < fuel)%nat ->
  exists bc', _delBlock fuel h bc = Ok tt bc'.
Proof.
  intros (Hc & Hwf & T & _ & _ & (hb & nb & Hhb & _)) Hin Hout Hhh Hget Hfuel.
  destruct (getHeader_stored _ _ _ Hc Hwf Hget) as [Hh Hstored]. subst h.
  unfold _delBlock. rewrite Hget.
  destruct (bool_decide (dbm_numberToHash (number hd) bc = Some (hash hd))) eqn:Hcan.
  - apply bool_decide_eq_true in Hcan. apply dbm_numberToHash_Some in Hcan.
    rewrite (coherent_db_get _ _ Hc) in Hcan.
    assert (Hrange : 0 <= number hd <= top).
    { destruct (decide (0 <= number hd <= top)) as [?|Hno]; [assumption|].
      rewrite Hout in Hcan by lia. discriminate. }
    assert (Hf1 : (Z.to_nat (top - number hd) < fuel)%nat) by lia.
    assert (Hs1 : is_Some (_headHeader bc)) by (rewrite Hhh; eexists; reflexivity).
    assert (Hs2 : is_Some (_headBlock bc)) by (rewrite Hhb; eexists; reflexivity).
    destruct (delChild_succeeds _ top (parentHash hd) fuel Hwf Hin Hout hd [] bc
                (coherent_lockstep _ Hc) (Forall_nil_2 _) Hrange Hs1 Hs2 Hf1)
      as (ops1 & bc1 & Hchild).
    rewrite Hchild.
    destruct (delChild_spec _ _ _ _ _ _ _ _ Hchild)
      as ((extra & Hops1 & Hextra) & _ & _ & Hl1 & _ & Hp & _).
    rewrite app_nil_l in Hops1.
    specialize (Hl1 _ (coherent_lockstep _ Hc)).
    assert (Hdel1 : Forall is_del ops1).
    { rewrite Hops1. apply Forall_app. split; [apply del_keys_is_del|assumption]. }
    assert (Hnoput : Forall (fun o => forall j v, o <> OpPut (numberToHashKey j) v) ops1).
    { eapply Forall_impl; [exact Hdel1|]. intros o (k & -> & _) j v. discriminate. }
    assert (Hin' : forall j, 0 <= j <= top ->
                     exists s, db bc !! numberToHashKey j = Some (VHash s)).
    { intros j Hj. destruct (Hin j Hj) as (x & Hx & _). eauto. }
    assert (Hhb1 : is_Some (_headBlock bc1)).
    { destruct (_headBlock bc1) eqn:E; [eexists; reflexivity|].
      exfalso. clear Hp Hl1.
      revert E. apply delChild_headBlock in Hchild; [|assumption].
      destruct Hchild as [v ->]. discriminate. }
    assert (Hpos : 0 <= number hd) by lia.
    assert (Hf2 : (Z.to_nat (top + 1 - number hd) < fuel)%nat) by lia.
    destruct (deleteStale_succeeds _ top fuel Hin' Hout _ (parentHash hd) _ _
                Hpos Hl1 Hnoput Hhb1 Hf2) as (ops2 & bc2 & -> & _).
    eauto.
  - destruct fuel as [|fuel]; [lia|]. rewrite _delChild_S. cbv zeta. eauto.
Qed.

(** A delete of a known block succeeds.  In a state reached from a fresh
    store, [delBlock] of a hash whose header [_getHeader] finds returns
    without error once the fuel covers the canonical chain, whether the
    block is on the chain or not. *)
Theorem delBlock_known_succeeds (h : Hash) (hd : Header) (bc : Blockchain) :
  reachable bc ->
  _getHeader h None bc = Some hd ->
  exists fuel0, forall fuel, (fuel0 <= fuel)%nat ->
    exists bc', _delBlock fuel h bc = Ok tt bc'.
Proof.
  intros Hr Hget.
  destruct (reachable_chain _ Hr) as (top & hh & _ & Hhh & _ & Hout & Hin).
  exists (S (Z.to_nat (top + 1))). intros fuel Hfuel.
  apply (delBlock_succeeds_from fuel h hd bc top hh); try assumption; try lia.
  apply reachable_Inv. assumption.
Qed.

Lemma delBlock_known_succeeds_witness :
  exists fuel0, forall fuel, (fuel0 <= fuel)%nat ->
    exists bc', _delBlock fuel (hash Scenario.A1) Scenario.linear2 = Ok tt bc'.
Proof.
  apply (delBlock_known_succeeds (hash Scenario.A1) Scenario.A1 Scenario.linear2).
  - exact reachable_linear2.
  - vm_compute. reflexivity.
Defined.

(** ** Opening the store again *)

(** A successful put ends by writing the three heads to the store. *)
Lemma put_heads_saved fuel cfg item isGenesis bc bc' :
  _putBlockOrHeader fuel cfg item isGenesis bc = Ok tt bc' -> heads_saved bc'.
Proof.
  intros H. apply put_ok_inv in H as (epochs & cur & td & ops & bc1 & _ & _ & _ & ->).
  unfold heads_saved, _batchDbOps. cbn [db with_db _heads _headHeader _headBlock].
  rewrite batch_app. unfold _saveHeadOps.
  change (batch [OpPut ?k1 ?v1; OpPut ?k2 ?v2; OpPut ?k3 ?v3] ?d)
    with (<[k3 := v3]> (<[k2 := v2]> (<[k1 := v1]> d))).
  split; [|split].
  - rewrite !lookup_insert_ne by discriminate. apply lookup_insert_eq.
  - rewrite lookup_insert_ne by discriminate. apply lookup_insert_eq.
  - apply lookup_insert_eq.
Qed.

(** The heads after the put of the genesis block on an object over an
    empty store. *)
Lemma rebuildInfo_fresh_heads fuel g td cur d0 max ops bc1 :
  (forall k, chain_key k -> d0 !! k = None) ->
  number (header g) = 0 ->
  rebuildInfo fuel true false g td cur (new_Blockchain d0 max) = Ok ops bc1 ->
  _heads bc1 = ∅ /\ _headHeader bc1 = Some (hash (header g))
  /\ _headBlock bc1 = Some (hash (header g)).
Proof.
  intros Hd0 Hnum. unfold rebuildInfo.
  destruct (save_block_spec true g td (new_Blockchain d0 max) (new_Blockchain_coherent d0 max))
    as (ops0 & bc0 & Hs & _ & Hl0 & _ & _ & Hnon & Hf0).
  destruct Hf0 as (_ & _ & Hheads0 & _).
  rewrite Hs. unfold winsHeader, block_isGenesis. rewrite Hnum. simpl.
  set (bcw := with_genesis _ _).
  assert (Hlw : lockstep d0 ops0 bcw) by (eapply lockstep_fields; [| |exact Hl0]; reflexivity).
  destruct fuel as [|fuel]; [discriminate|].
  rewrite _deleteStaleAssignments_S.
  destruct (dbm_numberToHash (0 + 1) bcw) as [stale|] eqn:Hn.
  { exfalso. apply dbm_numberToHash_Some in Hn.
    destruct (lockstep_get _ _ _ _ _ Hlw Hn) as [He|Hin].
    - rewrite Hd0 in He by discriminate. discriminate.
    - rewrite Forall_forall in Hnon. apply (Hnon _ Hin). reflexivity. }
  rewrite _rebuildCanonical_S. cbv zeta. rewrite Hnum. simpl.
  intros [= _ <-].
  destruct (cache_set_fields (hashToNumberKey (hash (header g))) (VNumber 0)
              (cache_set (numberToHashKey 0) (VHash (hash (header g))) bcw))
    as (_ & _ & H1 & _ & H2 & H3 & _).
  destruct (cache_set_fields (numberToHashKey 0) (VHash (hash (header g))) bcw)
    as (_ & _ & H4 & _ & H5 & H6 & _).
  rewrite H1, H2, H3, H4, H5, H6. unfold bcw. cbn. auto.
Qed.

Lemma init_heads_saved fuel cfg g max bc0 :
  number (header g) = 0 ->
  _init fuel cfg g (new_Blockchain ∅ max) = Ok tt bc0 ->
  heads_saved bc0.
Proof.
  intros Hnum Hinit. unfold _init in Hinit.
  assert (Hnone : dbm_numberToHash 0 (new_Blockchain ∅ max) = None).
  { unfold dbm_numberToHash, db_get. simpl. rewrite lookup_empty. reflexivity. }
  rewrite Hnone in Hinit.
  destruct (_putBlockOrHeader _ _ _ _ _) as [[] bcp| |] eqn:Hput; try discriminate.
  injection Hinit as <-.
  pose proof (put_heads_saved _ _ _ _ _ _ Hput) as (Hs1 & Hs2 & Hs3).
  apply put_ok_inv in Hput as (epochs & cur & td & ops & bc1 & _ & _ & Hr & ->).
  simpl item_block in *. simpl item_isHeader in *.
  assert (Hgen : block_isGenesis g = true) by (apply Z.eqb_eq; assumption).
  pose proof (rebuildInfo_genesis _ _ _ _ _ _ _ _ _ Hr Hgen) as Hg.
  rewrite fresh_after_verifier in Hr.
  destruct (rebuildInfo_fresh_heads _ _ _ _ _ _ _ _ (ethash_writes_empty epochs) Hnum Hr)
    as (Hh1 & Hh2 & Hh3).
  unfold heads_saved.
  cbn [db with_db _batchDbOps with_headBlock with_headHeader with_heads
       _heads _headHeader _headBlock _genesis] in *.
  rewrite Hg. rewrite Hh1 in Hs1. rewrite Hh2 in Hs2. rewrite Hh3 in Hs3. auto.
Qed.

Lemma reachable_heads_saved bc : reachable bc -> heads_saved bc.
Proof.
  intros (fuel & cfg & g & max & items & bc0 & Hg & Hinit & _ & Hrun).
  pose proof (init_heads_saved _ _ _ _ _ Hg Hinit) as H0.
  clear Hinit. revert bc0 H0 Hrun.
  induction items as [|item items IH]; intros bc0 H0 Hrun; simpl in Hrun.
  - injection Hrun as <-. assumption.
  - destruct (_putBlockOrHeader fuel cfg item false bc0) as [[] bc1| |] eqn:Hput;
      try discriminate.
    eapply IH; [|eassumption]. eapply put_heads_saved; eassumption.
Qed.

(** Opening the store again.  An object built over the store of a state
    reached from a fresh store initialises without putting a genesis
    block, whatever genesis block it is given, and comes up with the same
    iterator heads, header head and block head, over the same store. *)
Theorem reopen_restores_heads (fuel : nat) (cfg : Config) (g : Block) (max : nat)
    (bc : Blockchain) :
  reachable bc ->
  exists bcr,
    _init fuel cfg g (new_Blockchain (db bc) max) = Ok tt bcr
    /\ db bcr = db bc
    /\ _heads bcr = _heads bc
    /\ _headHeader bcr = _headHeader bc
    /\ _headBlock bcr = _headBlock bc.
Proof.
  intros Hr.
  destruct (reachable_heads_saved _ Hr) as (Hs1 & Hs2 & Hs3).
  destruct (reachable_Inv _ Hr) as (_ & _ & T & _ & (hh & nh & Hhh & _) & (hb & nb & Hhb & _)).
  destruct (reachable_chain _ Hr) as (top & hh' & Htop & _ & _ & _ & Hin).
  destruct (Hin 0) as (x & Hx & _); [lia|].
  unfold _init, dbm_numberToHash.
  change (db_get (numberToHashKey 0) (new_Blockchain (db bc) max))
    with (db bc !! numberToHashKey 0).
  rewrite Hx. eexists. split; [reflexivity|].
  unfold load_heads.
  change (db_get headsKey ?b) with (db bc !! headsKey).
  change (db_get headHeaderKey ?b) with (db bc !! headHeaderKey).
  change (db_get headBlockKey ?b) with (db bc !! headBlockKey).
  rewrite Hs1, Hs2, Hs3, Hhh, Hhb. cbn. auto.
Qed.

Lemma reopen_restores_heads_witness :
  exists bcr,
    _init 8 Scenario.cfg (mkBlock Scenario.G [] []) (new_Blockchain (db Scenario.linear2) 4)
    = Ok tt bcr
    /\ _headHeader bcr = _headHeader Scenario.linear2.
Proof.
  destruct (reopen_restores_heads 8 Scenario.cfg (mkBlock Scenario.G [] []) 4
              Scenario.linear2 reachable_linear2) as (bcr & H1 & _ & _ & H2 & _).
  exists bcr. split; assumption.
Defined.
